(** * HLS knowledge base: rule matching, effectiveness statistics, rollback

    A shallow embedding of the three cores of the repository:

    - the rule matcher ([find_matching_rule] of the import scripts, the
      look-ups of [update_rule_effectiveness] and of
      [record_complete_iteration] in [main.py]);
    - the effectiveness aggregator (accumulate mode in
      [hls-knowledge-base/import_fir128_data.py] and [main.py], overwrite
      mode in [examples/fir128/import_fir128_data.py]);
    - the logger / rollback tool [examples/fir128/logger-rollback.py].

    Around them, the other endpoints of [main.py] (projects, iterations,
    synthesis results, similar designs, effective rules, progress) and the
    recent-imports logger and command line of the rollback tool.

    The PostgreSQL database is a record of tables, each a list of rows in
    insertion order.  Effectful code runs in a state-and-exception monad
    over a [world]: the database, the [uuid4] supply, the clock, the log
    files and the operator's terminal input.

    Conventions.  Text is [string] over ASCII code points.  SQL integers and
    Python integers are [Z]; the numeric column [avg_ii_improvement] and
    Python's [float] arithmetic on it are exact rationals [Q] (rounding is
    not modelled).  UUIDs are opaque strings.  Columns that no modelled
    operation reads back (code snapshot, hash, pragmas, prompts, resource
    usage) are left out of the rows. *)

From Stdlib Require Import List String Ascii Bool ZArith QArith Lia.
From Stdlib Require Import Permutation Sorted DecimalString.
Import ListNotations.

Local Open Scope string_scope.
Local Open Scope Z_scope.

(* ================================================================== *)
(** * Python and SQL text primitives *)

Module Text.

(** [str.lower] / SQL [LOWER] on ASCII. *)
Definition is_upper (c : ascii) : bool :=
  let n := nat_of_ascii c in (Nat.leb 65 n && Nat.leb n 90)%bool.

Definition lower_char (c : ascii) : ascii :=
  if is_upper c then ascii_of_nat (nat_of_ascii c + 32) else c.

Fixpoint lower (s : string) : string :=
  match s with
  | EmptyString => EmptyString
  | String c r => String (lower_char c) (lower r)
  end.

(** [str.upper], used to name an auto-created project. *)
Definition is_lower (c : ascii) : bool :=
  let n := nat_of_ascii c in (Nat.leb 97 n && Nat.leb n 122)%bool.

Definition upper_char (c : ascii) : ascii :=
  if is_lower c then ascii_of_nat (nat_of_ascii c - 32) else c.

Fixpoint upper (s : string) : string :=
  match s with
  | EmptyString => EmptyString
  | String c r => String (upper_char c) (upper r)
  end.

(** The ASCII characters for which [str.isspace] holds: TAB, LF, VT, FF, CR,
    FS, GS, RS, US and SPACE. *)
Definition is_space (c : ascii) : bool :=
  let n := nat_of_ascii c in
  ((Nat.leb 9 n && Nat.leb n 13) || (Nat.leb 28 n && Nat.leb n 32))%bool.

Fixpoint lstrip (s : string) : string :=
  match s with
  | EmptyString => EmptyString
  | String c r => if is_space c then lstrip r else s
  end.

Fixpoint rev_append (s acc : string) : string :=
  match s with
  | EmptyString => acc
  | String c r => rev_append r (String c acc)
  end.

Definition rev (s : string) : string := rev_append s EmptyString.

Definition rstrip (s : string) : string := rev (lstrip (rev s)).

(** [str.strip()] *)
Definition strip (s : string) : string := rstrip (lstrip s).

(** Python truthiness of an optional string: [None] and the empty string are false. *)
Definition truthy (o : option string) : bool :=
  match o with
  | Some (String _ _) => true
  | _ => false
  end.

(** SQL [s LIKE p] with the default escape character: [%] matches any run
    of characters, [_] any one character, a backslash takes the next
    pattern character literally.  A pattern that ends in a lone backslash
    is rejected by PostgreSQL; no pattern built as [%...%] ends that way,
    and the matcher answers [false] there. *)
Fixpoint like (p s : string) {struct p} : bool :=
  match p with
  | EmptyString => match s with EmptyString => true | _ => false end
  | String "%" p' =>
      (fix star (t : string) : bool :=
         like p' t
         || match t with
            | EmptyString => false
            | String _ t' => star t'
            end) s
  | String "_" p' =>
      match s with
      | EmptyString => false
      | String _ s' => like p' s'
      end
  | String "\" EmptyString => false
  | String "\" (String c p') =>
      match s with
      | EmptyString => false
      | String d s' => Ascii.eqb c d && like p' s'
      end
  | String c p' =>
      match s with
      | EmptyString => false
      | String d s' => Ascii.eqb c d && like p' s'
      end
  end%char.

(** [x in ['y', 'yes']] *)
Definition in_y_yes (s : string) : bool :=
  String.eqb s "y" || String.eqb s "yes".

(** [input(...).strip().lower()] followed by the membership test. *)
Definition affirmative (line : string) : bool := in_y_yes (lower (strip line)).

End Text.

(* ================================================================== *)
(** * The database: tables, rows, statements *)

Module Db.

Definition uuid := string.
Definition timestamp := Z.

(** Table [projects]. *)
Record project_row := {
  p_id : uuid;
  p_name : string;
  p_type : string;
  p_description : option string;
  p_target_device : option string;
  p_created_at : timestamp
}.

(** Table [design_iterations]; [project_id] references [projects]. *)
Record iteration_row := {
  di_id : uuid;
  di_project_id : uuid;
  di_iteration_number : Z;
  di_approach_description : option string;
  di_created_at : timestamp
}.

(** Table [synthesis_results]; [iteration_id] references
    [design_iterations]. *)
Record synthesis_row := {
  sr_id : uuid;
  sr_iteration_id : uuid;
  sr_ii_achieved : Z;
  sr_created_at : timestamp
}.

(** Table [hls_rules]. *)
Record rule_row := {
  r_id : uuid;
  r_rule_code : option string;
  r_rule_text : string;
  r_category : option string;
  r_priority : Z
}.

(** Table [rules_effectiveness]; [rule_id] references [hls_rules];
    [avg_ii_improvement] is nullable. *)
Record effectiveness_row := {
  re_id : uuid;
  re_rule_id : uuid;
  re_project_type : string;
  re_times_applied : Z;
  re_success_count : Z;
  re_avg_ii_improvement : option Q;
  re_last_applied_at : timestamp
}.

(** Table [design_patterns]. *)
Record pattern_row := {
  dp_id : uuid;
  dp_name : string;
  dp_created_at : timestamp
}.

Record db := {
  projects : list project_row;
  design_iterations : list iteration_row;
  synthesis_results : list synthesis_row;
  hls_rules : list rule_row;
  rules_effectiveness : list effectiveness_row;
  design_patterns : list pattern_row
}.

Definition empty : db :=
  {| projects := []; design_iterations := []; synthesis_results := [];
     hls_rules := []; rules_effectiveness := []; design_patterns := [] |}.

Definition with_projects (d : db) (t : list project_row) : db :=
  {| projects := t; design_iterations := design_iterations d;
     synthesis_results := synthesis_results d; hls_rules := hls_rules d;
     rules_effectiveness := rules_effectiveness d;
     design_patterns := design_patterns d |}.

Definition with_design_iterations (d : db) (t : list iteration_row) : db :=
  {| projects := projects d; design_iterations := t;
     synthesis_results := synthesis_results d; hls_rules := hls_rules d;
     rules_effectiveness := rules_effectiveness d;
     design_patterns := design_patterns d |}.

Definition with_synthesis_results (d : db) (t : list synthesis_row) : db :=
  {| projects := projects d; design_iterations := design_iterations d;
     synthesis_results := t; hls_rules := hls_rules d;
     rules_effectiveness := rules_effectiveness d;
     design_patterns := design_patterns d |}.

Definition with_rules_effectiveness (d : db) (t : list effectiveness_row) : db :=
  {| projects := projects d; design_iterations := design_iterations d;
     synthesis_results := synthesis_results d; hls_rules := hls_rules d;
     rules_effectiveness := t;
     design_patterns := design_patterns d |}.

Definition with_design_patterns (d : db) (t : list pattern_row) : db :=
  {| projects := projects d; design_iterations := design_iterations d;
     synthesis_results := synthesis_results d; hls_rules := hls_rules d;
     rules_effectiveness := rules_effectiveness d;
     design_patterns := t |}.

(** What a statement can raise. *)
Inductive exn :=
  | ForeignKeyViolation
  | UndefinedTable
  | TypeError
  | EOFError
  | HTTPException (status : Z).

Inductive result (A : Type) :=
  | Ok (a : A)
  | Raised (e : exn).
Arguments Ok {A} a.
Arguments Raised {A} e.

(** [DELETE FROM <table> WHERE id = $1].  A row that other rows still
    reference cannot be deleted (the foreign keys named beside
    [ROLLBACK_ORDER]: synthesis_results.iteration_id, design_iterations.
    project_id); deleting an absent row deletes nothing and succeeds. *)
Definition exec_delete (table : string) (id : uuid) (d : db) : result db :=
  if String.eqb table "synthesis_results" then
    Ok (with_synthesis_results d
          (filter (fun r => negb (String.eqb (sr_id r) id)) (synthesis_results d)))
  else if String.eqb table "rules_effectiveness" then
    Ok (with_rules_effectiveness d
          (filter (fun r => negb (String.eqb (re_id r) id)) (rules_effectiveness d)))
  else if String.eqb table "design_iterations" then
    if existsb (fun r => String.eqb (di_id r) id) (design_iterations d)
       && existsb (fun s => String.eqb (sr_iteration_id s) id) (synthesis_results d)
    then Raised ForeignKeyViolation
    else Ok (with_design_iterations d
               (filter (fun r => negb (String.eqb (di_id r) id)) (design_iterations d)))
  else if String.eqb table "design_patterns" then
    Ok (with_design_patterns d
          (filter (fun r => negb (String.eqb (dp_id r) id)) (design_patterns d)))
  else if String.eqb table "projects" then
    if existsb (fun r => String.eqb (p_id r) id) (projects d)
       && existsb (fun i => String.eqb (di_project_id i) id) (design_iterations d)
    then Raised ForeignKeyViolation
    else Ok (with_projects d
               (filter (fun r => negb (String.eqb (p_id r) id)) (projects d)))
  else Raised UndefinedTable.

(** [INSERT INTO projects]. *)
Definition insert_project (r : project_row) (d : db) : result db :=
  Ok (with_projects d (projects d ++ [r])).

(** [INSERT INTO design_iterations]: the project must exist. *)
Definition insert_iteration (r : iteration_row) (d : db) : result db :=
  if existsb (fun p => String.eqb (p_id p) (di_project_id r)) (projects d)
  then Ok (with_design_iterations d (design_iterations d ++ [r]))
  else Raised ForeignKeyViolation.

(** [INSERT INTO synthesis_results]: the iteration must exist. *)
Definition insert_synthesis (r : synthesis_row) (d : db) : result db :=
  if existsb (fun i => String.eqb (di_id i) (sr_iteration_id r)) (design_iterations d)
  then Ok (with_synthesis_results d (synthesis_results d ++ [r]))
  else Raised ForeignKeyViolation.

(** [INSERT INTO rules_effectiveness]: the rule must exist. *)
Definition insert_effectiveness (r : effectiveness_row) (d : db) : result db :=
  if existsb (fun x => String.eqb (r_id x) (re_rule_id r)) (hls_rules d)
  then Ok (with_rules_effectiveness d (rules_effectiveness d ++ [r]))
  else Raised ForeignKeyViolation.

(** [SELECT ... FROM rules_effectiveness WHERE rule_id = $1 AND
    project_type = $2], first row. *)
Definition select_effectiveness (rule_id : uuid) (project_type : string)
    (d : db) : option effectiveness_row :=
  find (fun r => String.eqb (re_rule_id r) rule_id
                 && String.eqb (re_project_type r) project_type)
       (rules_effectiveness d).

(** [UPDATE rules_effectiveness SET times_applied = $1, success_count = $2,
    avg_ii_improvement = $3, last_applied_at = CURRENT_TIMESTAMP
    WHERE id = $4]. *)
Definition update_effectiveness (times success : Z) (avg : option Q)
    (now : timestamp) (id : uuid) (d : db) : db :=
  with_rules_effectiveness d
    (map (fun r =>
            if String.eqb (re_id r) id
            then {| re_id := re_id r; re_rule_id := re_rule_id r;
                    re_project_type := re_project_type r;
                    re_times_applied := times; re_success_count := success;
                    re_avg_ii_improvement := avg;
                    re_last_applied_at := now |}
            else r)
         (rules_effectiveness d)).

(** [SELECT COALESCE(MAX(iteration_number), 0) + 1 FROM design_iterations
    WHERE project_id = $1]. *)
Definition iteration_numbers (project_id : uuid) (d : db) : list Z :=
  map di_iteration_number
      (filter (fun r => String.eqb (di_project_id r) project_id)
              (design_iterations d)).

Definition sql_max (l : list Z) : option Z :=
  match l with
  | [] => None
  | x :: r => Some (fold_left Z.max r x)
  end.

Definition coalesce {A : Type} (o : option A) (dflt : A) : A :=
  match o with Some a => a | None => dflt end.

Definition next_iteration_number (project_id : uuid) (d : db) : Z :=
  coalesce (sql_max (iteration_numbers project_id d)) 0 + 1.

End Db.

(* ================================================================== *)
(** * The world and the monad of effects *)

Module Eff.
Import Db.

(** One entry of a rollback log ([inserted_records]). *)
Record log_record := {
  lr_table : string;
  lr_id : string;
  lr_note : string
}.

(** A rollback log as [yaml.safe_load] returns it. *)
Record log_data := {
  ld_project : string;
  ld_iteration : option Z;
  ld_project_type : string;
  ld_date : timestamp;
  ld_timestamp : timestamp;
  ld_operator : string;
  ld_notes : string;
  ld_inserted_records : list log_record;
  ld_rollback_status : option string;
  ld_rollback_timestamp : option timestamp
}.

(** The environment of a run: the database behind the connection, the
    values [uuid4()] will return, the clock, the log files by path (the
    parsed content; [None] for a file that cannot be read), whether a glob
    pattern matches some file under [logs/], and the lines the operator
    will type. *)
Record world := {
  w_db : db;
  w_uuid : nat -> uuid;
  w_next : nat;
  w_clock : timestamp;
  w_files : string -> option log_data;
  w_glob : string -> bool;
  w_stdin : list string
}.

Definition set_db (w : world) (d : db) : world :=
  {| w_db := d; w_uuid := w_uuid w; w_next := w_next w; w_clock := w_clock w;
     w_files := w_files w; w_glob := w_glob w; w_stdin := w_stdin w |}.

Definition M (A : Type) : Type := world -> result A * world.

Definition ret {A : Type} (a : A) : M A := fun w => (Ok a, w).

Definition bind {A B : Type} (m : M A) (k : A -> M B) : M B :=
  fun w =>
    match m w with
    | (Ok a, w') => k a w'
    | (Raised e, w') => (Raised e, w')
    end.

Definition raise {A : Type} (e : exn) : M A := fun w => (Raised e, w).

Declare Scope eff_scope.
Delimit Scope eff_scope with eff.
Notation "x <- m ;; k" := (bind m (fun x => k))
  (at level 100, m at next level, right associativity) : eff_scope.
Notation "m ;;; k" := (bind m (fun _ => k))
  (at level 100, right associativity) : eff_scope.
Local Open Scope eff_scope.

(** [try: body except Exception: handler] *)
Definition try_except {A : Type} (body : M A) (handler : exn -> M A) : M A :=
  fun w =>
    match body w with
    | (Ok a, w') => (Ok a, w')
    | (Raised e, w') => handler e w'
    end.

(** [async with conn.transaction(): body]: commit on normal exit; on an
    exception the database is put back to what it was on entry and the
    exception goes on to the caller.  Only the database is restored. *)
Definition transaction {A : Type} (body : M A) : M A :=
  fun w =>
    match body w with
    | (Ok a, w') => (Ok a, w')
    | (Raised e, w') => (Raised e, set_db w' (w_db w))
    end.

(** Run a statement against the connection. *)
Definition execute (stmt : db -> result db) : M unit :=
  fun w =>
    match stmt (w_db w) with
    | Ok d => (Ok tt, set_db w d)
    | Raised e => (Raised e, w)
    end.

(** Run a query. *)
Definition fetch {A : Type} (q : db -> A) : M A := fun w => (Ok (q (w_db w)), w).

Definition uuid4 : M uuid :=
  fun w =>
    (Ok (w_uuid w (w_next w)),
     {| w_db := w_db w; w_uuid := w_uuid w; w_next := S (w_next w);
        w_clock := w_clock w; w_files := w_files w; w_glob := w_glob w;
        w_stdin := w_stdin w |}).

(** [CURRENT_TIMESTAMP], [datetime.now()] *)
Definition now : M timestamp := fun w => (Ok (w_clock w), w).

(** [input(prompt)]: the next line typed; [EOFError] at end of input. *)
Definition input : M string :=
  fun w =>
    match w_stdin w with
    | [] => (Raised EOFError, w)
    | line :: rest =>
        (Ok line,
         {| w_db := w_db w; w_uuid := w_uuid w; w_next := w_next w;
            w_clock := w_clock w; w_files := w_files w; w_glob := w_glob w;
            w_stdin := rest |})
    end.

(** [yaml.dump(log_data, open(path, 'w'))].  The write is taken to
    succeed: a log file that cannot be written is not modelled. *)
Definition write_log (path : string) (ld : log_data) : M unit :=
  fun w =>
    (Ok tt,
     {| w_db := w_db w; w_uuid := w_uuid w; w_next := w_next w;
        w_clock := w_clock w;
        w_files := fun p => if String.eqb p path then Some ld else w_files w p;
        w_glob := w_glob w; w_stdin := w_stdin w |}).

(** [yaml.safe_load(open(path))] under [try ... except]: [None] when the
    file cannot be read. *)
Definition fetch_log (path : string) : M (option log_data) :=
  fun w => (Ok (w_files w path), w).

(** [for x in l: body(x)] *)
Fixpoint for_each {A : Type} (l : list A) (body : A -> M unit) : M unit :=
  match l with
  | [] => ret tt
  | x :: r => body x ;;; for_each r body
  end.

End Eff.

(* ================================================================== *)
(** * logger-rollback.py *)

Module LoggerRollback.
Import Db Eff.
Local Open Scope eff_scope.

(** Rollback order (child to parent, respecting FK constraints). *)
Definition ROLLBACK_ORDER : list string :=
  [ "synthesis_results";
    "rules_effectiveness";
    "design_iterations";
    "design_patterns";
    "projects" ].

(** [str(n)] *)
Definition show_Z (z : Z) : string :=
  DecimalString.NilZero.string_of_int (Z.to_int z).

(** [f"{iteration}"] for an [Optional[int]] *)
Definition show_opt_Z (o : option Z) : string :=
  match o with Some z => show_Z z | None => "None" end.

(** Python truthiness of an [Optional[int]]. *)
Definition truthy_Z (o : option Z) : bool :=
  match o with Some z => negb (z =? 0) | None => false end.

(** ** Logger *)

(** [SELECT * FROM projects WHERE name = $1 ORDER BY created_at DESC
    LIMIT 1]: the newest row of that name (the earliest inserted one among
    equally new rows). *)
Definition newest_project (rows : list project_row) : option project_row :=
  fold_left
    (fun best r =>
       match best with
       | None => Some r
       | Some b => if p_created_at b <? p_created_at r then Some r else Some b
       end)
    rows None.

Definition select_project_by_name (name : string) (d : db) : option project_row :=
  newest_project (filter (fun r => String.eqb (p_name r) name) (projects d)).

(** [ORDER BY created_at DESC], as a stable insertion sort. *)
Fixpoint insert_desc (r : iteration_row) (l : list iteration_row) : list iteration_row :=
  match l with
  | [] => [r]
  | x :: t =>
      if di_created_at x <? di_created_at r then r :: l else x :: insert_desc r t
  end.

Definition order_by_created_desc (l : list iteration_row) : list iteration_row :=
  fold_right insert_desc [] l.

(** The two queries for the iterations of a project. *)
Definition select_iterations (project_id : uuid) (iteration : option Z)
    (d : db) : list iteration_row :=
  match iteration with
  | Some n =>
      if negb (n =? 0) then
        filter (fun r => String.eqb (di_project_id r) project_id
                         && (di_iteration_number r =? n))
               (design_iterations d)
      else
        order_by_created_desc
          (filter (fun r => String.eqb (di_project_id r) project_id)
                  (design_iterations d))
  | None =>
      order_by_created_desc
        (filter (fun r => String.eqb (di_project_id r) project_id)
                (design_iterations d))
  end.

Definition project_record (p : project_row) : log_record :=
  {| lr_table := "projects"; lr_id := p_id p;
     lr_note := "Project: " ++ p_name p |}.

Definition iteration_record (r : iteration_row) : log_record :=
  {| lr_table := "design_iterations"; lr_id := di_id r;
     lr_note :=
       "Iteration #" ++ show_Z (di_iteration_number r) ++ ": "
       ++ (if Text.truthy (di_approach_description r)
           then String.substring 0 50 (coalesce (di_approach_description r) EmptyString)
           else "N/A") |}.

Definition synthesis_record (s : synthesis_row) : log_record :=
  {| lr_table := "synthesis_results"; lr_id := sr_id s;
     lr_note := "Synthesis: II=" ++ show_Z (sr_ii_achieved s) |}.

Definition effectiveness_record (project_type : string)
    (r : effectiveness_row) : log_record :=
  {| lr_table := "rules_effectiveness"; lr_id := re_id r;
     lr_note := "Rule effectiveness for " ++ project_type |}.

(** The records collected by [logger_by_project] once the project and its
    iterations are found: the project, then each iteration followed by its
    synthesis results, then every effectiveness row of the project's
    type. *)
Definition collect_records (project : project_row)
    (iterations : list iteration_row) (d : db) : list log_record :=
  [project_record project]
  ++ flat_map
       (fun iter_row =>
          iteration_record iter_row
          :: map synthesis_record
               (filter (fun s => String.eqb (sr_iteration_id s) (di_id iter_row))
                       (synthesis_results d)))
       iterations
  ++ map (effectiveness_record (p_type project))
       (filter (fun r => String.eqb (re_project_type r) (p_type project))
               (rules_effectiveness d)).

Definition _check_duplicate_log (project_name : string) (iteration : option Z)
    : M bool :=
  let pattern :=
    if truthy_Z iteration
    then "rollback_" ++ project_name ++ "_iter" ++ show_opt_Z iteration ++ "_*.yaml"
    else "rollback_" ++ project_name ++ "_*.yaml" in
  fun w => (Ok (w_glob w pattern), w).

(** [_generate_log_file]; [strftime] is the decimal rendering of the clock.
    The answer is the path written, [None] when the operator declines. *)
Definition _generate_log_file (force : bool) (project_name project_type : string)
    (iteration : option Z) (records : list log_record) (notes : string)
    : M (option string) :=
  t <- now ;;
  let filename :=
    if truthy_Z iteration
    then "rollback_" ++ project_name ++ "_iter" ++ show_opt_Z iteration
         ++ "_" ++ show_Z t ++ ".yaml"
    else "rollback_" ++ project_name ++ "_" ++ show_Z t ++ ".yaml" in
  let log_path := "logs/" ++ filename in
  dup <- _check_duplicate_log project_name iteration ;;
  existing <- (fun w =>
                 (Ok (w_glob w ("rollback_" ++ project_name ++ "_iter"
                                ++ show_opt_Z iteration ++ "_*.yaml")), w)) ;;
  go <- (if dup && existing && negb force
         then (response <- input ;; ret (Text.affirmative response))
         else ret true) ;;
  if negb go then ret None
  else
    let log_data :=
      {| ld_project := project_name;
         ld_iteration := iteration;
         ld_project_type := project_type;
         ld_date := t;
         ld_timestamp := t;
         ld_operator := "logger-rollback.py";
         ld_notes := if Text.truthy (Some notes) then notes
                     else "Auto-generated log for " ++ project_name;
         ld_inserted_records := records;
         ld_rollback_status := Some "pending";
         ld_rollback_timestamp := None |} in
    write_log log_path log_data ;;;
    ret (Some log_path).

Definition logger_by_project (force : bool) (project_name : string)
    (iteration : option Z) : M (option string) :=
  project <- fetch (select_project_by_name project_name) ;;
  match project with
  | None => ret None
  | Some project =>
      iterations <- fetch (select_iterations (p_id project) iteration) ;;
      match iterations with
      | [] => ret None
      | _ :: _ =>
          records <- fetch (collect_records project iterations) ;;
          _generate_log_file force (p_name project) (p_type project)
            iteration records EmptyString
      end
  end.

(** ** Rollback *)

(** [_determine_order]: the declared order, restricted to the tables that
    occur among the records. *)
Definition _determine_order (records : list log_record) : list string :=
  let tables := map lr_table records in
  filter (fun t => existsb (String.eqb t) tables) ROLLBACK_ORDER.

(** [[r for r in records if r['table'] == table]] *)
Definition table_records (records : list log_record) (table : string)
    : list log_record :=
  filter (fun r => String.eqb (lr_table r) table) records.

(** [_dry_run_rollback]: what it prints, the order and then one
    [DELETE FROM table WHERE id = 'rec_id';  -- note] line per record. *)
Definition _dry_run_rollback (log_data : log_data)
    : list string * list (string * string * string) :=
  let records := ld_inserted_records log_data in
  let rollback_order := _determine_order records in
  (rollback_order,
   flat_map
     (fun table =>
        map (fun record => (table, lr_id record, lr_note record))
            (table_records records table))
     rollback_order).

(** [_update_log_status] *)
Definition _update_log_status (log_file : string) (log_data : log_data) : M unit :=
  t <- now ;;
  write_log log_file
    {| ld_project := ld_project log_data;
       ld_iteration := ld_iteration log_data;
       ld_project_type := ld_project_type log_data;
       ld_date := ld_date log_data;
       ld_timestamp := ld_timestamp log_data;
       ld_operator := ld_operator log_data;
       ld_notes := ld_notes log_data;
       ld_inserted_records := ld_inserted_records log_data;
       ld_rollback_status := Some "completed";
       ld_rollback_timestamp := Some t |}.

(** The body of the transaction in [_execute_rollback]. *)
Definition rollback_body (records : list log_record) : M unit :=
  let rollback_order := _determine_order records in
  for_each rollback_order
    (fun table =>
       for_each (table_records records table)
         (fun record => execute (exec_delete table (lr_id record)))).

(** [_execute_rollback] *)
Definition _execute_rollback (log_data : log_data) (log_file : string) : M bool :=
  let records := ld_inserted_records log_data in
  try_except
    (transaction (rollback_body records) ;;;
     _update_log_status log_file log_data ;;;
     ret true)
    (fun _ => ret false).

(** [log_data.get('rollback_status') == 'completed'] *)
Definition is_completed (log_data : log_data) : bool :=
  match ld_rollback_status log_data with
  | Some s => String.eqb s "completed"
  | None => false
  end.

(** [rollback].  [_display_summary] only prints and is left out. *)
Definition rollback (log_file : string) (dry_run : bool) : M bool :=
  loaded <- fetch_log log_file ;;
  match loaded with
  | None => ret false
  | Some log_data =>
      go <- (if is_completed log_data
             then (response <- input ;; ret (Text.affirmative response))
             else ret true) ;;
      if negb go then ret false
      else if dry_run then
        let _ := _dry_run_rollback log_data in ret true
      else
        response <- input ;;
        if negb (Text.affirmative response) then ret false
        else _execute_rollback log_data log_file
  end.

End LoggerRollback.

(* ================================================================== *)
(** * The import scripts *)

(** [find_matching_rule], the same text in both import scripts. *)
Module RuleMatcher.
Import Db Eff.
Local Open Scope eff_scope.

(** [SELECT ... FROM hls_rules WHERE rule_code = $1 LIMIT 1] *)
Definition select_rule_by_code (rule_code : string) (d : db) : option rule_row :=
  find (fun r => match r_rule_code r with
                 | Some c => String.eqb c rule_code
                 | None => false
                 end)
       (hls_rules d).

(** [SELECT ... FROM hls_rules WHERE LOWER(rule_text) = LOWER($1) LIMIT 1] *)
Definition select_rule_by_lower_text (description : string) (d : db)
    : option rule_row :=
  find (fun r => String.eqb (Text.lower (r_rule_text r)) (Text.lower description))
       (hls_rules d).

Definition find_matching_rule (rule_code : option string)
    (keywords : option (list string)) (description : option string)
    : M (option rule_row) :=
  by_code <- (if Text.truthy rule_code
              then fetch (select_rule_by_code (coalesce rule_code EmptyString))
              else ret None) ;;
  match by_code with
  | Some rule => ret (Some rule)
  | None =>
      by_text <- (if Text.truthy description
                  then fetch (select_rule_by_lower_text (coalesce description EmptyString))
                  else ret None) ;;
      match by_text with
      | Some rule => ret (Some rule)
      | None => ret None
      end
  end.

End RuleMatcher.

(** [hls-knowledge-base/import_fir128_data.py]: statistics accumulate. *)
Module ImportKb.
Import Db Eff.
Local Open Scope eff_scope.

Definition record_rule_effectiveness (rule_id : uuid) (project_type : string)
    (success : bool) (ii_improvement : Q) : M (uuid * bool) :=
  existing <- fetch (select_effectiveness rule_id project_type) ;;
  match existing with
  | Some existing =>
      let new_times := re_times_applied existing + 1 in
      let new_success := re_success_count existing + (if success then 1 else 0) in
      let old_avg := coalesce (re_avg_ii_improvement existing) 0%Q in
      let old_success := re_success_count existing in
      let old_total := (old_avg * inject_Z old_success)%Q in
      let new_total := (old_total + (if success then ii_improvement else 0))%Q in
      let new_avg := if 0 <? new_success
                     then (new_total / inject_Z new_success)%Q
                     else 0%Q in
      t <- now ;;
      execute (fun d => Ok (update_effectiveness new_times new_success
                              (Some new_avg) t (re_id existing) d)) ;;;
      ret (re_id existing, false)
  | None =>
      effectiveness_id <- uuid4 ;;
      t <- now ;;
      execute (insert_effectiveness
                 {| re_id := effectiveness_id; re_rule_id := rule_id;
                    re_project_type := project_type;
                    re_times_applied := 1;
                    re_success_count := if success then 1 else 0;
                    re_avg_ii_improvement :=
                      Some (if success then ii_improvement else 0%Q);
                    re_last_applied_at := t |}) ;;;
      ret (effectiveness_id, true)
  end.

End ImportKb.

(** [examples/fir128/import_fir128_data.py]: statistics are overwritten. *)
Module ImportExample.
Import Db Eff.
Local Open Scope eff_scope.

Definition record_rule_effectiveness (rule_id : uuid) (project_type : string)
    (success : bool) (ii_improvement : Q) : M (uuid * bool) :=
  existing <- fetch (select_effectiveness rule_id project_type) ;;
  match existing with
  | Some existing =>
      t <- now ;;
      execute (fun d => Ok (update_effectiveness 1
                              (if success then 1 else 0)
                              (Some (if success then ii_improvement else 0%Q))
                              t (re_id existing) d)) ;;;
      ret (re_id existing, false)
  | None =>
      effectiveness_id <- uuid4 ;;
      t <- now ;;
      execute (insert_effectiveness
                 {| re_id := effectiveness_id; re_rule_id := rule_id;
                    re_project_type := project_type;
                    re_times_applied := 1;
                    re_success_count := if success then 1 else 0;
                    re_avg_ii_improvement :=
                      Some (if success then ii_improvement else 0%Q);
                    re_last_applied_at := t |}) ;;;
      ret (effectiveness_id, true)
  end.

End ImportExample.

(* ================================================================== *)
(** * main.py *)

Module Main.
Import Db Eff.
Local Open Scope eff_scope.

Record DesignIterationCreate := {
  project_id : uuid;
  approach_description : string
}.

Record SynthesisResultData := {
  ii_achieved : Z
}.

Record RuleEffectivenessUpdate := {
  rule_code : option string;
  rule_text : option string;
  project_type : string;
  was_successful : bool;
  ii_improvement : option Q
}.

Record RuleApplication := {
  ra_rule_code : option string;
  ra_rule_keywords : option (list string);
  ra_rule_description : option string;
  ra_previous_ii : Z;
  ra_current_ii : Z;
  ra_success : bool;
  ra_category : option string
}.

Record CompleteIterationCreate := {
  c_project_id : uuid;
  c_project_name : option string;
  c_project_type : string;
  c_iteration : DesignIterationCreate;
  c_synthesis_result : SynthesisResultData;
  c_rules_applied : list RuleApplication
}.

(** ** [start_design_iteration] *)


(** ** [update_rule_effectiveness] *)

(** [SELECT id FROM hls_rules WHERE rule_text = $1] *)
Definition select_rule_by_text (text : string) (d : db) : option rule_row :=
  find (fun r => String.eqb (r_rule_text r) text) (hls_rules d).

(** [INSERT INTO rules_effectiveness (rule_id, project_type, times_applied,
    success_count, avg_ii_improvement) VALUES ($1, $2, 1, $3, $4)
    ON CONFLICT (rule_id, project_type) DO UPDATE SET ...].  The columns
    left out of the INSERT take the identifier and the time handed in. *)
Definition upsert_effectiveness (id : uuid) (t : timestamp) (rule_id : uuid)
    (project_type : string) (p3 : Z) (p4 : option Q) (d : db) : result db :=
  match select_effectiveness rule_id project_type d with
  | None =>
      insert_effectiveness
        {| re_id := id; re_rule_id := rule_id; re_project_type := project_type;
           re_times_applied := 1; re_success_count := p3;
           re_avg_ii_improvement := p4; re_last_applied_at := t |} d
  | Some _ =>
      Ok (with_rules_effectiveness d
            (map (fun r =>
                    if String.eqb (re_rule_id r) rule_id
                       && String.eqb (re_project_type r) project_type
                    then {| re_id := re_id r; re_rule_id := re_rule_id r;
                            re_project_type := re_project_type r;
                            re_times_applied := re_times_applied r + 1;
                            re_success_count := re_success_count r + p3;
                            re_avg_ii_improvement :=
                              match p4 with
                              | Some x =>
                                  Some ((coalesce (re_avg_ii_improvement r) 0
                                         * inject_Z (re_times_applied r) + x)
                                        / inject_Z (re_times_applied r + 1))%Q
                              | None => re_avg_ii_improvement r
                              end;
                            re_last_applied_at := re_last_applied_at r |}
                    else r)
                 (rules_effectiveness d)))
  end.

(** The identifier and the time that the column defaults give to an
    inserted row are drawn from the world before the statement runs. *)
Definition update_rule_effectiveness (update : RuleEffectivenessUpdate)
    : M (uuid * bool) :=
  rule_id <- (if Text.truthy (rule_code update)
              then fetch (fun d => option_map r_id
                                     (RuleMatcher.select_rule_by_code
                                        (coalesce (rule_code update) EmptyString) d))
              else ret None) ;;
  rule_id <- (match rule_id with
              | Some _ => ret rule_id
              | None =>
                  if Text.truthy (rule_text update)
                  then fetch (fun d => option_map r_id
                                         (select_rule_by_text
                                            (coalesce (rule_text update) EmptyString) d))
                  else ret None
              end) ;;
  match rule_id with
  | None => raise (HTTPException 404)
  | Some rule_id =>
      id <- uuid4 ;;
      t <- now ;;
      execute (upsert_effectiveness id t rule_id (project_type update)
                 (if was_successful update then 1 else 0)
                 (ii_improvement update)) ;;;
      ret (rule_id, was_successful update)
  end.

(** ** [record_complete_iteration] *)

(** [SELECT ... FROM hls_rules WHERE LOWER(rule_text) LIKE $1
    ORDER BY priority DESC LIMIT 1] with [$1 = f"%{keyword.lower()}%"]: the
    matching rule of highest priority (the earliest one among equals). *)
Definition highest_priority (rows : list rule_row) : option rule_row :=
  fold_left
    (fun best r =>
       match best with
       | None => Some r
       | Some b => if r_priority b <? r_priority r then Some r else Some b
       end)
    rows None.

Definition select_rule_like (keyword : string) (d : db) : option rule_row :=
  highest_priority
    (filter (fun r => Text.like ("%" ++ Text.lower keyword ++ "%")
                                (Text.lower (r_rule_text r)))
            (hls_rules d)).

(** [for keyword in rule_app.rule_keywords: rule = ...; if rule: break] *)
Fixpoint match_keywords (keywords : list string) (d : db) : option rule_row :=
  match keywords with
  | [] => None
  | keyword :: rest =>
      match select_rule_like keyword d with
      | Some rule => Some rule
      | None => match_keywords rest d
      end
  end.

(** Iterating over [rule_app.rule_keywords] when the field is [None] is a
    [TypeError]. *)
Definition lookup_rule (rule_app : RuleApplication) : M (option rule_row) :=
  match ra_rule_keywords rule_app with
  | None => raise TypeError
  | Some keywords => fetch (match_keywords keywords)
  end.

(** One round of the loop over [data.rules_applied]; the answer says
    whether an effect was recorded. *)
Definition record_rule_application (project_type : string)
    (rule_app : RuleApplication) : M bool :=
  rule <- lookup_rule rule_app ;;
  match rule with
  | None => ret false
  | Some rule =>
      let ii_improvement := ra_previous_ii rule_app - ra_current_ii rule_app in
      let success := ra_success rule_app && (0 <? ii_improvement) in
      existing <- fetch (select_effectiveness (r_id rule) project_type) ;;
      match existing with
      | Some existing =>
          let new_times := re_times_applied existing + 1 in
          let new_success :=
            re_success_count existing + (if success then 1 else 0) in
          let old_avg := coalesce (re_avg_ii_improvement existing) 0%Q in
          let old_total := (old_avg * inject_Z (re_success_count existing))%Q in
          let new_total :=
            (old_total + inject_Z (if success then ii_improvement else 0))%Q in
          let new_avg := if 0 <? new_success
                         then (new_total / inject_Z new_success)%Q
                         else 0%Q in
          t <- now ;;
          execute (fun d => Ok (update_effectiveness new_times new_success
                                  (Some new_avg) t (re_id existing) d)) ;;;
          ret true
      | None =>
          id <- uuid4 ;;
          t <- now ;;
          execute (insert_effectiveness
                     {| re_id := id; re_rule_id := r_id rule;
                        re_project_type := project_type;
                        re_times_applied := 1;
                        re_success_count := if success then 1 else 0;
                        re_avg_ii_improvement :=
                          Some (inject_Z (if success then ii_improvement else 0));
                        re_last_applied_at := t |}) ;;;
          ret true
      end
  end.

Fixpoint record_rules (project_type : string) (rules_applied : list RuleApplication)
    (rules_recorded : Z) : M Z :=
  match rules_applied with
  | [] => ret rules_recorded
  | rule_app :: rest =>
      recorded <- record_rule_application project_type rule_app ;;
      record_rules project_type rest
        (if recorded then rules_recorded + 1 else rules_recorded)
  end.

(** The response: iteration id, iteration number, project id, number of
    rule effects recorded. *)
Definition record_complete_iteration (data : CompleteIterationCreate)
    : M (uuid * Z * uuid * Z) :=
  transaction
    (project_exists <- fetch (fun d =>
        existsb (fun p => String.eqb (p_id p) (c_project_id data)) (projects d)) ;;
     (if negb project_exists then
        t <- now ;;
        execute (insert_project
                   {| p_id := c_project_id data;
                      p_name := if Text.truthy (c_project_name data)
                                then coalesce (c_project_name data) EmptyString
                                else Text.upper (c_project_type data) ++ "_Design";
                      p_type := c_project_type data;
                      p_description :=
                        Some ("Auto-created project for "
                              ++ c_project_type data ++ " design");
                      p_target_device := None;
                      p_created_at := t |})
      else ret tt) ;;;
     iteration_num <- fetch (next_iteration_number (c_project_id data)) ;;
     iteration_id <- uuid4 ;;
     t <- now ;;
     execute (insert_iteration
                {| di_id := iteration_id;
                   di_project_id := c_project_id data;
                   di_iteration_number := iteration_num;
                   di_approach_description :=
                     Some (approach_description (c_iteration data));
                   di_created_at := t |}) ;;;
     result_id <- uuid4 ;;
     execute (insert_synthesis
                {| sr_id := result_id; sr_iteration_id := iteration_id;
                   sr_ii_achieved := ii_achieved (c_synthesis_result data);
                   sr_created_at := t |}) ;;;
     rules_recorded <- record_rules (c_project_type data) (c_rules_applied data) 0 ;;
     ret (iteration_id, iteration_num, c_project_id data, rules_recorded)).

End Main.

(* ================================================================== *)
(** * A concrete database: project FIR128 *)

(** Project "FIR128" with iterations 1, 2, 3 and synthesis results
    II = 264, 134, 128; two catalogued rules; one effectiveness row. *)
Module Fir128.
Import Db Eff.

Definition project : project_row :=
  {| p_id := "proj-fir128"; p_name := "FIR128"; p_type := "fir";
     p_description := Some "128-tap FIR filter";
     p_target_device := Some "xc7z020clg484-1"; p_created_at := 100 |}.

Definition iteration (id : uuid) (n : Z) (t : timestamp) : iteration_row :=
  {| di_id := id; di_project_id := "proj-fir128"; di_iteration_number := n;
     di_approach_description := Some "baseline"; di_created_at := t |}.

Definition synthesis (id iter : uuid) (ii : Z) (t : timestamp) : synthesis_row :=
  {| sr_id := id; sr_iteration_id := iter; sr_ii_achieved := ii;
     sr_created_at := t |}.

Definition rule_P001 : rule_row :=
  {| r_id := "rule-p001"; r_rule_code := Some "P001";
     r_rule_text := "Use PIPELINE pragma to reach II=1 in the inner loop";
     r_category := Some "pipeline"; r_priority := 10 |}.

Definition rule_R002 : rule_row :=
  {| r_id := "rule-r002"; r_rule_code := Some "R002";
     r_rule_text := "Partition arrays completely to remove port conflicts";
     r_category := Some "memory"; r_priority := 8 |}.

Definition eff_P001 : effectiveness_row :=
  {| re_id := "eff-p001-fir"; re_rule_id := "rule-p001";
     re_project_type := "fir"; re_times_applied := 2; re_success_count := 2;
     re_avg_ii_improvement := Some (68 # 1); re_last_applied_at := 130 |}.

Definition db0 : db :=
  {| projects := [project];
     design_iterations :=
       [iteration "iter-1" 1 110; iteration "iter-2" 2 120; iteration "iter-3" 3 130];
     synthesis_results :=
       [synthesis "syn-1" "iter-1" 264 111; synthesis "syn-2" "iter-2" 134 121;
        synthesis "syn-3" "iter-3" 128 131];
     hls_rules := [rule_P001; rule_R002];
     rules_effectiveness := [eff_P001];
     design_patterns := [] |}.

(** The same catalogue with no project and no statistics yet. *)
Definition db_rules_only : db :=
  {| projects := []; design_iterations := []; synthesis_results := [];
     hls_rules := [rule_P001; rule_R002]; rules_effectiveness := [];
     design_patterns := [] |}.

Definition world_of (d : db) (stdin : list string) : world :=
  {| w_db := d;
     w_uuid := fun n => "uuid-" ++ LoggerRollback.show_Z (Z.of_nat n);
     w_next := 0; w_clock := 1000;
     w_files := fun _ => None; w_glob := fun _ => false;
     w_stdin := stdin |}.

(** A log as the operator may have it on disk. *)
Definition log_of (records : list log_record) (status : string) : log_data :=
  {| ld_project := "FIR128"; ld_iteration := Some 3; ld_project_type := "fir";
     ld_date := 900; ld_timestamp := 900; ld_operator := "logger-rollback.py";
     ld_notes := "Auto-generated log for FIR128";
     ld_inserted_records := records;
     ld_rollback_status := Some status; ld_rollback_timestamp := None |}.

Definition entry (table id : string) : log_record :=
  {| lr_table := table; lr_id := id; lr_note := EmptyString |}.

Definition with_file (w : world) (path : string) (ld : log_data) : world :=
  {| w_db := w_db w; w_uuid := w_uuid w; w_next := w_next w;
     w_clock := w_clock w;
     w_files := fun p => if String.eqb p path then Some ld else w_files w p;
     w_glob := w_glob w; w_stdin := w_stdin w |}.

End Fir128.

(* ================================================================== *)
(** * logger-rollback.py: the recent-imports logger and the summaries *)

Module LoggerRecent.
Import Db Eff LoggerRollback.
Local Open Scope eff_scope.

(** Tables that can be rolled back (hls_rules is excluded). *)
Definition ROLLBACK_TABLES : list string :=
  [ "design_iterations";
    "design_patterns";
    "projects";
    "rules_effectiveness";
    "synthesis_results" ].

(** [ORDER BY <time column> DESC], as an insertion sort.  SQL leaves the
    order of rows with equal keys open; here the later row comes first. *)
Fixpoint insert_by_desc {A : Type} (key : A -> Z) (r : A) (l : list A) : list A :=
  match l with
  | [] => [r]
  | x :: t => if key x <? key r then r :: l else x :: insert_by_desc key r t
  end.

Definition sort_by_desc {A : Type} (key : A -> Z) (l : list A) : list A :=
  fold_right (insert_by_desc key) [] l.

(** [SELECT * FROM <table> WHERE <time column> > $1
    ORDER BY <time column> DESC] *)
Definition select_recent {A : Type} (key : A -> Z) (cutoff : timestamp)
    (rows : list A) : list A :=
  sort_by_desc key (filter (fun r => cutoff <? key r) rows).

(** The record of one recent row: table, [str(row['id'])] and the note of
    [_generate_note]. *)
Definition recent_records (table : string) (cutoff : timestamp) (d : db)
    : list log_record :=
  if String.eqb table "projects" then
    map (fun r => {| lr_table := table; lr_id := p_id r;
                     lr_note := "Project: " ++ p_name r |})
        (select_recent p_created_at cutoff (projects d))
  else if String.eqb table "design_iterations" then
    map (fun r => {| lr_table := table; lr_id := di_id r;
                     lr_note := "Iteration #" ++ show_Z (di_iteration_number r) |})
        (select_recent di_created_at cutoff (design_iterations d))
  else if String.eqb table "synthesis_results" then
    map (fun r => {| lr_table := table; lr_id := sr_id r;
                     lr_note := "Synthesis: II=" ++ show_Z (sr_ii_achieved r) |})
        (select_recent sr_created_at cutoff (synthesis_results d))
  else if String.eqb table "rules_effectiveness" then
    map (fun r => {| lr_table := table; lr_id := re_id r;
                     lr_note := "Rule effectiveness: " ++ re_project_type r |})
        (select_recent re_last_applied_at cutoff (rules_effectiveness d))
  else if String.eqb table "design_patterns" then
    map (fun r => {| lr_table := table; lr_id := dp_id r;
                     lr_note := "Pattern: " ++ dp_name r |})
        (select_recent dp_created_at cutoff (design_patterns d))
  else [].

(** [logger_recent].  The clock counts seconds and [hours] is a whole
    number of hours (the command line also takes fractions, which are not
    modelled); [f"{hours}"] prints the float, so 1 reads "1.0".  The
    queries of the modelled tables cannot fail, so the [except] branch that
    skips a table is left out. *)
Definition logger_recent (force : bool) (hours : Z) : M (option string) :=
  t <- now ;;
  let cutoff_time := t - 3600 * hours in
  records <- fetch (fun d =>
               flat_map (fun table => recent_records table cutoff_time d)
                        ROLLBACK_TABLES) ;;
  match records with
  | [] => ret None
  | _ :: _ =>
      _generate_log_file force "RECENT" "mixed" None records
        ("Recent imports from last " ++ show_Z hours ++ ".0 hour(s)")
  end.

(** The per-table counts printed by [_display_summary] and by
    [_generate_log_file]: a dictionary in insertion order,
    [table_counts[table] = table_counts.get(table, 0) + 1]. *)
Fixpoint bump (table : string) (counts : list (string * Z)) : list (string * Z) :=
  match counts with
  | [] => [(table, 1)]
  | (k, c) :: rest =>
      if String.eqb k table then (k, c + 1) :: rest
      else (k, c) :: bump table rest
  end.

Definition table_counts (records : list log_record) : list (string * Z) :=
  fold_left (fun counts record => bump (lr_table record) counts) records [].

End LoggerRecent.

(* ================================================================== *)
(** * main.py: the other endpoints *)

Module MainEndpoints.
Import Db Eff.
Local Open Scope eff_scope.

Record ProjectCreate := {
  pc_name : string;
  pc_type : string;
  pc_description : option string;
  pc_target_device : option string
}.


(** [create_project]: the answer is the new identifier, the name and the
    type.  [created_at] is not among the inserted columns and takes its
    default, the time of the statement. *)
Definition create_project (project : ProjectCreate) : M (uuid * string * string) :=
  project_id <- uuid4 ;;
  t <- now ;;
  execute (insert_project
             {| p_id := project_id; p_name := pc_name project;
                p_type := pc_type project;
                p_description := pc_description project;
                p_target_device := pc_target_device project;
                p_created_at := t |}) ;;;
  ret (project_id, pc_name project, pc_type project).

(** [get_project] *)
Definition get_project (project_id : uuid) : M project_row :=
  project <- fetch (fun d =>
               find (fun p => String.eqb (p_id p) project_id) (projects d)) ;;
  match project with
  | None => raise (HTTPException 404)
  | Some project => ret project
  end.


(** [ORDER BY <key> ASC], as an insertion sort.  SQL leaves the order of
    rows with equal keys open; here the later row comes first. *)
Fixpoint insert_by_asc {A : Type} (key : A -> Z) (r : A) (l : list A) : list A :=
  match l with
  | [] => [r]
  | x :: t => if key r <? key x then r :: l else x :: insert_by_asc key r t
  end.

Definition sort_by_asc {A : Type} (key : A -> Z) (l : list A) : list A :=
  fold_right (insert_by_asc key) [] l.

(** A row of the query of [get_project_progress]: an iteration with the II
    of one of its synthesis results, or with NULL when it has none. *)
Record progress_row := {
  pr_iteration_number : Z;
  pr_approach_description : option string;
  pr_ii_achieved : option Z;
  pr_created_at : timestamp
}.

(** [FROM design_iterations di LEFT JOIN synthesis_results sr
    ON di.id = sr.iteration_id WHERE di.project_id = $1
    ORDER BY di.iteration_number ASC] *)
Definition select_progress (project_id : uuid) (d : db) : list progress_row :=
  sort_by_asc pr_iteration_number
    (flat_map
       (fun di =>
          let row ii :=
            {| pr_iteration_number := di_iteration_number di;
               pr_approach_description := di_approach_description di;
               pr_ii_achieved := ii;
               pr_created_at := di_created_at di |} in
          match filter (fun sr => String.eqb (sr_iteration_id sr) (di_id di))
                       (synthesis_results d) with
          | [] => [row None]
          | srs => map (fun sr => row (Some (sr_ii_achieved sr))) srs
          end)
       (filter (fun di => String.eqb (di_project_id di) project_id)
               (design_iterations d))).

(** Python truthiness of a nullable integer. *)
Definition truthy_ii (o : option Z) : bool :=
  match o with Some z => negb (z =? 0) | None => false end.

(** The loop over [enumerate(iterations)]: each item with its
    [ii_improvement], where it has one. *)
Fixpoint annotate (previous : option progress_row) (iterations : list progress_row)
    : list (progress_row * option Z) :=
  match iterations with
  | [] => []
  | iter :: rest =>
      (iter,
       match previous with
       | None => None
       | Some prev =>
           if truthy_ii (pr_ii_achieved iter) && truthy_ii (pr_ii_achieved prev)
           then Some (coalesce (pr_ii_achieved prev) 0
                      - coalesce (pr_ii_achieved iter) 0)
           else None
       end) :: annotate (Some iter) rest
  end.

(** [get_project_progress]: project id, [total_iterations], items. *)
Definition get_project_progress (project_id : uuid)
    : M (uuid * Z * list (progress_row * option Z)) :=
  iterations <- fetch (select_progress project_id) ;;
  match iterations with
  | [] => raise (HTTPException 404)
  | _ :: _ =>
      ret (project_id, Z.of_nat (List.length iterations), annotate None iterations)
  end.

(** A row of the query of [find_similar_designs]. *)
Record design := {
  ds_iteration : iteration_row;
  ds_project : project_row;
  ds_synthesis : synthesis_row
}.

(** [FROM design_iterations di JOIN projects p ON di.project_id = p.id
    JOIN synthesis_results sr ON di.id = sr.iteration_id] *)
Definition join_designs (d : db) : list design :=
  flat_map
    (fun di =>
       flat_map
         (fun p =>
            map (fun sr => {| ds_iteration := di; ds_project := p;
                              ds_synthesis := sr |})
                (filter (fun sr => String.eqb (di_id di) (sr_iteration_id sr))
                        (synthesis_results d)))
         (filter (fun p => String.eqb (di_project_id di) (p_id p)) (projects d)))
    (design_iterations d).

(** [find_similar_designs]: [WHERE p.type = $1] and, with a target,
    [sr.ii_achieved <= $2]; [ORDER BY sr.ii_achieved ASC LIMIT n].  The
    column [ii_achieved] is never NULL in the rows modelled, and the
    request validation admits a [limit] from 1 to 20 only. *)
Definition find_similar_designs (project_type : string) (target_ii : option Z)
    (limit : Z) : M (list design) :=
  fetch (fun d =>
    firstn (Z.to_nat limit)
      (sort_by_asc (fun x => sr_ii_achieved (ds_synthesis x))
         (filter
            (fun x =>
               String.eqb (p_type (ds_project x)) project_type
               && match target_ii with
                  | Some target => sr_ii_achieved (ds_synthesis x) <=? target
                  | None => true
                  end)
            (join_designs d)))).

(** ** [get_effective_rules] *)

(** A row of the answer: the rule, [times_applied], [success_count],
    [success_rate] and [avg_ii_improvement]. *)
Record effective_rule := {
  er_rule : rule_row;
  er_times_applied : Z;
  er_success_count : Z;
  er_success_rate : Q;
  er_avg_ii_improvement : option Q
}.

(** [FROM hls_rules r LEFT JOIN rules_effectiveness re ON r.id = re.rule_id]:
    a rule with each of its effectiveness rows, or once with NULLs when it
    has none. *)
Definition left_join_effectiveness (d : db)
    : list (rule_row * option effectiveness_row) :=
  flat_map
    (fun r =>
       match filter (fun re => String.eqb (r_id r) (re_rule_id re))
                    (rules_effectiveness d) with
       | [] => [(r, None)]
       | res => map (fun re => (r, Some re)) res
       end)
    (hls_rules d).

(** The select list of the inner query: [COALESCE(re.times_applied, 0)],
    [COALESCE(re.success_count, 0)], [CASE WHEN COALESCE(re.times_applied,
    0) > 0 THEN CAST(COALESCE(re.success_count, 0) AS FLOAT) /
    re.times_applied ELSE 0 END], [re.avg_ii_improvement]. *)
Definition effective_row (r : rule_row) (re : option effectiveness_row)
    : effective_rule :=
  let times_applied := coalesce (option_map re_times_applied re) 0 in
  let success_count := coalesce (option_map re_success_count re) 0 in
  {| er_rule := r;
     er_times_applied := times_applied;
     er_success_count := success_count;
     er_success_rate :=
       if 0 <? times_applied
       then (inject_Z success_count / inject_Z times_applied)%Q
       else 0%Q;
     er_avg_ii_improvement :=
       match re with
       | Some e => re_avg_ii_improvement e
       | None => None
       end |}.

(** [column = $n] on a nullable column: NULL is not equal to anything. *)
Definition sql_eq (column : option string) (value : string) : bool :=
  match column with
  | Some c => String.eqb c value
  | None => false
  end.

(** [ORDER BY success_rate DESC, priority DESC]: whether [a] goes before
    [b]. *)
Definition ranks_before (a b : effective_rule) : bool :=
  negb (Qle_bool (er_success_rate a) (er_success_rate b))
  || (Qeq_bool (er_success_rate a) (er_success_rate b)
      && (r_priority (er_rule b) <? r_priority (er_rule a))).

Fixpoint insert_by {A : Type} (before : A -> A -> bool) (r : A) (l : list A)
    : list A :=
  match l with
  | [] => [r]
  | x :: t => if before r x then r :: l else x :: insert_by before r t
  end.

Definition sort_by {A : Type} (before : A -> A -> bool) (l : list A) : list A :=
  fold_right (insert_by before) [] l.

Section EffectiveRules.

(** The column [rule_type] of [hls_rules] ('official' or 'user_prompt'),
    which [rule_row] does not carry, as a function of the row. *)
Variable r_rule_type : rule_row -> option string.

(** The conditions that the filters add to the inner query:
    [(re.project_type = $n OR re.project_type IS NULL)],
    [r.category = $n], [r.rule_type = $n], each only for a filter that is
    given and not empty. *)
Definition conditions (project_type category rule_type : option string)
    (row : rule_row * option effectiveness_row) : bool :=
  (if Text.truthy project_type
   then match snd row with
        | Some re => String.eqb (re_project_type re)
                       (coalesce project_type EmptyString)
        | None => true
        end
   else true)
  && (if Text.truthy category
      then sql_eq (r_category (fst row)) (coalesce category EmptyString)
      else true)
  && (if Text.truthy rule_type
      then sql_eq (r_rule_type (fst row)) (coalesce rule_type EmptyString)
      else true).

Definition get_effective_rules (project_type category rule_type : option string)
    (min_success_rate : Q) : M (list effective_rule) :=
  fetch (fun d =>
    sort_by ranks_before
      (filter (fun x => Qle_bool min_success_rate (er_success_rate x))
         (map (fun row => effective_row (fst row) (snd row))
            (filter (conditions project_type category rule_type)
               (left_join_effectiveness d))))).

End EffectiveRules.

End MainEndpoints.

(* ================================================================== *)
(** * logger-rollback.py: the command line *)

Module RollbackCli.

(** [s.replace(old, new)] for a non-empty [old], as in all uses here: the
    occurrences of [old] are found from left to right without overlap.
    [skip] counts the characters of an occurrence still to be passed
    over. *)
Fixpoint replace_from (old new : string) (skip : nat) (s : string) : string :=
  match s with
  | EmptyString => EmptyString
  | String c t =>
      match skip with
      | S k => replace_from old new k t
      | O =>
          if String.prefix old s
          then new ++ replace_from old new (String.length old - 1) t
          else String c (replace_from old new 0 t)
      end
  end.

Definition replace (old new s : string) : string := replace_from old new 0 s.

(** [hours_str = args.recent.lower().replace('h', '').replace('hour', '')
    .replace('hours', '')], the text handed to [float()]. *)
Definition hours_str (recent : string) : string :=
  replace "hours" EmptyString
    (replace "hour" EmptyString
       (replace "h" EmptyString (Text.lower recent))).

End RollbackCli.

(* ================================================================== *)
(** * Properties of the rollback tool *)

Module RollbackProps.
Import Db Eff LoggerRollback.
Local Open Scope eff_scope.



Definition declared (t : string) : bool := existsb (String.eqb t) ROLLBACK_ORDER.

(** The records in the order in which the rollback handles them: table by
    table along the computed order, each table's records as the log lists
    them. *)
Definition deletion_sequence (records : list log_record) : list log_record :=
  flat_map (table_records records) (_determine_order records).

(** The statement run for one record. *)
Definition delete_record (r : log_record) : M unit :=
  execute (exec_delete (lr_table r) (lr_id r)).

Lemma existsb_eqb_In (t : string) (l : list string) :
  existsb (String.eqb t) l = true <-> In t l.
Proof.
  rewrite existsb_exists. split.
  - intros [x [Hx He]]. apply String.eqb_eq in He. now subst.
  - intros H. exists t. split; [assumption | apply String.eqb_refl].
Qed.

Lemma table_records_In (records : list log_record) (t : string) (r : log_record) :
  In r (table_records records t) <-> In r records /\ lr_table r = t.
Proof.
  unfold table_records. rewrite filter_In, String.eqb_eq. tauto.
Qed.

Lemma table_records_absent (records : list log_record) (t : string) :
  existsb (String.eqb t) (map lr_table records) = false ->
  table_records records t = [].
Proof.
  intros H. unfold table_records.
  induction records as [|r rs IH]; simpl in *; [reflexivity|].
  apply orb_false_iff in H. destruct H as [H1 H2].
  rewrite String.eqb_sym, H1. auto.
Qed.

Lemma flat_map_filter_nil {A B : Type} (f : A -> list B) (p : A -> bool) (l : list A) :
  (forall x, p x = false -> f x = []) ->
  flat_map f (filter p l) = flat_map f l.
Proof.
  intros H. induction l as [|x l IH]; simpl; [reflexivity|].
  destruct (p x) eqn:E; simpl; rewrite IH; [reflexivity|].
  now rewrite (H x E).
Qed.

(** The sequence written out: the five tables in the declared order. *)
Lemma deletion_sequence_unfold (records : list log_record) :
  deletion_sequence records =
    (table_records records "synthesis_results"
     ++ table_records records "rules_effectiveness"
     ++ table_records records "design_iterations"
     ++ table_records records "design_patterns"
     ++ table_records records "projects")%list.
Proof.
  unfold deletion_sequence, _determine_order.
  rewrite flat_map_filter_nil by (intros x; apply table_records_absent).
  simpl. now rewrite app_nil_r.
Qed.





(** ** Loops *)

Lemma for_each_app {A : Type} (l1 l2 : list A) (body : A -> M unit) (w : world) :
  for_each (l1 ++ l2) body w = (for_each l1 body ;;; for_each l2 body) w.
Proof.
  revert w. induction l1 as [|x l1 IH]; intros w; simpl.
  - reflexivity.
  - unfold bind in *. destruct (body x w) as [[[]|e] w1]; [|reflexivity].
    apply IH.
Qed.

Lemma for_each_ext {A : Type} (l : list A) (f g : A -> M unit) :
  (forall x, In x l -> forall w, f x w = g x w) ->
  forall w, for_each l f w = for_each l g w.
Proof.
  induction l as [|x l IH]; intros H w; simpl; [reflexivity|].
  unfold bind. rewrite (H x (or_introl eq_refl) w).
  destruct (g x w) as [[[]|e] w1]; [|reflexivity].
  apply IH. intros y Hy. apply H. now right.
Qed.

Lemma for_each_flat_map {A B : Type} (f : A -> list B) (l : list A)
    (body : B -> M unit) (w : world) :
  for_each l (fun x => for_each (f x) body) w = for_each (flat_map f l) body w.
Proof.
  revert w. induction l as [|x l IH]; intros w; simpl; [reflexivity|].
  rewrite for_each_app. unfold bind.
  destruct (for_each (f x) body w) as [[[]|e] w1]; [apply IH | reflexivity].
Qed.

(** The nested loops of [_execute_rollback] run [delete_record] along the
    deletion sequence. *)
Lemma rollback_body_sequence (records : list log_record) (w : world) :
  rollback_body records w = for_each (deletion_sequence records) delete_record w.
Proof.
  unfold rollback_body, deletion_sequence.
  rewrite <- for_each_flat_map.
  apply for_each_ext. intros t _ w'.
  apply for_each_ext. intros r Hr w''.
  apply table_records_In in Hr. destruct Hr as [_ Hr].
  unfold delete_record. now rewrite Hr.
Qed.



(** ** The computed order *)

Lemma determine_order_In (records : list log_record) (t : string) :
  In t (_determine_order records) <->
  In t ROLLBACK_ORDER /\ In t (map lr_table records).
Proof.
  unfold _determine_order. rewrite filter_In, existsb_eqb_In. tauto.
Qed.




Lemma table_records_app (l1 l2 : list log_record) (t : string) :
  table_records (l1 ++ l2) t = (table_records l1 t ++ table_records l2 t)%list.
Proof. apply filter_app. Qed.



(** ** Atomicity *)

Lemma set_db_same (w : world) : set_db w (w_db w) = w.
Proof. now destruct w. Qed.

Lemma set_db_set_db (w : world) (d d' : db) : set_db (set_db w d) d' = set_db w d'.
Proof. reflexivity. Qed.

(** Deletions touch nothing but the database. *)
Lemma for_each_delete_frame (l : list log_record) (w w' : world) (res : result unit) :
  for_each l delete_record w = (res, w') -> w' = set_db w (w_db w').
Proof.
  revert w. induction l as [|r l IH]; intros w H; simpl in H.
  - inversion H. now rewrite set_db_same.
  - unfold bind, delete_record, execute in H.
    destruct (exec_delete (lr_table r) (lr_id r) (w_db w)) as [d|e].
    + apply IH in H. rewrite H at 1. reflexivity.
    + inversion H. now rewrite set_db_same.
Qed.

Lemma for_each_raises {A : Type} (pre post : list A) (x : A) (body : A -> M unit)
    (w w1 w2 : world) (e : exn) :
  for_each pre body w = (Ok tt, w1) ->
  body x w1 = (Raised e, w2) ->
  for_each (pre ++ x :: post) body w = (Raised e, w2).
Proof.
  intros H1 H2. rewrite for_each_app. unfold bind. rewrite H1. simpl.
  unfold bind. now rewrite H2.
Qed.

(** When every deletion succeeds the transaction commits and the log is
    rewritten as completed. *)
Lemma execute_rollback_commits (ld : log_data) (log_file : string) (w w1 : world) :
  for_each (deletion_sequence (ld_inserted_records ld)) delete_record w = (Ok tt, w1) ->
  _execute_rollback ld log_file w =
    (_update_log_status log_file ld ;;; ret true) w1.
Proof.
  intros H. unfold _execute_rollback, try_except, transaction.
  unfold bind at 1. rewrite rollback_body_sequence, H.
  unfold _update_log_status, bind, now, write_log, ret. reflexivity.
Qed.

(** C3.  Rollback execution is atomic.  If, along the deletion sequence of
    a log, the deletions before some record succeed and the deletion of that
    record fails, then [_execute_rollback] answers [False] and leaves the
    world exactly as it found it: the database holds what it held before
    (the deletions already made are undone) and the log file is not
    rewritten, so its status stays as it was. *)
Theorem execute_rollback_atomic (w w1 : world) (ld : log_data) (log_file : string)
    (pre post : list log_record) (r : log_record) (e : exn) :
  deletion_sequence (ld_inserted_records ld) = (pre ++ r :: post)%list ->
  for_each pre delete_record w = (Ok tt, w1) ->
  exec_delete (lr_table r) (lr_id r) (w_db w1) = Raised e ->
  _execute_rollback ld log_file w = (Ok false, w).
Proof.
  intros Hseq Hpre Hfail.
  assert (Hbody : rollback_body (ld_inserted_records ld) w = (Raised e, w1)).
  { rewrite rollback_body_sequence, Hseq.
    apply for_each_raises with (w1 := w1); [assumption|].
    unfold delete_record, execute. now rewrite Hfail. }
  unfold _execute_rollback, try_except, transaction.
  unfold bind at 1. rewrite Hbody. unfold ret.
  apply for_each_delete_frame in Hpre. rewrite Hpre, set_db_set_db, set_db_same.
  reflexivity.
Qed.

(** Either everything or nothing: the world after [_execute_rollback] is
    the untouched one with answer [False], or the one in which the whole
    sequence has been deleted. *)
Lemma execute_rollback_all_or_nothing (w : world) (ld : log_data) (log_file : string) :
  _execute_rollback ld log_file w = (Ok false, w)
  \/ exists w1,
       for_each (deletion_sequence (ld_inserted_records ld)) delete_record w = (Ok tt, w1)
       /\ _execute_rollback ld log_file w =
            (_update_log_status log_file ld ;;; ret true) w1.
Proof.
  destruct (for_each (deletion_sequence (ld_inserted_records ld)) delete_record w)
    as [[[]|e] w1] eqn:H.
  - right. exists w1. split; [reflexivity | now apply execute_rollback_commits].
  - left. unfold _execute_rollback, try_except, transaction.
    unfold bind at 1. rewrite rollback_body_sequence, H. unfold ret.
    apply for_each_delete_frame in H. rewrite H, set_db_set_db, set_db_same.
    reflexivity.
Qed.



(** Witness for C3: the log lists iteration 3, its synthesis result and the
    project, while iterations 1 and 2 still refer to the project.  The first
    two deletions succeed, the third violates the foreign key, and nothing
    is deleted. *)
Lemma execute_rollback_atomic_witness :
  let ld := Fir128.log_of [Fir128.entry "projects" "proj-fir128";
                           Fir128.entry "design_iterations" "iter-3";
                           Fir128.entry "synthesis_results" "syn-3"] "pending" in
  let w := Fir128.with_file (Fir128.world_of Fir128.db0 []) "logs/r.yaml" ld in
  _execute_rollback ld "logs/r.yaml" w = (Ok false, w).
Proof.
  intros ld w.
  apply (execute_rollback_atomic w
           (snd (for_each [Fir128.entry "synthesis_results" "syn-3";
                           Fir128.entry "design_iterations" "iter-3"]
                          delete_record w))
           ld "logs/r.yaml"
           [Fir128.entry "synthesis_results" "syn-3";
            Fir128.entry "design_iterations" "iter-3"]
           [] (Fir128.entry "projects" "proj-fir128") ForeignKeyViolation);
    reflexivity.
Defined.

(** ** Table kinds outside the declared order *)

Definition has_unknown_kind (records : list log_record) : Prop :=
  exists r, In r records /\ ~ In (lr_table r) ROLLBACK_ORDER.

(** The entries whose table is declared. *)
Definition known_records (records : list log_record) : list log_record :=
  filter (fun r => declared (lr_table r)) records.

Lemma declared_In (t : string) : declared t = true <-> In t ROLLBACK_ORDER.
Proof. apply existsb_eqb_In. Qed.

Lemma table_records_known (records : list log_record) (t : string) :
  declared t = true ->
  table_records (known_records records) t = table_records records t.
Proof.
  intros Ht. unfold table_records, known_records.
  induction records as [|r rs IH]; simpl; [reflexivity|].
  destruct (String.eqb (lr_table r) t) eqn:E.
  - apply String.eqb_eq in E. rewrite E, Ht. simpl.
    rewrite <- E at 1. rewrite String.eqb_refl. now rewrite IH.
  - destruct (declared (lr_table r)); simpl; [rewrite E|]; exact IH.
Qed.

Lemma deletion_sequence_known (records : list log_record) :
  deletion_sequence (known_records records) = deletion_sequence records.
Proof.
  rewrite !deletion_sequence_unfold.
  now rewrite !table_records_known by reflexivity.
Qed.

Lemma determine_order_known (records : list log_record) :
  _determine_order (known_records records) = _determine_order records.
Proof.
  unfold _determine_order. apply filter_ext_in. intros t Ht.
  apply declared_In in Ht.
  assert (H : In t (map lr_table (known_records records))
              <-> In t (map lr_table records)).
  { rewrite !in_map_iff. unfold known_records.
    split; intros [r [E Hr]]; exists r; split; try assumption.
    - now apply filter_In in Hr.
    - apply filter_In. split; [assumption | now rewrite E]. }
  rewrite <- !existsb_eqb_In in H.
  destruct (existsb (String.eqb t) (map lr_table (known_records records))),
           (existsb (String.eqb t) (map lr_table records)); intuition congruence.
Qed.

(** Counterexample to C4: a log with an [hls_rules] entry (a table outside
    the declared order) and the project of an otherwise empty database.
    The rollback answers [True], the project is deleted, the log is marked
    completed; the rule is still there and no error is reported. *)
Lemma unknown_kind_rollback_succeeds :
  let records := [Fir128.entry "hls_rules" "rule-p001";
                  Fir128.entry "projects" "proj-fir128"] in
  let ld := Fir128.log_of records "pending" in
  let d := with_projects Fir128.db_rules_only [Fir128.project] in
  let w := Fir128.with_file (Fir128.world_of d []) "logs/r.yaml" ld in
  has_unknown_kind records
  /\ fst (_execute_rollback ld "logs/r.yaml" w) = Ok true
  /\ projects (w_db w) = [Fir128.project]
  /\ projects (w_db (snd (_execute_rollback ld "logs/r.yaml" w))) = []
  /\ hls_rules (w_db (snd (_execute_rollback ld "logs/r.yaml" w))) = hls_rules d
  /\ option_map ld_rollback_status
       (w_files (snd (_execute_rollback ld "logs/r.yaml" w)) "logs/r.yaml")
     = Some (Some "completed").
Proof.
  intros records ld d w. split.
  - exists (Fir128.entry "hls_rules" "rule-p001"). split; [now left|].
    simpl. intros H.
    repeat (destruct H as [H|H]; [discriminate H|]). exact H.
  - repeat split; reflexivity.
Qed.

(** C4, amended.  A table kind outside the declared order is skipped, not
    reported: it is never put into the computed order, none of its entries
    is deleted, and the order, the deletion sequence and the transaction are
    those of the log without the entries of undeclared kinds. *)
Theorem unknown_kind_skipped (records : list log_record) :
  Forall (fun t => In t ROLLBACK_ORDER) (_determine_order records)
  /\ Forall (fun r => In (lr_table r) ROLLBACK_ORDER) (deletion_sequence records)
  /\ _determine_order records = _determine_order (known_records records)
  /\ deletion_sequence records = deletion_sequence (known_records records)
  /\ (forall w, rollback_body records w = rollback_body (known_records records) w).
Proof.
  split.
  { apply Forall_forall. intros t Ht. now apply determine_order_In in Ht. }
  split.
  { apply Forall_forall. intros r Hr. unfold deletion_sequence in Hr.
    apply in_flat_map in Hr. destruct Hr as [t [Ht Hr]].
    apply determine_order_In in Ht. apply table_records_In in Hr.
    destruct Hr as [_ ->]. tauto. }
  split; [now rewrite determine_order_known|].
  split; [now rewrite deletion_sequence_known|].
  intros w. now rewrite !rollback_body_sequence, deletion_sequence_known.
Qed.


(** ** Operator confirmation *)

(** The rollback is refused: it answers [False], and neither the database
    nor any log file has changed. *)
Definition refused (log_file : string) (dry_run : bool) (w : world) : Prop :=
  exists w', rollback log_file dry_run w = (Ok false, w')
             /\ w_db w' = w_db w /\ w_files w' = w_files w.

Lemma affirmative_iff (line : string) :
  Text.affirmative line = true <->
  Text.lower (Text.strip line) = "y" \/ Text.lower (Text.strip line) = "yes".
Proof.
  unfold Text.affirmative, Text.in_y_yes.
  rewrite orb_true_iff, !String.eqb_eq. reflexivity.
Qed.

(** C5.  Completed logs are terminal, confirmations default to refusal.
    For a readable log file: if its status is completed, any answer to
    "Continue anyway?" that is not y or yes (after stripping blanks and
    lowering case) makes [rollback] refuse, in a dry run or not; for an
    execution, whether the log is pending or a completed one has just been
    overridden, any such answer to "Proceed with rollback?" makes it refuse
    too; the empty answer is such an answer; the affirmative answers are
    exactly those that read y or yes. *)
Theorem confirmation_defaults_to_refusal (w : world) (log_file : string)
    (ld : log_data) :
  w_files w log_file = Some ld ->
  (is_completed ld = true ->
   forall dry_run line rest,
     w_stdin w = line :: rest -> Text.affirmative line = false ->
     refused log_file dry_run w)
  /\ (forall override line rest,
        (is_completed ld = false /\ w_stdin w = line :: rest)
        \/ (is_completed ld = true /\ Text.affirmative override = true
            /\ w_stdin w = override :: line :: rest) ->
        Text.affirmative line = false ->
        refused log_file false w)
  /\ Text.affirmative EmptyString = false
  /\ (forall line, Text.affirmative line = true <->
                   Text.lower (Text.strip line) = "y"
                   \/ Text.lower (Text.strip line) = "yes").
Proof.
  intros Hfile. split; [|split; [|split]].
  - intros Hc dry_run line rest Hin Hno.
    unfold refused, rollback, bind, fetch_log, input, ret.
    rewrite Hfile, Hc, Hin, Hno. simpl.
    eexists. split; [reflexivity|]. split; reflexivity.
  - intros override line rest [[Hc Hin] | [Hc [Hyes Hin]]] Hno;
      unfold refused, rollback, bind, fetch_log, input, ret;
      rewrite Hfile, Hc; cbn; rewrite Hin; cbn;
      rewrite ?Hyes; cbn; rewrite Hno; cbn;
      eexists; (split; [reflexivity|]); split; reflexivity.
  - reflexivity.
  - apply affirmative_iff.
Qed.

(** Witness for C5: a completed log, and an operator who just presses
    return. *)
Lemma confirmation_defaults_to_refusal_witness :
  let ld := Fir128.log_of [Fir128.entry "synthesis_results" "syn-3"] "completed" in
  let w := Fir128.with_file (Fir128.world_of Fir128.db0 [EmptyString]) "logs/r.yaml" ld in
  refused "logs/r.yaml" false w /\ refused "logs/r.yaml" true w.
Proof.
  intros ld w.
  destruct (confirmation_defaults_to_refusal w "logs/r.yaml" ld eq_refl)
    as [H _].
  split; apply (H eq_refl _ EmptyString []); reflexivity.
Defined.

(** With no line left to read, [input] raises [EOFError]: nothing is
    changed then either. *)
Lemma rollback_end_of_input (w : world) (log_file : string) (ld : log_data)
    (dry_run : bool) :
  w_files w log_file = Some ld ->
  is_completed ld = true ->
  w_stdin w = [] ->
  rollback log_file dry_run w = (Raised EOFError, w).
Proof.
  intros Hfile Hc Hin. unfold rollback, bind, fetch_log, input.
  now rewrite Hfile, Hc, Hin.
Qed.

End RollbackProps.

(* ================================================================== *)
(** * Properties of the logger *)

Module LoggerProps.
Import Db Eff LoggerRollback.
Local Open Scope eff_scope.

(** The rows of [design_iterations] that the logger reads for one
    iteration number of a project. *)
Definition iterations_numbered (project_id : uuid) (n : Z) (d : db)
    : list iteration_row :=
  filter (fun r => String.eqb (di_project_id r) project_id
                   && (di_iteration_number r =? n))
         (design_iterations d).

(** The rows of [synthesis_results] of one iteration. *)
Definition synthesis_of (iter_row : iteration_row) (d : db) : list synthesis_row :=
  filter (fun s => String.eqb (sr_iteration_id s) (di_id iter_row))
         (synthesis_results d).

Definition effectiveness_of_type (project_type : string) (d : db)
    : list effectiveness_row :=
  filter (fun r => String.eqb (re_project_type r) project_type)
         (rules_effectiveness d).

Lemma table_records_synthesis (l : list synthesis_row) (t : string) :
  table_records (map synthesis_record l) t =
    if String.eqb "synthesis_results" t then map synthesis_record l else [].
Proof.
  unfold table_records. induction l as [|x l IH]; cbn [map filter].
  - now destruct (String.eqb "synthesis_results" t).
  - change (lr_table (synthesis_record x)) with "synthesis_results".
    rewrite IH. now destruct (String.eqb "synthesis_results" t).
Qed.

Lemma table_records_effectiveness (ty : string) (l : list effectiveness_row)
    (t : string) :
  table_records (map (effectiveness_record ty) l) t =
    if String.eqb "rules_effectiveness" t
    then map (effectiveness_record ty) l else [].
Proof.
  unfold table_records. induction l as [|x l IH]; cbn [map filter].
  - now destruct (String.eqb "rules_effectiveness" t).
  - change (lr_table (effectiveness_record ty x)) with "rules_effectiveness".
    rewrite IH. now destruct (String.eqb "rules_effectiveness" t).
Qed.

(** The entries of one table among the collected records. *)
Lemma collect_records_by_table (project : project_row)
    (iterations : list iteration_row) (d : db) :
  let records := collect_records project iterations d in
  table_records records "projects" = [project_record project]
  /\ table_records records "design_iterations" = map iteration_record iterations
  /\ table_records records "synthesis_results" =
       flat_map (fun it => map synthesis_record (synthesis_of it d)) iterations
  /\ table_records records "rules_effectiveness" =
       map (effectiveness_record (p_type project))
           (effectiveness_of_type (p_type project) d)
  /\ table_records records "design_patterns" = [].
Proof.
  unfold collect_records.
  repeat split;
    rewrite !RollbackProps.table_records_app, table_records_effectiveness;
    simpl; rewrite ?app_nil_r;
    (induction iterations as [|it its IH]; simpl; [reflexivity|]);
    rewrite RollbackProps.table_records_app, table_records_synthesis; simpl;
    rewrite IH; reflexivity.
Qed.


(** What [_generate_log_file] leaves behind when it answers with a path. *)
Lemma generate_log_file_written (force : bool) (name ty : string)
    (iteration : option Z) (records : list log_record) (notes : string)
    (w w' : world) (path : string) :
  _generate_log_file force name ty iteration records notes w = (Ok (Some path), w') ->
  w_db w' = w_db w
  /\ exists ld, w_files w' path = Some ld
                /\ ld_inserted_records ld = records
                /\ ld_rollback_status ld = Some "pending"
                /\ ld_iteration ld = iteration.
Proof.
  unfold _generate_log_file, bind, now, _check_duplicate_log, input, write_log, ret.
  destruct (w_glob w _ && w_glob w _ && negb force).
  - destruct (w_stdin w) as [|line rest]; [discriminate|].
    destruct (Text.affirmative line); simpl; [|discriminate].
    intros H. inversion H; subst; simpl. split; [reflexivity|].
    rewrite String.eqb_refl. eexists. split; [reflexivity|]. now simpl.
  - simpl. intros H. inversion H; subst; simpl. split; [reflexivity|].
    rewrite String.eqb_refl. eexists. split; [reflexivity|]. now simpl.
Qed.

(** The log generated for iteration 3 of FIR128
    lists the project row and the effectiveness row of type fir besides
    iteration 3 and its synthesis result. *)
Lemma iteration_manifest_lists_project :
  let w := Fir128.world_of Fir128.db0 [] in
  let path := "logs/rollback_FIR128_iter3_1000.yaml" in
  fst (logger_by_project false "FIR128" (Some 3) w) = Ok (Some path)
  /\ option_map
       (fun ld => map (fun r => (lr_table r, lr_id r)) (ld_inserted_records ld))
       (w_files (snd (logger_by_project false "FIR128" (Some 3) w)) path)
     = Some [("projects", "proj-fir128");
             ("design_iterations", "iter-3");
             ("synthesis_results", "syn-3");
             ("rules_effectiveness", "eff-p001-fir")].
Proof. split; reflexivity. Qed.

(** What a log generated for one iteration number of a project lists: of
    the design iterations, exactly the project's rows with that number,
    and, of the synthesis results, exactly the rows of those iterations;
    and besides them the project row and every effectiveness row of the
    project's type.  Generating the log leaves the database as it is, and
    the log is pending. *)
Theorem iteration_manifest_contents (w w' : world) (force : bool)
    (name : string) (n : Z) (path : string) :
  n <> 0 ->
  logger_by_project force name (Some n) w = (Ok (Some path), w') ->
  exists project ld,
    select_project_by_name name (w_db w) = Some project
    /\ w_db w' = w_db w
    /\ w_files w' path = Some ld
    /\ ld_rollback_status ld = Some "pending"
    /\ table_records (ld_inserted_records ld) "design_iterations" =
         map iteration_record (iterations_numbered (p_id project) n (w_db w))
    /\ table_records (ld_inserted_records ld) "synthesis_results" =
         flat_map (fun it => map synthesis_record (synthesis_of it (w_db w)))
                  (iterations_numbered (p_id project) n (w_db w))
    /\ table_records (ld_inserted_records ld) "projects" = [project_record project]
    /\ table_records (ld_inserted_records ld) "rules_effectiveness" =
         map (effectiveness_record (p_type project))
             (effectiveness_of_type (p_type project) (w_db w))
    /\ table_records (ld_inserted_records ld) "design_patterns" = [].
Proof.
  intros Hn H. unfold logger_by_project, bind, fetch in H.
  destruct (select_project_by_name name (w_db w)) as [project|] eqn:Hp;
    [|discriminate H].
  assert (Hsel : select_iterations (p_id project) (Some n) (w_db w)
                 = iterations_numbered (p_id project) n (w_db w)).
  { unfold select_iterations. apply Z.eqb_neq in Hn. now rewrite Hn. }
  rewrite Hsel in H.
  destruct (iterations_numbered (p_id project) n (w_db w)) as [|it its] eqn:Hits;
    [discriminate H|].
  apply generate_log_file_written in H.
  destruct H as [Hdb [ld [Hfile [Hrec [Hst _]]]]].
  exists project, ld.
  destruct (collect_records_by_table project (it :: its) (w_db w))
    as (Hproj & Hiter & Hsyn & Heff & Hpat).
  rewrite Hrec, Hits. repeat split; assumption.
Qed.

(** An instance: the log for iteration 3 of FIR128. *)
Lemma iteration_manifest_contents_witness :
  let w := Fir128.world_of Fir128.db0 [] in
  let path := "logs/rollback_FIR128_iter3_1000.yaml" in
  exists project ld,
    w_files (snd (logger_by_project false "FIR128" (Some 3) w)) path = Some ld
    /\ table_records (ld_inserted_records ld) "design_iterations" =
         map iteration_record (iterations_numbered (p_id project) 3 Fir128.db0)
    /\ table_records (ld_inserted_records ld) "projects" = [project_record project].
Proof.
  intros w path.
  destruct (iteration_manifest_contents w
              (snd (logger_by_project false "FIR128" (Some 3) w))
              false "FIR128" 3 path)
    as (project & ld & _ & _ & Hf & _ & Hi & _ & Hp & _).
  - discriminate.
  - reflexivity.
  - exists project, ld. repeat split; assumption.
Defined.

(** In that database the generated log cannot even be rolled back: after
    the synthesis result, the effectiveness row and iteration 3, the
    project is to be deleted while iterations 1 and 2 still refer to it;
    the transaction is aborted and nothing is deleted. *)
Lemma iteration_manifest_rollback_fails :
  let w := snd (logger_by_project false "FIR128" (Some 3)
                  (Fir128.world_of Fir128.db0 ["y"])) in
  let path := "logs/rollback_FIR128_iter3_1000.yaml" in
  fst (rollback path false w) = Ok false
  /\ w_db (snd (rollback path false w)) = Fir128.db0.
Proof. split; reflexivity. Qed.

(** A second project of type fir, with one iteration of its own. *)
Definition project_FIR64 : project_row :=
  {| p_id := "proj-fir64"; p_name := "FIR64"; p_type := "fir";
     p_description := Some "64-tap FIR filter";
     p_target_device := Some "xc7z020clg484-1"; p_created_at := 90 |}.

Definition iteration_FIR64 : iteration_row :=
  {| di_id := "iter-64-1"; di_project_id := "proj-fir64";
     di_iteration_number := 1; di_approach_description := Some "baseline";
     di_created_at := 95 |}.

(** FIR128 with its first iteration only, beside FIR64; the effectiveness
    row of P001 for type fir holds the applications of both projects. *)
Definition db_first_iteration : db :=
  {| projects := [Fir128.project; project_FIR64];
     design_iterations := [Fir128.iteration "iter-1" 1 110; iteration_FIR64];
     synthesis_results :=
       [Fir128.synthesis "syn-1" "iter-1" 264 111;
        Fir128.synthesis "syn-64-1" "iter-64-1" 70 96];
     hls_rules := [Fir128.rule_P001; Fir128.rule_R002];
     rules_effectiveness := [Fir128.eff_P001];
     design_patterns := [] |}.

(** C8.  The log for one iteration cannot be rolled back as the tool
    documents it ([logger --project P --iteration n], then [rollback] of
    the log written).  For FIR128 with iterations 1, 2, 3 the log for
    iteration 3 lists the project row and the effectiveness row of type fir
    besides iteration 3 and its synthesis result; the rollback, confirmed
    with y, answers [False] and deletes nothing, so iteration 3 and its
    synthesis result stay.  For FIR128 with iteration 1 alone the rollback
    of the log for iteration 1 answers [True] and deletes, besides the
    iteration and its synthesis result, the project row and the
    effectiveness row of type fir, which holds the statistics of FIR64 as
    well. *)
Theorem iteration_manifest_rollback_defect :
  let path := "logs/rollback_FIR128_iter3_1000.yaml" in
  let logged := logger_by_project false "FIR128" (Some 3)
                  (Fir128.world_of Fir128.db0 ["y"]) in
  let rolled := rollback path false (snd logged) in
  let path1 := "logs/rollback_FIR128_iter1_1000.yaml" in
  let logged1 := logger_by_project false "FIR128" (Some 1)
                   (Fir128.world_of db_first_iteration ["y"]) in
  let rolled1 := rollback path1 false (snd logged1) in
  fst logged = Ok (Some path)
  /\ option_map
       (fun ld => map (fun r => (lr_table r, lr_id r)) (ld_inserted_records ld))
       (w_files (snd logged) path)
     = Some [("projects", "proj-fir128");
             ("design_iterations", "iter-3");
             ("synthesis_results", "syn-3");
             ("rules_effectiveness", "eff-p001-fir")]
  /\ fst rolled = Ok false
  /\ w_db (snd rolled) = Fir128.db0
  /\ fst logged1 = Ok (Some path1)
  /\ fst rolled1 = Ok true
  /\ projects (w_db (snd rolled1)) = [project_FIR64]
  /\ design_iterations (w_db (snd rolled1)) = [iteration_FIR64]
  /\ synthesis_results (w_db (snd rolled1))
     = [Fir128.synthesis "syn-64-1" "iter-64-1" 70 96]
  /\ rules_effectiveness (w_db (snd rolled1)) = [].
Proof. repeat split; reflexivity. Qed.

End LoggerProps.

(* ================================================================== *)
(** * Properties of the effectiveness aggregator *)

Module AggregatorProps.
Import Db Eff.
Local Open Scope eff_scope.

(** The statistics of a (rule, context) pair: times applied, successes,
    average improvement. *)
Definition stats (rule_id : uuid) (project_type : string) (d : db)
    : option (Z * Z * option Q) :=
  option_map
    (fun r => (re_times_applied r, re_success_count r, re_avg_ii_improvement r))
    (select_effectiveness rule_id project_type d).

Definition rule_exists (rule_id : uuid) (d : db) : bool :=
  existsb (fun x => String.eqb (r_id x) rule_id) (hls_rules d).

(** An outcome: success flag and improvement. *)
Abbreviation outcome := (bool * Q)%type.

Definition successes (l : list outcome) : Z :=
  Z.of_nat (List.length (filter fst l)).

Definition total_improvement (l : list outcome) : Q :=
  fold_right (fun (o : outcome) acc => if fst o then (snd o + acc)%Q else acc)
             0%Q l.

(** The mean of the improvements of the successful outcomes, 0 when there
    is none. *)
Definition mean_improvement (l : list outcome) : Q :=
  if successes l =? 0 then 0%Q
  else (total_improvement l / inject_Z (successes l))%Q.

Lemma find_map_stable {A : Type} (p : A -> bool) (g : A -> A) (l : list A) :
  (forall x, p (g x) = p x) ->
  find p (map g l) = option_map g (find p l).
Proof.
  intros H. induction l as [|x l IH]; simpl; [reflexivity|].
  rewrite H. destruct (p x); [reflexivity | exact IH].
Qed.

Lemma find_app_none {A : Type} (p : A -> bool) (l : list A) (x : A) :
  find p l = None -> p x = true -> find p (l ++ [x]) = Some x.
Proof.
  intros Hn Hx. induction l as [|y l IH]; simpl in *.
  - now rewrite Hx.
  - destruct (p y); [discriminate | now apply IH].
Qed.

(** After the UPDATE by identifier, the row of the pair is the updated
    one. *)
Lemma select_after_update (rule_id : uuid) (project_type : string) (d : db)
    (row : effectiveness_row) (times success : Z) (avg : option Q)
    (t : timestamp) :
  select_effectiveness rule_id project_type d = Some row ->
  stats rule_id project_type
        (update_effectiveness times success avg t (re_id row) d)
  = Some (times, success, avg).
Proof.
  intros H. unfold stats, select_effectiveness, update_effectiveness in *. simpl.
  rewrite find_map_stable.
  - rewrite H. simpl. now rewrite String.eqb_refl.
  - intros x. now destruct (String.eqb (re_id x) (re_id row)).
Qed.

(** After the INSERT for a pair that had no row, the row of the pair is
    the inserted one. *)
Lemma select_after_insert (rule_id : uuid) (project_type : string) (d : db)
    (row : effectiveness_row) :
  select_effectiveness rule_id project_type d = None ->
  re_rule_id row = rule_id -> re_project_type row = project_type ->
  rule_exists rule_id d = true ->
  insert_effectiveness row d =
    Ok (with_rules_effectiveness d (rules_effectiveness d ++ [row]))
  /\ select_effectiveness rule_id project_type
       (with_rules_effectiveness d (rules_effectiveness d ++ [row])) = Some row.
Proof.
  intros Hn Hr Hp He. split.
  - unfold insert_effectiveness. unfold rule_exists in He. now rewrite Hr, He.
  - unfold select_effectiveness in *. simpl. apply find_app_none; [assumption|].
    now rewrite Hr, Hp, !String.eqb_refl.
Qed.


(** ** Overwrite mode *)

Lemma overwrite_step (w : world) (rule_id : uuid) (project_type : string)
    (success : bool) (ii_improvement : Q) :
  rule_exists rule_id (w_db w) = true ->
  exists res w1,
    ImportExample.record_rule_effectiveness rule_id project_type
      success ii_improvement w = (Ok res, w1)
    /\ stats rule_id project_type (w_db w1)
       = Some (1, if success then 1 else 0,
               Some (if success then ii_improvement else 0%Q))
    /\ hls_rules (w_db w1) = hls_rules (w_db w).
Proof.
  intros He.
  unfold ImportExample.record_rule_effectiveness, bind, fetch.
  destruct (select_effectiveness rule_id project_type (w_db w)) as [row|] eqn:Hsel.
  - unfold now, execute, ret. simpl. do 2 eexists.
    split; [reflexivity|]. split; [|reflexivity].
    simpl. now apply select_after_update.
  - unfold uuid4, now, execute, ret. simpl.
    match goal with
    | |- context [insert_effectiveness ?r (w_db w)] =>
        destruct (select_after_insert rule_id project_type (w_db w) r
                    Hsel eq_refl eq_refl He) as [Hins Hnew]
    end.
    rewrite Hins. do 2 eexists.
    split; [reflexivity|]. split; [|reflexivity].
    unfold stats. simpl. now rewrite Hnew.
Qed.

(** C7.  Overwrite mode is last-write-wins.  For a catalogued rule and any
    prior state of the database, one call of the overwriting
    [record_rule_effectiveness] leaves the pair's row at times_applied = 1,
    success_count = 1 or 0, avg_ii_improvement = the improvement or 0; two
    calls in sequence leave it at the values of the second call, whatever
    the first call's outcome and the state before were. *)
Theorem overwrite_last_write_wins (w : world) (rule_id : uuid)
    (project_type : string) (s1 s2 : bool) (i1 i2 : Q) :
  rule_exists rule_id (w_db w) = true ->
  (exists res w1,
     ImportExample.record_rule_effectiveness rule_id project_type s1 i1 w
     = (Ok res, w1)
     /\ stats rule_id project_type (w_db w1)
        = Some (1, if s1 then 1 else 0, Some (if s1 then i1 else 0%Q)))
  /\ (exists res w2,
        (ImportExample.record_rule_effectiveness rule_id project_type s1 i1 ;;;
         ImportExample.record_rule_effectiveness rule_id project_type s2 i2) w
        = (Ok res, w2)
        /\ stats rule_id project_type (w_db w2)
           = Some (1, if s2 then 1 else 0, Some (if s2 then i2 else 0%Q))).
Proof.
  intros He.
  destruct (overwrite_step w rule_id project_type s1 i1 He)
    as (res1 & w1 & H1 & Hst1 & Hr1).
  split.
  - now exists res1, w1.
  - assert (He1 : rule_exists rule_id (w_db w1) = true).
    { unfold rule_exists in *. now rewrite Hr1. }
    destruct (overwrite_step w1 rule_id project_type s2 i2 He1)
      as (res2 & w2 & H2 & Hst2 & _).
    exists res2, w2. split; [|assumption].
    unfold bind. now rewrite H1.
Qed.

(** Witness for C7: rule P001 in context fir, whose row holds
    (2, 2, 68), overwritten with a success of 130 and then a failure. *)
Lemma overwrite_last_write_wins_witness :
  let w := Fir128.world_of Fir128.db0 [] in
  exists res w2,
    (ImportExample.record_rule_effectiveness "rule-p001" "fir" true (130 # 1) ;;;
     ImportExample.record_rule_effectiveness "rule-p001" "fir" false (6 # 1)) w
    = (Ok res, w2)
    /\ stats "rule-p001" "fir" (w_db w2) = Some (1, 0, Some 0%Q).
Proof.
  intros w.
  destruct (overwrite_last_write_wins w "rule-p001" "fir" true false
              (130 # 1) (6 # 1) eq_refl) as [_ H].
  exact H.
Defined.


(** ** Accumulate mode: [hls-knowledge-base/import_fir128_data.py] *)

(** What one accumulating call does to the statistics of a pair. *)
Definition accumulate (st : option (Z * Z * option Q)) (o : outcome)
    : option (Z * Z * option Q) :=
  let success := fst o in
  let improvement := if success then snd o else 0%Q in
  match st with
  | None => Some (1, if success then 1 else 0, Some improvement)
  | Some (times, count, avg) =>
      let new_count := count + (if success then 1 else 0) in
      Some (times + 1, new_count,
            Some (if 0 <? new_count
                  then ((coalesce avg 0 * inject_Z count + improvement)
                        / inject_Z new_count)%Q
                  else 0%Q))
  end.

(** [for (success, improvement) in outcomes: record(success, improvement)] *)
Definition apply_all (record : bool -> Q -> M (uuid * bool))
    (outcomes : list outcome) : M unit :=
  for_each outcomes (fun o => record (fst o) (snd o) ;;; ret tt).

Lemma accumulate_step (w : world) (rule_id : uuid) (project_type : string)
    (success : bool) (ii_improvement : Q) :
  rule_exists rule_id (w_db w) = true ->
  exists res w1,
    ImportKb.record_rule_effectiveness rule_id project_type
      success ii_improvement w = (Ok res, w1)
    /\ stats rule_id project_type (w_db w1)
       = accumulate (stats rule_id project_type (w_db w)) (success, ii_improvement)
    /\ hls_rules (w_db w1) = hls_rules (w_db w).
Proof.
  intros He.
  unfold ImportKb.record_rule_effectiveness, bind, fetch, stats at 2.
  destruct (select_effectiveness rule_id project_type (w_db w)) as [row|] eqn:Hsel.
  - unfold now, execute, ret. simpl. do 2 eexists.
    split; [reflexivity|]. split; [|reflexivity].
    simpl. now apply select_after_update.
  - unfold uuid4, now, execute, ret. simpl.
    match goal with
    | |- context [insert_effectiveness ?r (w_db w)] =>
        destruct (select_after_insert rule_id project_type (w_db w) r
                    Hsel eq_refl eq_refl He) as [Hins Hnew]
    end.
    rewrite Hins. do 2 eexists.
    split; [reflexivity|]. split; [|reflexivity].
    unfold stats. simpl. now rewrite Hnew.
Qed.

Lemma apply_all_accumulates (rule_id : uuid) (project_type : string)
    (outcomes : list outcome) (w : world) :
  rule_exists rule_id (w_db w) = true ->
  exists w',
    apply_all (ImportKb.record_rule_effectiveness rule_id project_type) outcomes w
    = (Ok tt, w')
    /\ stats rule_id project_type (w_db w')
       = fold_left accumulate outcomes (stats rule_id project_type (w_db w)).
Proof.
  revert w. induction outcomes as [|[s i] l IH]; intros w He.
  - exists w. split; reflexivity.
  - destruct (accumulate_step w rule_id project_type s i He)
      as (res & w1 & H1 & Hst & Hr).
    assert (He1 : rule_exists rule_id (w_db w1) = true).
    { unfold rule_exists in *. now rewrite Hr. }
    destruct (IH w1 He1) as (w' & H' & Hst').
    exists w'. split.
    + unfold apply_all in *. simpl. unfold bind at 1 2. rewrite H1. exact H'.
    + rewrite Hst'. simpl. now rewrite Hst.
Qed.

Lemma successes_cons (o : outcome) (l : list outcome) :
  successes (o :: l) = (if fst o then 1 else 0) + successes l.
Proof.
  unfold successes. simpl. destruct (fst o); [|reflexivity].
  simpl List.length. lia.
Qed.


Lemma inject_Z_nonzero (z : Z) : z <> 0 -> ~ (inject_Z z == 0)%Q.
Proof. intros H E. apply H. unfold Qeq in E. simpl in E. lia. Qed.

Lemma accumulate_some (times count : Z) (avg : Q) (s : bool) (i : Q) :
  accumulate (Some (times, count, Some avg)) (s, i) =
    Some (times + 1, count + (if s then 1 else 0),
          Some (if 0 <? count + (if s then 1 else 0)
                then ((coalesce (Some avg) 0 * inject_Z count
                       + (if s then i else 0))
                      / inject_Z (count + (if s then 1 else 0)))%Q
                else 0%Q)).
Proof. reflexivity. Qed.

Lemma accumulate_none (s : bool) (i : Q) :
  accumulate None (s, i) =
    Some (1, if s then 1 else 0, Some (if s then i else 0%Q)).
Proof. reflexivity. Qed.

(** The running statistics keep count and sum: [avg * count] is the sum
    of the successful improvements. *)
Lemma fold_accumulate (l : list outcome) (times count : Z) (avg total : Q) :
  0 <= count ->
  (avg * inject_Z count == total)%Q ->
  (count = 0 -> (avg == 0)%Q) ->
  exists avg',
    fold_left accumulate l (Some (times, count, Some avg))
    = Some (times + Z.of_nat (List.length l), count + successes l, Some avg')
    /\ (avg' * inject_Z (count + successes l) == total + total_improvement l)%Q
    /\ (count + successes l = 0 -> (avg' == 0)%Q).
Proof.
  revert times count avg total.
  induction l as [|[s i] l IH]; intros times count avg total Hc Hsum Hzero.
  - exists avg. change (successes []) with 0.
    change (Z.of_nat (List.length (@nil outcome))) with 0.
    cbn [fold_left total_improvement fold_right]. rewrite !Z.add_0_r.
    split; [reflexivity|]. split; [|assumption].
    rewrite Hsum. ring.
  - cbn [fold_left]. rewrite accumulate_some.
    set (b := if s then 1 else 0).
    set (c := if s then i else 0%Q).
    assert (Hb : 0 <= b) by (subst b; destruct s; lia).
    set (avg1 := if 0 <? count + b
                 then ((coalesce (Some avg) 0 * inject_Z count + c)
                       / inject_Z (count + b))%Q
                 else 0%Q).
    assert (H1 : (avg1 * inject_Z (count + b) == total + c)%Q).
    { subst avg1. destruct (0 <? count + b) eqn:E.
      - apply Z.ltb_lt in E. simpl coalesce.
        rewrite Qmult_comm, Qmult_div_r by (apply inject_Z_nonzero; lia).
        now rewrite Hsum.
      - apply Z.ltb_ge in E. assert (count = 0) by lia.
        assert (b = 0) by lia. subst count.
        assert (Hc0 : c = 0%Q) by (subst b c; destruct s; [lia | reflexivity]).
        rewrite Hc0. rewrite <- Hsum. simpl. ring. }
    assert (H2 : count + b = 0 -> (avg1 == 0)%Q).
    { intros E. subst avg1. replace (0 <? count + b) with false; [reflexivity|].
      symmetry. apply Z.ltb_ge. lia. }
    destruct (IH (times + 1) (count + b) avg1 (total + c)%Q
                ltac:(lia) H1 H2) as (avg' & Hf & Hs & Hz).
    exists avg'. rewrite successes_cons. simpl fst. fold b.
    replace (count + (b + successes l)) with (count + b + successes l) by lia.
    replace (times + Z.of_nat (List.length ((s, i) :: l)))
      with (times + 1 + Z.of_nat (List.length l))
      by (cbn [List.length]; rewrite Nat2Z.inj_succ; lia).
    split; [exact Hf|]. split; [|exact Hz].
    rewrite Hs. simpl total_improvement. subst c. destruct s; simpl; ring.
Qed.

(** Accumulating from an absent row: the count of applications, the count
    of successes, the mean over the successes. *)
Lemma accumulate_from_absent (l : list outcome) :
  l <> [] ->
  exists avg,
    fold_left accumulate l None
    = Some (Z.of_nat (List.length l), successes l, Some avg)
    /\ (avg == mean_improvement l)%Q.
Proof.
  destruct l as [|[s i] l]; [congruence|]. intros _.
  cbn [fold_left]. rewrite accumulate_none.
  set (b := if s then 1 else 0).
  set (c := if s then i else 0%Q).
  destruct (fold_accumulate l 1 b c c) as (avg & Hf & Hs & Hz).
  - subst b. destruct s; lia.
  - subst b c. destruct s; simpl; ring.
  - subst b c. destruct s; [lia | reflexivity].
  - exists avg. rewrite Hf.
    assert (Hsucc : successes ((s, i) :: l) = b + successes l)
      by (rewrite successes_cons; reflexivity).
    assert (Htot : (total_improvement ((s, i) :: l) == c + total_improvement l)%Q).
    { simpl. subst c. destruct s; simpl; ring. }
    split.
    + rewrite Hsucc.
      replace (Z.of_nat (List.length ((s, i) :: l)))
        with (1 + Z.of_nat (List.length l))
        by (cbn [List.length]; rewrite Nat2Z.inj_succ; lia).
      reflexivity.
    + unfold mean_improvement. rewrite Hsucc.
      destruct (b + successes l =? 0) eqn:E.
      * apply Z.eqb_eq in E. now apply Hz.
      * apply Z.eqb_neq in E. rewrite Htot, <- Hs.
        now rewrite Qdiv_mult_l by (now apply inject_Z_nonzero).
Qed.

(** The accumulating [record_rule_effectiveness] of the import script
    meets the accumulate-mode contract: applied to the outcomes in turn,
    starting with no row for the pair, it ends with times_applied = N,
    success_count = the number of successes, avg_ii_improvement = the mean
    improvement over the successes (0 with no success). *)
Lemma import_accumulates_mean_of_successes (w : world) (rule_id : uuid)
    (project_type : string) (outcomes : list outcome) :
  rule_exists rule_id (w_db w) = true ->
  stats rule_id project_type (w_db w) = None ->
  outcomes <> [] ->
  exists w' avg,
    apply_all (ImportKb.record_rule_effectiveness rule_id project_type) outcomes w
    = (Ok tt, w')
    /\ stats rule_id project_type (w_db w')
       = Some (Z.of_nat (List.length outcomes), successes outcomes, Some avg)
    /\ (avg == mean_improvement outcomes)%Q.
Proof.
  intros He Hnone Hne.
  destruct (apply_all_accumulates rule_id project_type outcomes w He)
    as (w' & Hrun & Hst).
  destruct (accumulate_from_absent outcomes Hne) as (avg & Hf & Hm).
  exists w', avg. split; [assumption|]. split; [|assumption].
  now rewrite Hst, Hnone, Hf.
Qed.


(** Rule P001 in context fir: improvements 264 - 134 = 130 and
    134 - 128 = 6, both successful, accumulate to (2, 2, 68). *)
Lemma accumulate_scenario_P001 :
  let w := Fir128.world_of Fir128.db_rules_only [] in
  let w' := snd (apply_all (ImportKb.record_rule_effectiveness "rule-p001" "fir")
                   [(true, 130 # 1); (true, 6 # 1)] w) in
  exists avg,
    stats "rule-p001" "fir" (w_db w') = Some (2, 2, Some avg) /\ (avg == 68)%Q.
Proof. eexists. split; [reflexivity | vm_compute; reflexivity]. Qed.

(** ** [update_rule_effectiveness] of main.py *)

(** What the upsert does to the statistics of a pair: the average is
    weighted by [times_applied] and takes in every improvement handed in,
    successful or not. *)
Definition upsert_stats (st : option (Z * Z * option Q)) (p3 : Z) (p4 : option Q)
    : option (Z * Z * option Q) :=
  match st with
  | None => Some (1, p3, p4)
  | Some (times, count, avg) =>
      Some (times + 1, count + p3,
            match p4 with
            | Some x => Some ((coalesce avg 0 * inject_Z times + x)
                              / inject_Z (times + 1))%Q
            | None => avg
            end)
  end.


(** C1.  The endpoint [update_rule_effectiveness] at two calls on a pair
    with no row: an unsuccessful application reported with improvement 10,
    then a successful one with improvement 4.  The accumulate-mode contract
    asks for (2, 1, 4), the mean over the successes; the endpoint stores
    average 10 after the first call, with no success counted, and (2, 1, 7)
    after the second. *)
Theorem update_rule_effectiveness_averages_all_applications :
  let w := Fir128.world_of Fir128.db_rules_only [] in
  let first :=
    {| Main.rule_code := Some "P001"; Main.rule_text := None;
       Main.project_type := "fir"; Main.was_successful := false;
       Main.ii_improvement := Some (10 # 1) |} in
  let second :=
    {| Main.rule_code := Some "P001"; Main.rule_text := None;
       Main.project_type := "fir"; Main.was_successful := true;
       Main.ii_improvement := Some (4 # 1) |} in
  let w1 := snd (Main.update_rule_effectiveness first w) in
  let w2 := snd (Main.update_rule_effectiveness second w1) in
  stats "rule-p001" "fir" (w_db w) = None
  /\ fst (Main.update_rule_effectiveness first w) = Ok ("rule-p001", false)
  /\ stats "rule-p001" "fir" (w_db w1) = Some (1, 0, Some (10 # 1))
  /\ (mean_improvement [(false, 10 # 1)] == 0)%Q
  /\ fst (Main.update_rule_effectiveness second w1) = Ok ("rule-p001", true)
  /\ stats "rule-p001" "fir" (w_db w2) = Some (2, 1, Some (14 # 2))
  /\ (14 # 2 == 7)%Q
  /\ (mean_improvement [(false, 10 # 1); (true, 4 # 1)] == 4)%Q.
Proof.
  repeat split; vm_compute; reflexivity.
Qed.

End AggregatorProps.

(* ================================================================== *)
(** * Properties of main.py *)

Module MainProps.
Import Db Eff Main.
Local Open Scope eff_scope.

(** The tables that recording rule effects leaves alone. *)
Definition same_core (d' d : db) : Prop :=
  projects d' = projects d
  /\ design_iterations d' = design_iterations d
  /\ synthesis_results d' = synthesis_results d
  /\ hls_rules d' = hls_rules d.

Lemma same_core_refl (d : db) : same_core d d.
Proof. repeat split. Qed.

Lemma same_core_trans (d1 d2 d3 : db) :
  same_core d1 d2 -> same_core d2 d3 -> same_core d1 d3.
Proof.
  unfold same_core. intros (A & B & C & D) (A' & B' & C' & D').
  repeat split; congruence.
Qed.

Lemma highest_priority_acc (rows : list rule_row) (acc : option rule_row)
    (r : rule_row) :
  fold_left
    (fun best x =>
       match best with
       | None => Some x
       | Some b => if r_priority b <? r_priority x then Some x else Some b
       end)
    rows acc = Some r ->
  In r rows \/ acc = Some r.
Proof.
  revert acc. induction rows as [|x rows IH]; intros acc H; simpl in H.
  - now right.
  - apply IH in H. destruct H as [H|H]; [left; now right|].
    destruct acc as [b|].
    + destruct (r_priority b <? r_priority x).
      * left. left. congruence.
      * now right.
    + left. left. congruence.
Qed.

Lemma highest_priority_In (rows : list rule_row) (r : rule_row) :
  highest_priority rows = Some r -> In r rows.
Proof.
  intros H. apply highest_priority_acc in H. destruct H; [assumption|discriminate].
Qed.

Lemma select_rule_like_In (keyword : string) (d : db) (r : rule_row) :
  select_rule_like keyword d = Some r ->
  In r (hls_rules d)
  /\ Text.like ("%" ++ Text.lower keyword ++ "%") (Text.lower (r_rule_text r)) = true.
Proof.
  intros H. apply highest_priority_In in H. now apply filter_In in H.
Qed.

Lemma match_keywords_In (keywords : list string) (d : db) (r : rule_row) :
  match_keywords keywords d = Some r -> In r (hls_rules d).
Proof.
  induction keywords as [|k ks IH]; simpl; [discriminate|].
  destruct (select_rule_like k d) as [x|] eqn:E; [|exact IH].
  intros H. inversion H; subst. now apply select_rule_like_In in E.
Qed.

Lemma rule_in_exists (d : db) (r : rule_row) :
  In r (hls_rules d) ->
  existsb (fun x => String.eqb (r_id x) (r_id r)) (hls_rules d) = true.
Proof.
  intros H. apply existsb_exists. exists r. split; [assumption|].
  apply String.eqb_refl.
Qed.

(** One round of the rule loop: it raises only for want of a keyword list,
    and then before writing anything; it writes to [rules_effectiveness]
    alone. *)
Lemma record_rule_application_result (project_type : string)
    (rule_app : RuleApplication) (w : world) :
  (ra_rule_keywords rule_app = None
   /\ record_rule_application project_type rule_app w = (Raised TypeError, w))
  \/ (ra_rule_keywords rule_app <> None
      /\ exists recorded w',
           record_rule_application project_type rule_app w = (Ok recorded, w')
           /\ same_core (w_db w') (w_db w)).
Proof.
  unfold record_rule_application, lookup_rule.
  destruct (ra_rule_keywords rule_app) as [keywords|] eqn:Hk.
  - right. split; [discriminate|].
    unfold bind, fetch.
    destruct (match_keywords keywords (w_db w)) as [rule|] eqn:Hm.
    + destruct (select_effectiveness (r_id rule) project_type (w_db w))
        as [existing|] eqn:Hsel.
      * unfold now, execute, ret. simpl. do 2 eexists.
        split; [reflexivity|]. unfold same_core. simpl. now repeat split.
      * unfold uuid4, now, execute, ret. simpl.
        unfold insert_effectiveness. simpl.
        rewrite (rule_in_exists _ _ (match_keywords_In _ _ _ Hm)).
        do 2 eexists. split; [reflexivity|].
        unfold same_core. simpl. now repeat split.
    + unfold ret. do 2 eexists. split; [reflexivity|]. apply same_core_refl.
  - left. split; [reflexivity|]. reflexivity.
Qed.

Definition has_keywords (rule_app : RuleApplication) : Prop :=
  ra_rule_keywords rule_app <> None.

Definition lacks_keywords (rule_app : RuleApplication) : Prop :=
  ra_rule_keywords rule_app = None.

(** The rule loop as a whole. *)
Lemma record_rules_result (project_type : string)
    (rules_applied : list RuleApplication) (rules_recorded : Z) (w : world) :
  exists w',
    same_core (w_db w') (w_db w)
    /\ ((Exists lacks_keywords rules_applied
         /\ record_rules project_type rules_applied rules_recorded w
            = (Raised TypeError, w'))
        \/ (Forall has_keywords rules_applied
            /\ exists n, record_rules project_type rules_applied rules_recorded w
                         = (Ok n, w'))).
Proof.
  revert rules_recorded w.
  induction rules_applied as [|ra rest IH]; intros k w.
  - exists w. split; [apply same_core_refl|]. right.
    split; [constructor|]. now exists k.
  - simpl. unfold bind.
    destruct (record_rule_application_result project_type ra w)
      as [[Hn Hr] | [Hs (recorded & w1 & Hr & Hc)]]; rewrite Hr.
    + exists w. split; [apply same_core_refl|]. left.
      split; [now apply Exists_cons_hd | reflexivity].
    + destruct (IH (if recorded then k + 1 else k) w1)
        as (w' & Hc' & [[He Hres] | [Hf (n & Hres)]]).
      * exists w'. split; [now apply same_core_trans with (w_db w1)|].
        left. split; [now apply Exists_cons_tl | exact Hres].
      * exists w'. split; [now apply same_core_trans with (w_db w1)|].
        right. split; [now constructor | now exists n].
Qed.


(** ** The shape of [record_complete_iteration] *)

Definition project_exists (project_id : uuid) (d : db) : bool :=
  existsb (fun p => String.eqb (p_id p) project_id) (projects d).

(** The database once the project is there. *)
Definition ensure_project (data : CompleteIterationCreate) (t : timestamp)
    (d : db) : db :=
  if project_exists (c_project_id data) d then d
  else with_projects d
         (projects d ++
          [{| p_id := c_project_id data;
              p_name := if Text.truthy (c_project_name data)
                        then coalesce (c_project_name data) EmptyString
                        else Text.upper (c_project_type data) ++ "_Design";
              p_type := c_project_type data;
              p_description :=
                Some ("Auto-created project for "
                      ++ c_project_type data ++ " design");
              p_target_device := None;
              p_created_at := t |}]).

(** The iteration row that a request creates. *)
Definition new_iteration (project_id : uuid) (description : string) (w : world)
    : iteration_row :=
  {| di_id := w_uuid w (w_next w);
     di_project_id := project_id;
     di_iteration_number := next_iteration_number project_id (w_db w);
     di_approach_description := Some description;
     di_created_at := w_clock w |}.

(** The world in which the rule loop of a request starts: project ensured,
    iteration and synthesis result inserted, two identifiers drawn. *)
Definition before_rules (data : CompleteIterationCreate) (w : world) : world :=
  let d1 := ensure_project data (w_clock w) (w_db w) in
  let it := new_iteration (c_project_id data)
              (approach_description (c_iteration data)) w in
  {| w_db :=
       with_synthesis_results
         (with_design_iterations d1 (design_iterations d1 ++ [it]))
         (synthesis_results d1 ++
          [{| sr_id := w_uuid w (S (w_next w)); sr_iteration_id := di_id it;
              sr_ii_achieved := ii_achieved (c_synthesis_result data);
              sr_created_at := w_clock w |}]);
     w_uuid := w_uuid w; w_next := S (S (w_next w)); w_clock := w_clock w;
     w_files := w_files w; w_glob := w_glob w; w_stdin := w_stdin w |}.

Lemma existsb_app_last {A : Type} (p : A -> bool) (l : list A) (x : A) :
  p x = true -> existsb p (l ++ [x]) = true.
Proof.
  intros H. rewrite existsb_app. simpl. rewrite H.
  now rewrite orb_true_r.
Qed.

Lemma ensure_project_exists (data : CompleteIterationCreate) (t : timestamp) (d : db) :
  project_exists (c_project_id data) (ensure_project data t d) = true.
Proof.
  unfold ensure_project.
  destruct (project_exists (c_project_id data) d) eqn:E; [assumption|].
  unfold project_exists. simpl. apply existsb_app_last. simpl.
  apply String.eqb_refl.
Qed.

Lemma ensure_project_iterations (data : CompleteIterationCreate) (t : timestamp)
    (d : db) :
  design_iterations (ensure_project data t d) = design_iterations d.
Proof.
  unfold ensure_project. now destruct (project_exists (c_project_id data) d).
Qed.

(** [record_complete_iteration] is its rule loop run in [before_rules];
    should the loop raise, the database is put back. *)
Lemma record_complete_iteration_unfold (data : CompleteIterationCreate) (w : world) :
  record_complete_iteration data w =
    match record_rules (c_project_type data) (c_rules_applied data) 0
            (before_rules data w) with
    | (Ok n, w') =>
        (Ok (w_uuid w (w_next w),
             next_iteration_number (c_project_id data) (w_db w),
             c_project_id data, n), w')
    | (Raised e, w') => (Raised e, set_db w' (w_db w))
    end.
Proof.
  unfold record_complete_iteration, transaction.
  unfold bind at 1. unfold fetch at 1.
  fold (project_exists (c_project_id data) (w_db w)).
  pose proof (ensure_project_exists data (w_clock w) (w_db w)) as Hex.
  pose proof (ensure_project_iterations data (w_clock w) (w_db w)) as Hit.
  unfold before_rules, new_iteration, next_iteration_number, iteration_numbers.
  unfold ensure_project in *.
  destruct (project_exists (c_project_id data) (w_db w)) eqn:E; simpl negb; cbv iota.
  - unfold bind, ret, fetch, uuid4, now, execute, insert_iteration,
      insert_synthesis. simpl.
    unfold project_exists in E. rewrite E. simpl.
    rewrite existsb_app_last by (simpl; apply String.eqb_refl).
    now destruct (record_rules _ _ _ _) as [[n|e] w'].
  - unfold bind, ret, fetch, uuid4, now, execute, insert_project,
      insert_iteration, insert_synthesis. simpl.
    unfold project_exists in Hex. simpl in Hex. rewrite Hex. simpl.
    rewrite existsb_app_last by (simpl; apply String.eqb_refl).
    now destruct (record_rules _ _ _ _) as [[n|e] w'].
Qed.


(** ** A rule application without keywords *)

Lemma lacks_not_all_have (l : list RuleApplication) :
  Exists lacks_keywords l -> Forall has_keywords l -> False.
Proof.
  intros He Hf. apply Exists_exists in He. destruct He as [x [Hx Hl]].
  rewrite Forall_forall in Hf. exact (Hf x Hx Hl).
Qed.

(** C10.  If some rule application of a request has no keyword list, then
    [record_complete_iteration] raises [TypeError] out of the rule loop and
    the transaction is rolled back: the database is what it was before the
    request, with no project, iteration, synthesis result or effectiveness
    row of the request in it.  Nothing is asked of the application's rule
    code: a valid code does not help. *)
Theorem missing_keywords_abort (w : world) (data : CompleteIterationCreate) :
  Exists lacks_keywords (c_rules_applied data) ->
  exists w',
    record_complete_iteration data w = (Raised TypeError, w')
    /\ w_db w' = w_db w.
Proof.
  intros He. rewrite record_complete_iteration_unfold.
  destruct (record_rules_result (c_project_type data) (c_rules_applied data) 0
              (before_rules data w))
    as (w' & _ & [[_ Hr] | [Hf _]]).
  - rewrite Hr. exists (set_db w' (w_db w)). split; reflexivity.
  - destruct (lacks_not_all_have _ He Hf).
Qed.

(** Witness for C10: a request for FIR128 whose one rule application names
    the catalogued code P001 and gives no keywords. *)
Lemma missing_keywords_abort_witness :
  let app :=
    {| ra_rule_code := Some "P001"; ra_rule_keywords := None;
       ra_rule_description := None; ra_previous_ii := 264;
       ra_current_ii := 134; ra_success := true; ra_category := None |} in
  let data :=
    {| c_project_id := "proj-fir128"; c_project_name := Some "FIR128";
       c_project_type := "fir";
       c_iteration := {| project_id := "proj-fir128";
                         approach_description := "pipelined" |};
       c_synthesis_result := {| ii_achieved := 134 |};
       c_rules_applied := [app] |} in
  exists w',
    record_complete_iteration data (Fir128.world_of Fir128.db0 [])
    = (Raised TypeError, w')
    /\ w_db w' = Fir128.db0.
Proof.
  intros app data.
  apply (missing_keywords_abort (Fir128.world_of Fir128.db0 []) data).
  apply Exists_cons_hd. reflexivity.
Defined.

(** ** Rule matching *)

(** The matcher of the import scripts answers with a rule of the table
    that carries the given code, or whose full text is the given
    description up to letter case; it changes nothing. *)
Lemma find_matching_rule_exact (rule_code : option string)
    (keywords : option (list string)) (description : option string)
    (w w' : world) (r : rule_row) :
  RuleMatcher.find_matching_rule rule_code keywords description w = (Ok (Some r), w') ->
  w' = w
  /\ In r (hls_rules (w_db w))
  /\ ((Text.truthy rule_code = true /\ r_rule_code r = rule_code)
      \/ (exists d, description = Some d
                    /\ Text.lower (r_rule_text r) = Text.lower d)).
Proof.
  intros H. unfold RuleMatcher.find_matching_rule, bind, fetch, ret in H.
  assert (Hcode : forall c x,
             RuleMatcher.select_rule_by_code c (w_db w) = Some x ->
             In x (hls_rules (w_db w)) /\ r_rule_code x = Some c).
  { intros c x Hx. apply find_some in Hx. destruct Hx as [Hin Hp].
    split; [assumption|].
    destruct (r_rule_code x) as [c'|]; [|discriminate].
    apply String.eqb_eq in Hp. now subst. }
  assert (Htext : forall d x,
             RuleMatcher.select_rule_by_lower_text d (w_db w) = Some x ->
             In x (hls_rules (w_db w))
             /\ Text.lower (r_rule_text x) = Text.lower d).
  { intros d x Hx. apply find_some in Hx. destruct Hx as [Hin Hp].
    split; [assumption | now apply String.eqb_eq]. }
  destruct rule_code as [[|a c]|]; destruct description as [[|b d]|];
    cbn [Text.truthy coalesce] in H;
    repeat match type of H with
           | context [RuleMatcher.select_rule_by_code ?c (w_db w)] =>
               let E := fresh "E" in
               destruct (RuleMatcher.select_rule_by_code c (w_db w)) eqn:E
           | context [RuleMatcher.select_rule_by_lower_text ?d (w_db w)] =>
               let E := fresh "E" in
               destruct (RuleMatcher.select_rule_by_lower_text d (w_db w)) eqn:E
           end;
    inversion H; subst;
    (split; [reflexivity|]);
    try (match goal with
         | E : RuleMatcher.select_rule_by_code _ _ = Some _ |- _ =>
             apply Hcode in E; destruct E as [Hin Hc];
             split; [exact Hin | left; split; [reflexivity | exact Hc]]
         end);
    match goal with
    | E : RuleMatcher.select_rule_by_lower_text ?d _ = Some _ |- _ =>
        apply Htext in E; destruct E as [Hin Hc];
        split; [exact Hin | right; exists d; split; [reflexivity | exact Hc]]
    end.
Qed.

(** Without a code, a description that is no rule's full text (up to letter
    case) finds nothing, whatever it is a substring of. *)
Lemma find_matching_rule_not_found (keywords : option (list string))
    (description : string) (w : world) :
  Forall (fun r => Text.lower (r_rule_text r) <> Text.lower description)
         (hls_rules (w_db w)) ->
  RuleMatcher.find_matching_rule None keywords (Some description) w = (Ok None, w).
Proof.
  intros H. unfold RuleMatcher.find_matching_rule, bind, fetch, ret. simpl.
  assert (Hn : RuleMatcher.select_rule_by_lower_text description (w_db w) = None).
  { unfold RuleMatcher.select_rule_by_lower_text.
    induction H as [|x l Hx Hl IH]; simpl; [reflexivity|].
    destruct (String.eqb (Text.lower (r_rule_text x)) (Text.lower description)) eqn:E;
      [apply String.eqb_eq in E; contradiction | exact IH]. }
  destruct description as [|a d]; [reflexivity|]. now rewrite Hn.
Qed.

(** C6.  [record_complete_iteration] resolves a rule application by
    substring.  The application gives no code, the keyword "pipeline" and
    the description "pipeline"; no rule has that full text, and the exact
    matcher [find_matching_rule] finds nothing for it.  The request is
    nevertheless credited to rule P001, whose text contains the keyword:
    one rule effect is recorded and P001 gets the statistics (1, 1, 130). *)
Theorem complete_iteration_matches_by_substring :
  let w := Fir128.world_of Fir128.db_rules_only [] in
  let app :=
    {| ra_rule_code := None; ra_rule_keywords := Some ["pipeline"];
       ra_rule_description := Some "pipeline"; ra_previous_ii := 264;
       ra_current_ii := 134; ra_success := true; ra_category := None |} in
  let data :=
    {| c_project_id := "proj-new"; c_project_name := None;
       c_project_type := "fir";
       c_iteration := {| project_id := "proj-new";
                         approach_description := "pipelined" |};
       c_synthesis_result := {| ii_achieved := 134 |};
       c_rules_applied := [app] |} in
  Forall (fun r => Text.lower (r_rule_text r) <> Text.lower "pipeline")
         (hls_rules (w_db w))
  /\ fst (RuleMatcher.find_matching_rule (ra_rule_code app)
            (ra_rule_keywords app) (ra_rule_description app) w) = Ok None
  /\ match_keywords ["pipeline"] (w_db w) = Some Fir128.rule_P001
  /\ fst (record_complete_iteration data w) = Ok ("uuid-0", 1, "proj-new", 1)
  /\ AggregatorProps.stats "rule-p001" "fir"
       (w_db (snd (record_complete_iteration data w)))
     = Some (1, 1, Some (130 # 1)).
Proof.
  intros w app data. split.
  - repeat constructor; discriminate.
  - repeat split; reflexivity.
Qed.


(** ** Iteration numbers *)

(** The numbers of each project, in the order of insertion, go strictly
    up; in particular no two iterations of a project share a number. *)
Definition numbering_invariant (d : db) : Prop :=
  forall project_id, StronglySorted Z.lt (iteration_numbers project_id d).


Lemma numbering_invariant_empty : numbering_invariant Db.empty.
Proof. intros q. constructor. Qed.

(** Numbers that go strictly up are pairwise distinct. *)
Lemma numbering_unique (d : db) (project_id : uuid) :
  numbering_invariant d -> NoDup (iteration_numbers project_id d).
Proof.
  intros H. specialize (H project_id).
  induction H as [|a l Hs IH Hf]; constructor; [|assumption].
  intros Hin. rewrite Forall_forall in Hf. specialize (Hf a Hin). lia.
Qed.

Lemma fold_max_bounds (l : list Z) (a : Z) :
  a <= fold_left Z.max l a /\ Forall (fun m => m <= fold_left Z.max l a) l.
Proof.
  revert a. induction l as [|x l IH]; intros a; simpl.
  - split; [lia | constructor].
  - destruct (IH (Z.max a x)) as [H1 H2]. split; [lia|].
    constructor; [lia | assumption].
Qed.

Lemma below_next (l : list Z) :
  Forall (fun m => m < coalesce (sql_max l) 0 + 1) l.
Proof.
  destruct l as [|x l]; [constructor|]. simpl.
  destruct (fold_max_bounds l x) as [H1 H2].
  constructor; [lia|].
  eapply Forall_impl; [|exact H2]. simpl. intros m Hm. lia.
Qed.









End MainProps.

(* ================================================================== *)
(** * Further properties of the rollback tool *)

Module RollbackMore.
Import Db Eff LoggerRollback RollbackProps.
Local Open Scope eff_scope.

(** Whether a table holds a row with the given identifier. *)
Definition present (table : string) (id : uuid) (d : db) : bool :=
  if String.eqb table "synthesis_results" then
    existsb (fun r => String.eqb (sr_id r) id) (synthesis_results d)
  else if String.eqb table "rules_effectiveness" then
    existsb (fun r => String.eqb (re_id r) id) (rules_effectiveness d)
  else if String.eqb table "design_iterations" then
    existsb (fun r => String.eqb (di_id r) id) (design_iterations d)
  else if String.eqb table "design_patterns" then
    existsb (fun r => String.eqb (dp_id r) id) (design_patterns d)
  else if String.eqb table "projects" then
    existsb (fun r => String.eqb (p_id r) id) (projects d)
  else false.

(** Every row of [d'] is a row of [d], and the rules are the same. *)
Definition sub_db (d' d : db) : Prop :=
  incl (projects d') (projects d)
  /\ incl (design_iterations d') (design_iterations d)
  /\ incl (synthesis_results d') (synthesis_results d)
  /\ incl (rules_effectiveness d') (rules_effectiveness d)
  /\ incl (design_patterns d') (design_patterns d)
  /\ hls_rules d' = hls_rules d.

Lemma sub_db_refl (d : db) : sub_db d d.
Proof. repeat split; apply incl_refl. Qed.

Lemma sub_db_trans (d1 d2 d3 : db) : sub_db d1 d2 -> sub_db d2 d3 -> sub_db d1 d3.
Proof.
  intros (A & B & C & D & E & F) (A' & B' & C' & D' & E' & F').
  repeat split; try (eapply incl_tran; eassumption). congruence.
Qed.

Lemma incl_filter {A : Type} (p : A -> bool) (l : list A) : incl (filter p l) l.
Proof. intros x Hx. now apply filter_In in Hx. Qed.

Lemma existsb_incl_false {A : Type} (p : A -> bool) (l' l : list A) :
  incl l' l -> existsb p l = false -> existsb p l' = false.
Proof.
  intros Hi Hf. destruct (existsb p l') eqn:E; [|reflexivity].
  apply existsb_exists in E. destruct E as [x [Hx Hp]].
  assert (Ht : existsb p l = true)
    by (apply existsb_exists; exists x; split; [now apply Hi | assumption]).
  congruence.
Qed.

Lemma filter_negb_same {A : Type} (p : A -> bool) (l : list A) :
  existsb p l = false -> filter (fun x => negb (p x)) l = l.
Proof.
  induction l as [|x l IH]; simpl; [reflexivity|].
  intros H. apply orb_false_iff in H. destruct H as [H1 H2].
  rewrite H1. simpl. now rewrite IH.
Qed.

Lemma existsb_filter_negb {A : Type} (p : A -> bool) (l : list A) :
  existsb p (filter (fun x => negb (p x)) l) = false.
Proof.
  induction l as [|x l IH]; simpl; [reflexivity|].
  destruct (p x) eqn:E; simpl; [assumption | now rewrite E].
Qed.

Lemma db_eta (d : db) :
  {| projects := projects d; design_iterations := design_iterations d;
     synthesis_results := synthesis_results d; hls_rules := hls_rules d;
     rules_effectiveness := rules_effectiveness d;
     design_patterns := design_patterns d |} = d.
Proof. now destruct d. Qed.

(** Case analysis on the table name of a DELETE. *)
Ltac split_table t :=
  destruct (String.eqb t "synthesis_results") eqn:?E1;
  [ apply String.eqb_eq in E1; subst t
  | destruct (String.eqb t "rules_effectiveness") eqn:?E2;
    [ apply String.eqb_eq in E2; subst t
    | destruct (String.eqb t "design_iterations") eqn:?E3;
      [ apply String.eqb_eq in E3; subst t
      | destruct (String.eqb t "design_patterns") eqn:?E4;
        [ apply String.eqb_eq in E4; subst t
        | destruct (String.eqb t "projects") eqn:?E5;
          [ apply String.eqb_eq in E5; subst t | ] ] ] ] ].

(** A DELETE only takes rows away, and never from [hls_rules]. *)
Lemma exec_delete_sub (table : string) (id : uuid) (d d' : db) :
  exec_delete table id d = Ok d' -> sub_db d' d.
Proof.
  unfold exec_delete. intros H.
  repeat match type of H with
         | (if ?c then _ else _) = _ => destruct c
         end;
    try discriminate; inversion H; subst; unfold sub_db; simpl;
    repeat split; first [apply incl_refl | apply incl_filter].
Qed.

(** After a DELETE the row is not there. *)
Lemma exec_delete_removes (table : string) (id : uuid) (d d' : db) :
  exec_delete table id d = Ok d' -> present table id d' = false.
Proof.
  unfold exec_delete, present. intros H.
  split_table table; cbn in H |- *;
    repeat match type of H with
           | (if ?c then _ else _) = _ => destruct c
           end;
    try discriminate; inversion H; subst; cbn;
    try apply (existsb_filter_negb (fun r => String.eqb (sr_id r) id));
    try apply (existsb_filter_negb (fun r => String.eqb (re_id r) id));
    try apply (existsb_filter_negb (fun r => String.eqb (di_id r) id));
    try apply (existsb_filter_negb (fun r => String.eqb (dp_id r) id));
    try apply (existsb_filter_negb (fun r => String.eqb (p_id r) id)).
Qed.

(** Deleting a row that is not there changes nothing and raises nothing. *)
Lemma exec_delete_absent (table : string) (id : uuid) (d : db) :
  declared table = true -> present table id d = false ->
  exec_delete table id d = Ok d.
Proof.
  unfold exec_delete, present. intros Hd Hp.
  split_table table; cbn in Hp |- *;
    try (rewrite Hp; cbn);
    try (rewrite (filter_negb_same _ _ Hp));
    try (unfold with_synthesis_results, with_rules_effectiveness,
           with_design_iterations, with_design_patterns, with_projects;
         now rewrite db_eta).
  unfold declared, ROLLBACK_ORDER in Hd. cbn [existsb] in Hd.
  rewrite E1, E2, E3, E4, E5 in Hd. discriminate.
Qed.

Lemma present_sub (table : string) (id : uuid) (d' d : db) :
  sub_db d' d -> present table id d = false -> present table id d' = false.
Proof.
  intros (A & B & C & D & E & _). unfold present.
  repeat match goal with
         | |- context [if ?c then _ else _] => destruct c
         end; try reflexivity; now apply existsb_incl_false.
Qed.

Lemma for_each_delete_sub (l : list log_record) (w w1 : world) (res : result unit) :
  for_each l delete_record w = (res, w1) -> sub_db (w_db w1) (w_db w).
Proof.
  revert w. induction l as [|r l IH]; intros w H; simpl in H.
  - inversion H. apply sub_db_refl.
  - unfold bind, delete_record, execute in H.
    destruct (exec_delete (lr_table r) (lr_id r) (w_db w)) as [d|e] eqn:E.
    + apply IH in H. simpl in H.
      eapply sub_db_trans; [exact H | now apply exec_delete_sub in E].
    + inversion H. apply sub_db_refl.
Qed.

(** Once a sequence of deletions has gone through, none of its rows is
    there. *)
Lemma for_each_delete_absent (l : list log_record) (w w1 : world) :
  for_each l delete_record w = (Ok tt, w1) ->
  Forall (fun r => present (lr_table r) (lr_id r) (w_db w1) = false) l.
Proof.
  revert w. induction l as [|r l IH]; intros w H; simpl in H; [constructor|].
  unfold bind, delete_record, execute in H.
  destruct (exec_delete (lr_table r) (lr_id r) (w_db w)) as [d|e] eqn:E;
    [|discriminate].
  constructor.
  - apply for_each_delete_sub in H. simpl in H.
    eapply present_sub; [exact H | now apply exec_delete_removes in E].
  - now apply IH in H.
Qed.

(** Deleting rows that are not there leaves the world as it is. *)
Lemma for_each_delete_noop (l : list log_record) (w : world) :
  Forall (fun r => declared (lr_table r) = true) l ->
  Forall (fun r => present (lr_table r) (lr_id r) (w_db w) = false) l ->
  for_each l delete_record w = (Ok tt, w).
Proof.
  induction l as [|r l IH]; intros Hd Hp; simpl; [reflexivity|].
  inversion Hd; subst. inversion Hp; subst.
  unfold bind, delete_record, execute.
  rewrite exec_delete_absent by assumption.
  rewrite set_db_same. now apply IH.
Qed.

Lemma deletion_sequence_declared (records : list log_record) :
  Forall (fun r => declared (lr_table r) = true) (deletion_sequence records).
Proof.
  apply Forall_forall. intros r Hr. unfold deletion_sequence in Hr.
  apply in_flat_map in Hr. destruct Hr as [t [Ht Hr]].
  apply determine_order_In in Ht. apply table_records_In in Hr.
  destruct Hr as [_ ->]. now apply declared_In.
Qed.


(** X1.  A dry run changes nothing: whatever the log file, the status of
    the log and the operator's answers, [rollback] with [dry_run] leaves
    the database and every log file as they are; and for a readable log
    that is not completed it answers [True] without asking anything. *)
Theorem dry_run_changes_nothing (w : world) (log_file : string) :
  w_db (snd (rollback log_file true w)) = w_db w
  /\ w_files (snd (rollback log_file true w)) = w_files w
  /\ (forall ld, w_files w log_file = Some ld -> is_completed ld = false ->
                 rollback log_file true w = (Ok true, w)).
Proof.
  unfold rollback, bind, fetch_log, input, ret.
  destruct (w_files w log_file) as [ld|] eqn:Hf.
  - destruct (is_completed ld) eqn:Hc.
    + destruct (w_stdin w) as [|line rest]; cbn.
      * repeat split. intros ld' H. inversion H; subst. congruence.
      * destruct (Text.affirmative line); cbn;
          (repeat split; intros ld' H; inversion H; subst; congruence).
    + cbn. repeat split.
  - cbn. repeat split. intros ld H. discriminate.
Qed.

(** X2.  What the answer [True] of [_execute_rollback] means.  When the
    execution answers [True], rows have only been taken away, never from
    [hls_rules]; no record of the deletion sequence is in the database any
    more; the log file holds the same records with status completed; no
    other file has changed. *)
Theorem execute_rollback_true (w w' : world) (ld : log_data) (log_file : string) :
  _execute_rollback ld log_file w = (Ok true, w') ->
  sub_db (w_db w') (w_db w)
  /\ Forall (fun r => present (lr_table r) (lr_id r) (w_db w') = false)
            (deletion_sequence (ld_inserted_records ld))
  /\ option_map ld_rollback_status (w_files w' log_file)
     = Some (Some "completed")
  /\ option_map ld_inserted_records (w_files w' log_file)
     = Some (ld_inserted_records ld)
  /\ (forall path, String.eqb path log_file = false ->
                   w_files w' path = w_files w path).
Proof.
  intros Hrun.
  destruct (for_each (deletion_sequence (ld_inserted_records ld)) delete_record w)
    as [[[]|e] w1] eqn:H.
  - rewrite (execute_rollback_commits ld log_file w w1 H) in Hrun.
    unfold _update_log_status, bind, now, write_log, ret in Hrun. cbn in Hrun.
    inversion Hrun; subst w'; clear Hrun. cbn.
    split; [now apply for_each_delete_sub in H|].
    split; [now apply for_each_delete_absent in H|].
    rewrite String.eqb_refl. cbn. split; [reflexivity|]. split; [reflexivity|].
    intros path Hp. rewrite Hp.
    apply for_each_delete_frame in H. now rewrite H.
  - exfalso. unfold _execute_rollback, try_except, transaction in Hrun.
    unfold bind at 1 in Hrun. rewrite rollback_body_sequence, H in Hrun.
    unfold ret in Hrun. discriminate.
Qed.

(** Witness for X2: the log of iteration 3 of FIR128 and its synthesis
    result. *)
Lemma execute_rollback_true_witness :
  let ld := Fir128.log_of [Fir128.entry "design_iterations" "iter-3";
                           Fir128.entry "synthesis_results" "syn-3"] "pending" in
  let w := Fir128.with_file (Fir128.world_of Fir128.db0 []) "logs/r.yaml" ld in
  let w' := snd (_execute_rollback ld "logs/r.yaml" w) in
  _execute_rollback ld "logs/r.yaml" w = (Ok true, w')
  /\ sub_db (w_db w') Fir128.db0
  /\ present "design_iterations" "iter-3" (w_db w') = false
  /\ option_map ld_rollback_status (w_files w' "logs/r.yaml")
     = Some (Some "completed").
Proof.
  intros ld w w'.
  assert (Hrun : _execute_rollback ld "logs/r.yaml" w = (Ok true, w'))
    by reflexivity.
  destruct (execute_rollback_true w w' ld "logs/r.yaml" Hrun)
    as (Hsub & Habs & Hst & _).
  split; [exact Hrun|]. split; [exact Hsub|]. split; [|exact Hst].
  reflexivity.
Defined.

(** X3.  Replaying a log is harmless.  If [_execute_rollback] has gone
    through for a log, then running it again for the same records (the
    rewritten log, say, after the operator's override) goes through as
    well and deletes nothing: a DELETE of a row that is not there is no
    error. *)
Theorem rollback_replay_harmless (w w1 : world) (ld ld' : log_data)
    (log_file : string) :
  _execute_rollback ld log_file w = (Ok true, w1) ->
  ld_inserted_records ld' = ld_inserted_records ld ->
  exists w2,
    _execute_rollback ld' log_file w1 = (Ok true, w2) /\ w_db w2 = w_db w1.
Proof.
  intros Hrun Hrec.
  destruct (for_each (deletion_sequence (ld_inserted_records ld)) delete_record w)
    as [[[]|e] w0] eqn:H.
  - rewrite (execute_rollback_commits ld log_file w w0 H) in Hrun.
    unfold _update_log_status, bind, now, write_log, ret in Hrun. cbn in Hrun.
    assert (Hdb : w_db w1 = w_db w0) by (inversion Hrun; reflexivity).
    apply for_each_delete_absent in H. rewrite <- Hdb, <- Hrec in H.
    pose proof (for_each_delete_noop _ w1
                  (deletion_sequence_declared (ld_inserted_records ld')) H) as Hn.
    rewrite (execute_rollback_commits ld' log_file w1 w1 Hn).
    unfold _update_log_status, bind, now, write_log, ret. cbn.
    eexists. split; reflexivity.
  - exfalso. unfold _execute_rollback, try_except, transaction in Hrun.
    unfold bind at 1 in Hrun. rewrite rollback_body_sequence, H in Hrun.
    unfold ret in Hrun. discriminate.
Qed.

(** Witness for X3: the log of iteration 3 of FIR128 and its synthesis
    result. *)
Lemma rollback_replay_harmless_witness :
  let ld := Fir128.log_of [Fir128.entry "design_iterations" "iter-3";
                           Fir128.entry "synthesis_results" "syn-3"] "pending" in
  let w := Fir128.with_file (Fir128.world_of Fir128.db0 []) "logs/r.yaml" ld in
  let w1 := snd (_execute_rollback ld "logs/r.yaml" w) in
  exists w2,
    _execute_rollback ld "logs/r.yaml" w1 = (Ok true, w2) /\ w_db w2 = w_db w1.
Proof.
  intros ld w w1.
  apply (rollback_replay_harmless w w1 ld ld "logs/r.yaml"); reflexivity.
Defined.

(** X4.  Every entry of a declared table is deleted exactly once: the
    deletion sequence is a rearrangement of the log's entries of declared
    tables, an entry listed twice being deleted twice. *)
Theorem deletion_sequence_permutation (records : list log_record) :
  Permutation (deletion_sequence records) (known_records records).
Proof.
  rewrite deletion_sequence_unfold. unfold known_records, table_records.
  induction records as [|r rs IH]; [constructor|].
  cbn [filter]. unfold declared at 1, ROLLBACK_ORDER. cbn [existsb].
  destruct (String.eqb (lr_table r) "synthesis_results") eqn:E1;
    [apply String.eqb_eq in E1; rewrite ?E1; cbn;
     apply perm_skip; exact IH|].
  destruct (String.eqb (lr_table r) "rules_effectiveness") eqn:E2;
    [apply String.eqb_eq in E2; rewrite ?E2; cbn;
     rewrite <- !Permutation_middle; apply perm_skip; exact IH|].
  destruct (String.eqb (lr_table r) "design_iterations") eqn:E3;
    [apply String.eqb_eq in E3; rewrite ?E3; cbn;
     rewrite <- !Permutation_middle; apply perm_skip; exact IH|].
  destruct (String.eqb (lr_table r) "design_patterns") eqn:E4;
    [apply String.eqb_eq in E4; rewrite ?E4; cbn;
     rewrite <- !Permutation_middle; apply perm_skip; exact IH|].
  destruct (String.eqb (lr_table r) "projects") eqn:E5;
    [apply String.eqb_eq in E5; rewrite ?E5; cbn;
     rewrite <- !Permutation_middle; apply perm_skip; exact IH|].
  cbn. exact IH.
Qed.

End RollbackMore.

(* ================================================================== *)
(** * Further properties of the logger *)

Module LoggerMore.
Import Db Eff LoggerRollback LoggerRecent RollbackProps.
Local Open Scope eff_scope.

(** ** The per-table counts of the summaries *)

Definition count_of (table : string) (counts : list (string * Z)) : Z :=
  match find (fun kc => String.eqb (fst kc) table) counts with
  | Some kc => snd kc
  | None => 0
  end.

Definition total (counts : list (string * Z)) : Z :=
  fold_right (fun kc acc => snd kc + acc) 0 counts.

Lemma bump_count (t t' : string) (cs : list (string * Z)) :
  count_of t' (bump t cs) = count_of t' cs + (if String.eqb t t' then 1 else 0).
Proof.
  unfold count_of. induction cs as [|[k c] rest IH]; cbn.
  - destruct (String.eqb t t'); reflexivity.
  - destruct (String.eqb k t) eqn:Ekt; cbn.
    + apply String.eqb_eq in Ekt. subst k.
      destruct (String.eqb t t'); cbn [snd]; lia.
    + destruct (String.eqb k t') eqn:Ek; [|exact IH].
      apply String.eqb_eq in Ek. subst k.
      rewrite String.eqb_sym, Ekt. cbn [snd]. lia.
Qed.

Lemma bump_keys (t k : string) (cs : list (string * Z)) :
  In k (map fst (bump t cs)) <-> k = t \/ In k (map fst cs).
Proof.
  induction cs as [|[k' c] rest IH]; cbn.
  - intuition.
  - destruct (String.eqb k' t) eqn:E; cbn.
    + apply String.eqb_eq in E. subst k'. intuition.
    + rewrite IH. intuition.
Qed.

Lemma bump_NoDup (t : string) (cs : list (string * Z)) :
  NoDup (map fst cs) -> NoDup (map fst (bump t cs)).
Proof.
  induction cs as [|[k c] rest IH]; cbn; intros H.
  - repeat constructor. intros [].
  - inversion H as [|x l Hx Hl]; subst.
    destruct (String.eqb k t) eqn:E; cbn.
    + now constructor.
    + constructor; [|now apply IH].
      rewrite bump_keys. intros [Hk|Hk]; [|contradiction].
      subst k. now rewrite String.eqb_refl in E.
Qed.

Lemma bump_total (t : string) (cs : list (string * Z)) :
  total (bump t cs) = total cs + 1.
Proof.
  unfold total. induction cs as [|[k c] rest IH]; cbn [bump fold_right snd];
    [reflexivity|].
  destruct (String.eqb k t); cbn [fold_right snd]; [lia | rewrite IH; lia].
Qed.

Lemma count_of_In (t : string) (c : Z) (cs : list (string * Z)) :
  NoDup (map fst cs) -> In (t, c) cs -> count_of t cs = c.
Proof.
  unfold count_of. induction cs as [|[k c'] rest IH]; cbn; intros Hn Hi; [easy|].
  inversion Hn as [|x l Hx Hl]; subst.
  destruct Hi as [Hi|Hi].
  - inversion Hi; subst. now rewrite String.eqb_refl.
  - destruct (String.eqb k t) eqn:E; [|now apply IH].
    apply String.eqb_eq in E. subst k. exfalso. apply Hx.
    apply in_map_iff. now exists (t, c).
Qed.

Lemma counts_fold (records : list log_record) (acc : list (string * Z)) :
  let counts := fold_left (fun cs r => bump (lr_table r) cs) records acc in
  (NoDup (map fst acc) -> NoDup (map fst counts))
  /\ (forall t, count_of t counts =
                count_of t acc + Z.of_nat (List.length (table_records records t)))
  /\ (forall t, In t (map fst counts) <->
                In t (map fst acc) \/ In t (map lr_table records))
  /\ total counts = total acc + Z.of_nat (List.length records).
Proof.
  revert acc. induction records as [|r rs IH]; intros acc;
    cbn [fold_left map List.length].
  - unfold table_records. cbn [filter List.length In].
    repeat split; try tauto; intros; lia.
  - destruct (IH (bump (lr_table r) acc)) as (H1 & H2 & H3 & H4).
    split; [intros Hn; apply H1; now apply bump_NoDup|].
    split; [|split].
    + intros t. rewrite H2, bump_count. unfold table_records. cbn [filter].
      destruct (String.eqb (lr_table r) t); cbn [List.length]; lia.
    + intros t. rewrite H3, bump_keys. cbn [In].
      split; intros H; repeat (destruct H as [H|H]); subst; auto.
    + rewrite H4, bump_total. lia.
Qed.

(** X5.  The per-table counts shown to the operator are exact: each table
    of the log is listed once, with the number of the log's records of
    that table, and the counts add up to the number of records. *)
Theorem table_counts_exact (records : list log_record) :
  NoDup (map fst (table_counts records))
  /\ (forall t, In t (map fst (table_counts records)) <->
                In t (map lr_table records))
  /\ (forall t c, In (t, c) (table_counts records) ->
                  c = Z.of_nat (List.length (table_records records t)))
  /\ total (table_counts records) = Z.of_nat (List.length records).
Proof.
  unfold table_counts.
  destruct (counts_fold records []) as (H1 & H2 & H3 & H4). cbn in *.
  split; [apply H1; constructor|].
  split; [intros t; rewrite H3; tauto|].
  split; [|exact H4].
  intros t c Hin. rewrite <- (count_of_In t c _ (H1 (NoDup_nil _)) Hin).
  now rewrite H2.
Qed.

(** ** [logger_recent] *)

Lemma insert_by_desc_perm {A : Type} (key : A -> Z) (r : A) (l : list A) :
  Permutation (insert_by_desc key r l) (r :: l).
Proof.
  induction l as [|x t IH]; cbn; [reflexivity|].
  destruct (key x <? key r); [reflexivity|].
  rewrite IH. apply perm_swap.
Qed.

Lemma sort_by_desc_perm {A : Type} (key : A -> Z) (l : list A) :
  Permutation (sort_by_desc key l) l.
Proof.
  induction l as [|x t IH]; cbn; [reflexivity|].
  rewrite insert_by_desc_perm. now apply perm_skip.
Qed.

Lemma table_records_map_const {A : Type} (f : A -> log_record) (c : string)
    (l : list A) (t : string) :
  (forall x, lr_table (f x) = c) ->
  table_records (map f l) t = if String.eqb c t then map f l else [].
Proof.
  intros H. unfold table_records.
  induction l as [|x l IH]; cbn [map filter].
  - now destruct (String.eqb c t).
  - rewrite H, IH. now destruct (String.eqb c t).
Qed.

(** The records that [logger_recent] collects. *)
Definition recent_log (cutoff : timestamp) (d : db) : list log_record :=
  flat_map (fun table => recent_records table cutoff d) ROLLBACK_TABLES.

Lemma recent_log_tables (cutoff : timestamp) (d : db) :
  let records := recent_log cutoff d in
  table_records records "design_iterations"
    = recent_records "design_iterations" cutoff d
  /\ table_records records "design_patterns"
     = recent_records "design_patterns" cutoff d
  /\ table_records records "projects" = recent_records "projects" cutoff d
  /\ table_records records "rules_effectiveness"
     = recent_records "rules_effectiveness" cutoff d
  /\ table_records records "synthesis_results"
     = recent_records "synthesis_results" cutoff d.
Proof.
  unfold recent_log, ROLLBACK_TABLES. cbn [flat_map].
  unfold recent_records. cbn [String.eqb Ascii.eqb Bool.eqb].
  repeat split;
    rewrite !table_records_app;
    rewrite (table_records_map_const _ "design_iterations") by reflexivity;
    rewrite (table_records_map_const _ "design_patterns") by reflexivity;
    rewrite (table_records_map_const _ "projects") by reflexivity;
    rewrite (table_records_map_const _ "rules_effectiveness") by reflexivity;
    rewrite (table_records_map_const _ "synthesis_results") by reflexivity;
    cbn [String.eqb Ascii.eqb Bool.eqb app];
    rewrite ?app_nil_r; reflexivity.
Qed.


(** Writing a log never touches the database. *)
Lemma generate_log_file_db (force : bool) (name ty : string) (iteration : option Z)
    (records : list log_record) (notes : string) (w : world) :
  w_db (snd (_generate_log_file force name ty iteration records notes w)) = w_db w.
Proof.
  unfold _generate_log_file, bind, now, _check_duplicate_log, input, write_log, ret.
  destruct (w_glob w _ && w_glob w _ && negb force); cbn; [|reflexivity].
  destruct (w_stdin w) as [|line rest]; cbn; [reflexivity|].
  now destruct (Text.affirmative line).
Qed.

Lemma filter_none {A : Type} (p : A -> bool) (l : list A) :
  (forall x, In x l -> p x = false) -> filter p l = [].
Proof.
  induction l as [|x l IH]; intros H; cbn; [reflexivity|].
  rewrite (H x (or_introl eq_refl)). apply IH. intros y Hy. apply H. now right.
Qed.

Lemma recent_log_declared (cutoff : timestamp) (d : db) :
  Forall (fun r => declared (lr_table r) = true) (recent_log cutoff d).
Proof.
  apply Forall_forall. intros r Hr. unfold recent_log in Hr.
  apply in_flat_map in Hr. destruct Hr as [t [Ht Hr]].
  unfold ROLLBACK_TABLES in Ht. cbn [In] in Ht.
  repeat (destruct Ht as [Ht|Ht];
          [subst t; unfold recent_records in Hr;
           cbn [String.eqb Ascii.eqb Bool.eqb] in Hr;
           apply in_map_iff in Hr; destruct Hr as [x [Hx _]]; subst r;
           reflexivity|]).
  destruct Ht.
Qed.

(** X6.  What [logger_recent] logs.  It never changes the database; when
    no row of the five tables is newer than the cut-off it answers [None]
    and writes nothing; a log it writes holds, for each table, exactly the
    rows newer than the cut-off (by [last_applied_at] for
    rules_effectiveness, by [created_at] otherwise), each once; every
    record is of a table in the declared rollback order, so a rollback of
    the log skips none, and [hls_rules] is never logged. *)
Theorem logger_recent_contents (w : world) (force : bool) (hours : Z) :
  let cutoff := w_clock w - 3600 * hours in
  let records := recent_log cutoff (w_db w) in
  let out := logger_recent force hours w in
  w_db (snd out) = w_db w
  /\ (records = [] -> out = (Ok None, w))
  /\ (forall path, fst out = Ok (Some path) ->
        option_map ld_inserted_records (w_files (snd out) path) = Some records)
  /\ Forall (fun r => declared (lr_table r) = true) records
  /\ table_records records "hls_rules" = []
  /\ Permutation (map lr_id (table_records records "projects"))
       (map p_id (filter (fun r => cutoff <? p_created_at r) (projects (w_db w))))
  /\ Permutation (map lr_id (table_records records "design_iterations"))
       (map di_id (filter (fun r => cutoff <? di_created_at r)
                          (design_iterations (w_db w))))
  /\ Permutation (map lr_id (table_records records "synthesis_results"))
       (map sr_id (filter (fun r => cutoff <? sr_created_at r)
                          (synthesis_results (w_db w))))
  /\ Permutation (map lr_id (table_records records "rules_effectiveness"))
       (map re_id (filter (fun r => cutoff <? re_last_applied_at r)
                          (rules_effectiveness (w_db w))))
  /\ Permutation (map lr_id (table_records records "design_patterns"))
       (map dp_id (filter (fun r => cutoff <? dp_created_at r)
                          (design_patterns (w_db w)))).
Proof.
  intros cutoff records out.
  assert (Hout : out = match records with
                       | [] => (Ok None, w)
                       | _ :: _ =>
                           _generate_log_file force "RECENT" "mixed" None records
                             ("Recent imports from last " ++ show_Z hours
                              ++ ".0 hour(s)") w
                       end).
  { subst out. unfold logger_recent, bind, now, fetch. fold cutoff.
    change (flat_map (fun table => recent_records table cutoff (w_db w))
                     ROLLBACK_TABLES) with records.
    now destruct records. }
  split.
  { rewrite Hout. destruct records; [reflexivity|]. apply generate_log_file_db. }
  split.
  { intros He. rewrite Hout, He. reflexivity. }
  split.
  { intros path Hp. rewrite Hout in Hp |- *.
    destruct records as [|r0 rs] eqn:Hr; [discriminate|].
    destruct (_generate_log_file force "RECENT" "mixed" None (r0 :: rs)
                ("Recent imports from last " ++ show_Z hours ++ ".0 hour(s)") w)
      as [res w'] eqn:Hg.
    cbn in Hp. subst res.
    apply LoggerProps.generate_log_file_written in Hg.
    destruct Hg as (_ & ld & Hf & Hrec & _). cbn. rewrite Hf. cbn.
    now rewrite Hrec. }
  split; [apply recent_log_declared|].
  split.
  { unfold table_records. apply filter_none. intros r Hr.
    pose proof (recent_log_declared cutoff (w_db w)) as Hd.
    rewrite Forall_forall in Hd. specialize (Hd r Hr).
    destruct (String.eqb (lr_table r) "hls_rules") eqn:E; [|reflexivity].
    apply String.eqb_eq in E. rewrite E in Hd. discriminate. }
  destruct (recent_log_tables cutoff (w_db w)) as (Hi & Hpat & Hpr & He & Hs).
  fold records in Hi, Hpat, Hpr, He, Hs.
  rewrite Hi, Hpat, Hpr, He, Hs. unfold recent_records.
  cbn [String.eqb Ascii.eqb Bool.eqb]. rewrite !map_map. cbn [lr_id].
  unfold select_recent.
  repeat split; apply Permutation_map, sort_by_desc_perm.
Qed.

(** ** [logger_by_project] and the duplicate guard *)

Lemma newest_project_acc (rows : list project_row) (acc : option project_row)
    (p : project_row) :
  fold_left
    (fun best r =>
       match best with
       | None => Some r
       | Some b => if p_created_at b <? p_created_at r then Some r else Some b
       end)
    rows acc = Some p ->
  In p rows \/ acc = Some p.
Proof.
  revert acc. induction rows as [|x rows IH]; intros acc H; cbn in H.
  - now right.
  - apply IH in H. destruct H as [H|H]; [left; now right|].
    destruct acc as [b|].
    + destruct (p_created_at b <? p_created_at x).
      * left. left. congruence.
      * now right.
    + left. left. congruence.
Qed.

Lemma select_project_by_name_found (name : string) (d : db) (p : project_row) :
  select_project_by_name name d = Some p -> In p (projects d) /\ p_name p = name.
Proof.
  unfold select_project_by_name, newest_project. intros H.
  apply newest_project_acc in H. destruct H as [H|H]; [|discriminate].
  apply filter_In in H. destruct H as [Hin He].
  now apply String.eqb_eq in He.
Qed.

(** X7.  [logger_by_project] only reads the database.  For an unknown
    project name, or a project without a matching iteration, it answers
    [None] and leaves the world as it is; when it answers with a path, the
    project logged is a row of [projects] that bears the requested name and
    that has at least one matching iteration. *)
Theorem logger_by_project_guards (w : world) (force : bool) (name : string)
    (iteration : option Z) :
  let out := logger_by_project force name iteration w in
  w_db (snd out) = w_db w
  /\ (select_project_by_name name (w_db w) = None -> out = (Ok None, w))
  /\ (forall project,
         select_project_by_name name (w_db w) = Some project ->
         select_iterations (p_id project) iteration (w_db w) = [] ->
         out = (Ok None, w))
  /\ (forall path,
         fst out = Ok (Some path) ->
         exists project,
           In project (projects (w_db w)) /\ p_name project = name
           /\ select_iterations (p_id project) iteration (w_db w) <> []).
Proof.
  intros out. subst out. unfold logger_by_project, bind, fetch.
  destruct (select_project_by_name name (w_db w)) as [project|] eqn:Hp.
  - destruct (select_iterations (p_id project) iteration (w_db w))
      as [|it its] eqn:Hits.
    + cbn. repeat split; intros; try discriminate; reflexivity.
    + split; [apply generate_log_file_db|].
      split; [discriminate|]. split.
      * intros project' H. inversion H; subst. congruence.
      * intros path _. exists project.
        apply select_project_by_name_found in Hp. destruct Hp as [Hin Hn].
        repeat split; try assumption. rewrite Hits. discriminate.
  - cbn. repeat split; intros; try discriminate; reflexivity.
Qed.

(** The glob patterns of [_generate_log_file]: the one tested by
    [_check_duplicate_log] and the one listed afterwards. *)
Definition duplicate_pattern (name : string) (iteration : option Z) : string :=
  if truthy_Z iteration
  then "rollback_" ++ name ++ "_iter" ++ show_opt_Z iteration ++ "_*.yaml"
  else "rollback_" ++ name ++ "_*.yaml".

Definition existing_pattern (name : string) (iteration : option Z) : string :=
  "rollback_" ++ name ++ "_iter" ++ show_opt_Z iteration ++ "_*.yaml".

(** X8.  The duplicate guard of [_generate_log_file].  The operator is
    asked only when both glob patterns match a file and [force] is off; an
    answer other than y or yes then cancels: [None], no file written.  In
    every other case the log is written without reading the terminal, as a
    pending log with the given records.  For a log without iteration number
    the second pattern reads ..._iterNone_*.yaml. *)
Theorem duplicate_log_guard (w : world) (force : bool) (name ty : string)
    (iteration : option Z) (records : list log_record) (notes : string) :
  let asked := w_glob w (duplicate_pattern name iteration)
               && w_glob w (existing_pattern name iteration) && negb force in
  let out := _generate_log_file force name ty iteration records notes w in
  (asked = false ->
   exists path,
     fst out = Ok (Some path)
     /\ w_stdin (snd out) = w_stdin w
     /\ option_map ld_inserted_records (w_files (snd out) path) = Some records
     /\ option_map ld_rollback_status (w_files (snd out) path)
        = Some (Some "pending"))
  /\ (asked = true ->
      forall line rest,
        w_stdin w = line :: rest -> Text.affirmative line = false ->
        fst out = Ok None /\ w_files (snd out) = w_files w
        /\ w_db (snd out) = w_db w)
  /\ existing_pattern name None = "rollback_" ++ name ++ "_iterNone_*.yaml".
Proof.
  intros asked out. subst asked out.
  unfold _generate_log_file, bind, now, _check_duplicate_log, input, write_log, ret.
  fold (duplicate_pattern name iteration). fold (existing_pattern name iteration).
  split; [|split].
  - intros Ha. rewrite Ha. cbn. eexists. split; [reflexivity|].
    rewrite String.eqb_refl. cbn. repeat split.
  - intros Ha line rest Hin Hno. rewrite Ha, Hin. cbn. rewrite Hno. cbn.
    repeat split.
  - reflexivity.
Qed.

End LoggerMore.

(* ================================================================== *)
(** * Logger and rollback together *)

Module LoggerRollbackTogether.
Import Db Eff LoggerRollback RollbackProps RollbackMore LoggerProps.
Local Open Scope eff_scope.

Lemma for_each_then {A : Type} (l1 l2 : list A) (body : A -> M unit)
    (w w1 : world) :
  for_each l1 body w = (Ok tt, w1) ->
  for_each (l1 ++ l2) body w = for_each l2 body w1.
Proof. intros H. rewrite for_each_app. unfold bind. now rewrite H. Qed.

(** Rows of synthesis_results and rules_effectiveness can always be
    deleted: nothing refers to them. *)
Lemma for_each_delete_free (l : list log_record) (w : world) :
  Forall (fun r => lr_table r = "synthesis_results"
                   \/ lr_table r = "rules_effectiveness") l ->
  exists w1, for_each l delete_record w = (Ok tt, w1).
Proof.
  revert w. induction l as [|r l IH]; intros w H; cbn.
  - now exists w.
  - inversion H as [|x y Hr Hl]; subst.
    unfold bind, delete_record, execute.
    destruct Hr as [Hr|Hr]; rewrite Hr; cbn; apply IH; assumption.
Qed.

(** Iterations can be deleted once no synthesis result refers to them. *)
Lemma delete_iterations_ok (its : list iteration_row) (w : world) :
  Forall (fun it =>
            existsb (fun s => String.eqb (sr_iteration_id s) (di_id it))
                    (synthesis_results (w_db w)) = false) its ->
  exists w1, for_each (map iteration_record its) delete_record w = (Ok tt, w1).
Proof.
  revert w. induction its as [|it its IH]; intros w H; cbn [map for_each].
  - now exists w.
  - inversion H as [|x y Hit Hl]; subst.
    unfold bind, delete_record, execute. cbn [lr_table lr_id iteration_record].
    unfold exec_delete. cbn [String.eqb Ascii.eqb Bool.eqb].
    rewrite Hit, andb_false_r. apply IH. cbn. exact Hl.
Qed.

(** A project can be deleted once no iteration refers to it. *)
Lemma delete_project_ok (p : project_row) (w : world) :
  existsb (fun i => String.eqb (di_project_id i) (p_id p))
          (design_iterations (w_db w)) = false ->
  exists w1, for_each [project_record p] delete_record w = (Ok tt, w1).
Proof.
  intros H. cbn [for_each]. unfold bind, delete_record, execute, ret.
  cbn [lr_table lr_id project_record].
  unfold exec_delete. cbn [String.eqb Ascii.eqb Bool.eqb].
  rewrite H, andb_false_r. eexists. reflexivity.
Qed.

Lemma present_In_synthesis (s : synthesis_row) (d : db) :
  In s (synthesis_results d) -> present "synthesis_results" (sr_id s) d = true.
Proof.
  intros H. unfold present. cbn [String.eqb Ascii.eqb Bool.eqb].
  apply existsb_exists. exists s. split; [assumption | apply String.eqb_refl].
Qed.

Lemma present_In_iteration (i : iteration_row) (d : db) :
  In i (design_iterations d) -> present "design_iterations" (di_id i) d = true.
Proof.
  intros H. unfold present. cbn [String.eqb Ascii.eqb Bool.eqb].
  apply existsb_exists. exists i. split; [assumption | apply String.eqb_refl].
Qed.

(** With the logged synthesis results gone, nothing refers to the logged
    iterations. *)
Lemma no_synthesis_refers (d dX : db) (its : list iteration_row) :
  sub_db dX d ->
  Forall (fun r => present (lr_table r) (lr_id r) dX = false)
         (flat_map (fun it => map synthesis_record (synthesis_of it d)) its) ->
  Forall (fun it =>
            existsb (fun s => String.eqb (sr_iteration_id s) (di_id it))
                    (synthesis_results dX) = false) its.
Proof.
  intros Hsub Habs. apply Forall_forall. intros it Hit.
  destruct (existsb _ (synthesis_results dX)) eqn:E; [|reflexivity].
  apply existsb_exists in E. destruct E as [s [Hs He]].
  assert (Hin : In (synthesis_record s)
                   (flat_map (fun it => map synthesis_record (synthesis_of it d)) its)).
  { apply in_flat_map. exists it. split; [assumption|].
    apply in_map. unfold synthesis_of. apply filter_In.
    split; [|assumption]. destruct Hsub as (_ & _ & Hi & _). now apply Hi. }
  rewrite Forall_forall in Habs. specialize (Habs _ Hin).
  cbn [lr_table lr_id synthesis_record] in Habs.
  rewrite (present_In_synthesis s dX Hs) in Habs. discriminate.
Qed.

(** With the logged iterations gone, no iteration of the project is
    left. *)
Lemma no_iteration_refers (d dX : db) (project_id : uuid)
    (its : list iteration_row) :
  sub_db dX d ->
  (forall i, In i (design_iterations d) -> di_project_id i = project_id ->
             In i its) ->
  Forall (fun r => present (lr_table r) (lr_id r) dX = false)
         (map iteration_record its) ->
  existsb (fun i => String.eqb (di_project_id i) project_id)
          (design_iterations dX) = false.
Proof.
  intros Hsub Hall Habs.
  destruct (existsb _ (design_iterations dX)) eqn:E; [|reflexivity].
  apply existsb_exists in E. destruct E as [i [Hi He]].
  apply String.eqb_eq in He.
  assert (Hin : In i its).
  { apply Hall; [|assumption]. destruct Hsub as (_ & Hd & _). now apply Hd. }
  rewrite Forall_forall in Habs.
  specialize (Habs (iteration_record i) (in_map iteration_record its i Hin)).
  cbn [lr_table lr_id iteration_record] in Habs.
  rewrite (present_In_iteration i dX Hi) in Habs. discriminate.
Qed.

Lemma insert_desc_In (r x : iteration_row) (l : list iteration_row) :
  In x (insert_desc r l) <-> x = r \/ In x l.
Proof.
  induction l as [|y t IH]; cbn.
  - intuition.
  - destruct (di_created_at y <? di_created_at r); cbn; [intuition|].
    rewrite IH. intuition.
Qed.

Lemma order_by_created_desc_In (x : iteration_row) (l : list iteration_row) :
  In x (order_by_created_desc l) <-> In x l.
Proof.
  induction l as [|y t IH]; cbn; [reflexivity|].
  rewrite insert_desc_In, IH. intuition.
Qed.


Lemma absent_sub (l : list log_record) (d' d : db) :
  sub_db d' d ->
  Forall (fun r => present (lr_table r) (lr_id r) d = false) l ->
  Forall (fun r => present (lr_table r) (lr_id r) d' = false) l.
Proof.
  intros Hs H. eapply Forall_impl; [|exact H].
  intros r Hr. now apply (present_sub _ _ d' d).
Qed.

(** X9.  A log generated for a whole project can always be rolled back.
    Right after [logger_by_project] has written a log without iteration
    number, [_execute_rollback] of that log goes through, whatever else the
    database holds: the synthesis results go before their iterations and
    the iterations before the project, and everything that refers to them
    is in the log.  Afterwards the project row is gone and the project has
    no iteration left. *)
Theorem project_log_rolls_back (w w' : world) (force : bool) (name path : string) :
  logger_by_project force name None w = (Ok (Some path), w') ->
  exists project ld w'',
    select_project_by_name name (w_db w) = Some project
    /\ w_files w' path = Some ld
    /\ _execute_rollback ld path w' = (Ok true, w'')
    /\ present "projects" (p_id project) (w_db w'') = false
    /\ iteration_numbers (p_id project) (w_db w'') = [].
Proof.
  intros H. unfold logger_by_project, bind, fetch in H.
  destruct (select_project_by_name name (w_db w)) as [project|] eqn:Hp;
    [|discriminate H].
  destruct (select_iterations (p_id project) None (w_db w)) as [|it0 its0] eqn:Hits;
    [discriminate H|].
  apply generate_log_file_written in H.
  destruct H as (Hdb & ld & Hfile & Hrec & _).
  set (its := it0 :: its0) in *. set (d := w_db w) in *.
  destruct (collect_records_by_table project its d)
    as (Hproj & Hiter & Hsyn & Heff & Hpat).
  set (A := flat_map (fun it => map synthesis_record (synthesis_of it d)) its) in *.
  set (B := map (effectiveness_record (p_type project))
                (effectiveness_of_type (p_type project) d)) in *.
  assert (Hseq : deletion_sequence (ld_inserted_records ld)
                 = ((A ++ B) ++ map iteration_record its
                    ++ [project_record project])%list).
  { rewrite Hrec, deletion_sequence_unfold, Hproj, Hiter, Hsyn, Heff, Hpat.
    cbn [app]. now rewrite app_assoc. }
  assert (Hall : forall i, In i (design_iterations d) ->
                           di_project_id i = p_id project -> In i its).
  { intros i Hi He. subst its. rewrite <- Hits. unfold select_iterations.
    apply order_by_created_desc_In. apply filter_In. split; [assumption|].
    rewrite He. apply String.eqb_refl. }
  (* synthesis results and effectiveness rows *)
  assert (Hfree : Forall (fun r => lr_table r = "synthesis_results"
                                   \/ lr_table r = "rules_effectiveness") (A ++ B)).
  { apply Forall_app. split; apply Forall_forall; intros r Hr.
    - subst A. apply in_flat_map in Hr. destruct Hr as [it [_ Hr]].
      apply in_map_iff in Hr. destruct Hr as [s [<- _]]. now left.
    - subst B. apply in_map_iff in Hr. destruct Hr as [e [<- _]]. now right. }
  destruct (for_each_delete_free (A ++ B) w' Hfree) as [w1 H1].
  pose proof (for_each_delete_sub _ _ _ _ H1) as Hsub1. rewrite Hdb in Hsub1.
  pose proof (for_each_delete_absent _ _ _ H1) as Habs1.
  apply Forall_app in Habs1. destruct Habs1 as [HabsA _].
  (* iterations *)
  destruct (delete_iterations_ok its w1
              (no_synthesis_refers d (w_db w1) its Hsub1 HabsA)) as [w2 H2].
  pose proof (for_each_delete_sub _ _ _ _ H2) as Hsub2.
  pose proof (sub_db_trans _ _ _ Hsub2 Hsub1) as Hsub2d.
  pose proof (for_each_delete_absent _ _ _ H2) as Habs2.
  (* the project *)
  destruct (delete_project_ok project w2
              (no_iteration_refers d (w_db w2) (p_id project) its
                 Hsub2d Hall Habs2)) as [w3 H3].
  pose proof (for_each_delete_sub _ _ _ _ H3) as Hsub3.
  pose proof (sub_db_trans _ _ _ Hsub3 Hsub2d) as Hsub3d.
  pose proof (for_each_delete_absent _ _ _ H3) as Habs3.
  assert (Hrun : for_each (deletion_sequence (ld_inserted_records ld))
                          delete_record w' = (Ok tt, w3)).
  { rewrite Hseq, (for_each_then _ _ _ _ _ H1), (for_each_then _ _ _ _ _ H2).
    exact H3. }
  exists project, ld.
  rewrite (execute_rollback_commits ld path w' w3 Hrun).
  unfold _update_log_status, bind, now, write_log, ret. cbn.
  eexists. split; [reflexivity|]. split; [exact Hfile|].
  split; [reflexivity|]. cbn. split.
  - inversion Habs3 as [|x y Hx _]; subst. exact Hx.
  - pose proof (no_iteration_refers d (w_db w3) (p_id project) its Hsub3d Hall
                  (absent_sub _ _ _ Hsub3 Habs2)) as Hnone.
    unfold iteration_numbers.
    rewrite (LoggerMore.filter_none _ (design_iterations (w_db w3))); [reflexivity|].
    intros i Hi. destruct (String.eqb (di_project_id i) (p_id project)) eqn:E;
      [|reflexivity].
    assert (Ht : existsb (fun i => String.eqb (di_project_id i) (p_id project))
                         (design_iterations (w_db w3)) = true)
      by (apply existsb_exists; now exists i).
    congruence.
Qed.

(** Witness for X9: the log of the whole of FIR128. *)
Lemma project_log_rolls_back_witness :
  let w := Fir128.world_of Fir128.db0 [] in
  let w' := snd (logger_by_project false "FIR128" None w) in
  exists project ld w'',
    select_project_by_name "FIR128" (w_db w) = Some project
    /\ w_files w' "logs/rollback_FIR128_1000.yaml" = Some ld
    /\ _execute_rollback ld "logs/rollback_FIR128_1000.yaml" w' = (Ok true, w'')
    /\ present "projects" (p_id project) (w_db w'') = false
    /\ iteration_numbers (p_id project) (w_db w'') = [].
Proof.
  intros w w'.
  apply (project_log_rolls_back w w' false "FIR128"
           "logs/rollback_FIR128_1000.yaml").
  reflexivity.
Defined.

End LoggerRollbackTogether.

(* ================================================================== *)
(** * Further properties of the rule matcher *)

Module MatcherMore.
Import Db Eff RuleMatcher.
Local Open Scope eff_scope.

Lemma truthy_nonempty (s : string) :
  Text.truthy (Some s) = true <-> s <> EmptyString.
Proof. destruct s; cbn; split; congruence. Qed.

Lemma select_rule_by_code_some (c : string) (d : db) (r : rule_row) :
  select_rule_by_code c d = Some r ->
  In r (hls_rules d) /\ r_rule_code r = Some c.
Proof.
  intros H. apply find_some in H. destruct H as [Hin Hp]. split; [assumption|].
  destruct (r_rule_code r) as [c'|]; [|discriminate].
  apply String.eqb_eq in Hp. now subst.
Qed.

Lemma select_rule_by_code_none (c : string) (d : db) :
  select_rule_by_code c d = None <->
  Forall (fun r => r_rule_code r <> Some c) (hls_rules d).
Proof.
  unfold select_rule_by_code. split.
  - intros H. apply Forall_forall. intros r Hr E.
    apply (find_none _ _ H) in Hr. rewrite E, String.eqb_refl in Hr. discriminate.
  - intros H. induction H as [|x l Hx Hl IH]; cbn; [reflexivity|].
    destruct (r_rule_code x) as [c'|]; [|exact IH].
    destruct (String.eqb c' c) eqn:E; [|exact IH].
    apply String.eqb_eq in E. subst. contradiction.
Qed.

Lemma select_rule_by_lower_text_some (t : string) (d : db) (r : rule_row) :
  select_rule_by_lower_text t d = Some r ->
  In r (hls_rules d) /\ Text.lower (r_rule_text r) = Text.lower t.
Proof.
  intros H. apply find_some in H. destruct H as [Hin Hp].
  split; [assumption | now apply String.eqb_eq].
Qed.

Lemma select_rule_by_lower_text_none (t : string) (d : db) :
  select_rule_by_lower_text t d = None <->
  Forall (fun r => Text.lower (r_rule_text r) <> Text.lower t) (hls_rules d).
Proof.
  unfold select_rule_by_lower_text. split.
  - intros H. apply Forall_forall. intros r Hr E.
    apply (find_none _ _ H) in Hr. rewrite E, String.eqb_refl in Hr. discriminate.
  - intros H. induction H as [|x l Hx Hl IH]; cbn; [reflexivity|].
    destruct (String.eqb (Text.lower (r_rule_text x)) (Text.lower t)) eqn:E;
      [|exact IH].
    apply String.eqb_eq in E. contradiction.
Qed.

(** The answer of [find_matching_rule] in closed form. *)
Lemma find_matching_rule_value (rule_code : option string)
    (keywords : option (list string)) (description : option string) (w : world) :
  find_matching_rule rule_code keywords description w =
    (Ok (match (if Text.truthy rule_code
                then select_rule_by_code (coalesce rule_code EmptyString) (w_db w)
                else None) with
         | Some r => Some r
         | None =>
             if Text.truthy description
             then select_rule_by_lower_text
                    (coalesce description EmptyString) (w_db w)
             else None
         end), w).
Proof.
  unfold find_matching_rule, bind, fetch, ret.
  destruct (Text.truthy rule_code); cbn;
    [destruct (select_rule_by_code _ (w_db w)); [reflexivity|]|];
    destruct (Text.truthy description); cbn;
    try destruct (select_rule_by_lower_text _ (w_db w)); reflexivity.
Qed.

(** X10.  The code comes first.  When a non-empty rule code is given and
    some rule carries it, [find_matching_rule] answers with a rule of that
    code, whatever the keywords and the description say, and changes
    nothing. *)
Theorem find_matching_rule_code_first (w : world) (code : string)
    (keywords : option (list string)) (description : option string)
    (rule : rule_row) :
  code <> EmptyString ->
  In rule (hls_rules (w_db w)) ->
  r_rule_code rule = Some code ->
  exists r,
    find_matching_rule (Some code) keywords description w = (Ok (Some r), w)
    /\ In r (hls_rules (w_db w))
    /\ r_rule_code r = Some code.
Proof.
  intros Hne Hin Hcode. rewrite find_matching_rule_value.
  apply truthy_nonempty in Hne. rewrite Hne. cbn [coalesce].
  destruct (select_rule_by_code code (w_db w)) as [r|] eqn:E.
  - exists r. split; [reflexivity|]. now apply select_rule_by_code_some.
  - exfalso. apply select_rule_by_code_none in E.
    rewrite Forall_forall in E. exact (E rule Hin Hcode).
Qed.

(** Witness for X10: code P001 with a description that is the text of
    another rule. *)
Lemma find_matching_rule_code_first_witness :
  exists r,
    find_matching_rule (Some "P001") (Some ["partition"])
      (Some "Partition arrays completely to remove port conflicts")
      (Fir128.world_of Fir128.db0 [])
    = (Ok (Some r), Fir128.world_of Fir128.db0 [])
    /\ In r (hls_rules Fir128.db0)
    /\ r_rule_code r = Some "P001".
Proof.
  apply (find_matching_rule_code_first (Fir128.world_of Fir128.db0 []) "P001"
           (Some ["partition"])
           (Some "Partition arrays completely to remove port conflicts")
           Fir128.rule_P001).
  - discriminate.
  - cbn. now left.
  - reflexivity.
Defined.

(** X11.  [find_matching_rule] is exact and only reads.  It never changes
    the world; the keywords it is given have no effect on its answer; a
    rule it answers with is in the table and either carries the given code
    or has the given description as its full text up to letter case; and it
    answers [None] exactly when no rule carries the (non-empty) code and no
    rule's full text is the (non-empty) description up to letter case. *)
Theorem find_matching_rule_exactness (w : world) (rule_code : option string)
    (keywords : option (list string)) (description : option string) :
  let out := find_matching_rule rule_code keywords description w in
  snd out = w
  /\ (forall keywords',
         find_matching_rule rule_code keywords' description w = out)
  /\ (forall r, fst out = Ok (Some r) ->
         In r (hls_rules (w_db w))
         /\ ((Text.truthy rule_code = true /\ r_rule_code r = rule_code)
             \/ (exists d, description = Some d
                           /\ Text.lower (r_rule_text r) = Text.lower d)))
  /\ (fst out = Ok None <->
      (forall c, rule_code = Some c -> c <> EmptyString ->
                 Forall (fun r => r_rule_code r <> Some c) (hls_rules (w_db w)))
      /\ (forall d, description = Some d -> d <> EmptyString ->
                    Forall (fun r => Text.lower (r_rule_text r) <> Text.lower d)
                           (hls_rules (w_db w)))).
Proof.
  intros out. subst out. rewrite find_matching_rule_value. cbn [fst snd].
  split; [reflexivity|].
  split; [intros kw'; now rewrite find_matching_rule_value|].
  split.
  - intros r H.
    destruct rule_code as [[|a c]|]; destruct description as [[|b d]|];
      cbn [Text.truthy coalesce] in H;
      repeat match type of H with
             | context [select_rule_by_code ?c (w_db w)] =>
                 let E := fresh "E" in
                 destruct (select_rule_by_code c (w_db w)) eqn:E
             | context [select_rule_by_lower_text ?d (w_db w)] =>
                 let E := fresh "E" in
                 destruct (select_rule_by_lower_text d (w_db w)) eqn:E
             end;
      inversion H; subst;
      try (match goal with
           | E : select_rule_by_code _ _ = Some _ |- _ =>
               apply select_rule_by_code_some in E; destruct E as [Hin Hc];
               split; [exact Hin | left; split; [reflexivity | exact Hc]]
           end);
      match goal with
      | E : select_rule_by_lower_text ?d _ = Some _ |- _ =>
          apply select_rule_by_lower_text_some in E; destruct E as [Hin Hc];
          split; [exact Hin | right; exists d; split; [reflexivity | exact Hc]]
      end.
  - split.
    + intros H. split.
      * intros c -> Hne. apply select_rule_by_code_none.
        apply truthy_nonempty in Hne. rewrite Hne in H. cbn [coalesce] in H.
        destruct (select_rule_by_code c (w_db w)); [discriminate | reflexivity].
      * intros d -> Hne. apply select_rule_by_lower_text_none.
        apply truthy_nonempty in Hne. rewrite Hne in H. cbn [coalesce] in H.
        destruct (if Text.truthy rule_code
                  then select_rule_by_code (coalesce rule_code EmptyString) (w_db w)
                  else None); [discriminate|].
        destruct (select_rule_by_lower_text d (w_db w)); [discriminate | reflexivity].
    + intros [Hc Hd].
      assert (H1 : (if Text.truthy rule_code
                    then select_rule_by_code (coalesce rule_code EmptyString) (w_db w)
                    else None) = None).
      { destruct (Text.truthy rule_code) eqn:E; [|reflexivity].
        destruct rule_code as [c|]; [|discriminate]. cbn [coalesce].
        apply select_rule_by_code_none. apply Hc; [reflexivity|].
        now apply truthy_nonempty. }
      rewrite H1.
      destruct (Text.truthy description) eqn:E; [|reflexivity].
      destruct description as [d|]; [|discriminate]. cbn [coalesce].
      f_equal. f_equal. apply select_rule_by_lower_text_none.
      apply Hd; [reflexivity|]. now apply truthy_nonempty.
Qed.

End MatcherMore.

(* ================================================================== *)
(** * Further properties of the aggregator *)

Module AggregatorMore.
Import Db Eff AggregatorProps.
Local Open Scope eff_scope.





(** ** One pair at a time *)

Lemma NoDup_map_inj {A B : Type} (f : A -> B) (l : list A) (x y : A) :
  NoDup (map f l) -> In x l -> In y l -> f x = f y -> x = y.
Proof.
  induction l as [|a l IH]; cbn; intros Hn Hx Hy He; [contradiction|].
  inversion Hn as [|b m Hb Hm]; subst.
  destruct Hx as [Hx|Hx]; destruct Hy as [Hy|Hy]; subst.
  - reflexivity.
  - exfalso. apply Hb. rewrite He. now apply in_map.
  - exfalso. apply Hb. rewrite <- He. now apply in_map.
  - now apply IH.
Qed.

Definition pair_test (rule_id : uuid) (project_type : string)
    (r : effectiveness_row) : bool :=
  String.eqb (re_rule_id r) rule_id && String.eqb (re_project_type r) project_type.

Lemma pair_test_other (rule_id rule_id' : uuid) (project_type project_type' : string)
    (r : effectiveness_row) :
  rule_id' <> rule_id \/ project_type' <> project_type ->
  pair_test rule_id project_type r = true ->
  pair_test rule_id' project_type' r = false.
Proof.
  unfold pair_test. intros Hd H. apply andb_true_iff in H. destruct H as [H1 H2].
  apply String.eqb_eq in H1. apply String.eqb_eq in H2. subst.
  destruct Hd as [Hd|Hd].
  - apply andb_false_iff. left. apply String.eqb_neq. congruence.
  - apply andb_false_iff. right. apply String.eqb_neq. congruence.
Qed.

(** The UPDATE by identifier leaves the rows of other pairs alone, the
    identifiers being distinct. *)
Lemma update_other_pair (rule_id rule_id' : uuid) (project_type project_type' : string)
    (d : db) (row : effectiveness_row) (times success : Z) (avg : option Q)
    (t : timestamp) :
  NoDup (map re_id (rules_effectiveness d)) ->
  rule_id' <> rule_id \/ project_type' <> project_type ->
  select_effectiveness rule_id project_type d = Some row ->
  stats rule_id' project_type'
        (update_effectiveness times success avg t (re_id row) d)
  = stats rule_id' project_type' d.
Proof.
  intros Hn Hd Hsel. unfold stats, select_effectiveness, update_effectiveness in *.
  cbn [rules_effectiveness with_rules_effectiveness].
  rewrite find_map_stable
    by (intros x; now destruct (String.eqb (re_id x) (re_id row))).
  destruct (find (fun r => String.eqb (re_rule_id r) rule_id'
                           && String.eqb (re_project_type r) project_type')
                 (rules_effectiveness d)) as [x|] eqn:Hx; [|reflexivity].
  cbn [option_map].
  destruct (String.eqb (re_id x) (re_id row)) eqn:E; [|reflexivity].
  exfalso. apply String.eqb_eq in E.
  apply find_some in Hx. destruct Hx as [Hxin Hxp].
  apply find_some in Hsel. destruct Hsel as [Hrin Hrp].
  assert (x = row) by (eapply NoDup_map_inj; eassumption). subst x.
  pose proof (pair_test_other rule_id rule_id' project_type project_type' row Hd Hrp)
    as Hf.
  unfold pair_test in Hf. congruence.
Qed.

(** The INSERT of a row for one pair leaves the other pairs alone. *)
Lemma insert_other_pair (rule_id' : uuid) (project_type' : string) (d d' : db)
    (row : effectiveness_row) :
  rule_id' <> re_rule_id row \/ project_type' <> re_project_type row ->
  insert_effectiveness row d = Ok d' ->
  stats rule_id' project_type' d' = stats rule_id' project_type' d.
Proof.
  intros Hd H. unfold insert_effectiveness in H.
  destruct (existsb _ (hls_rules d)); [|discriminate]. inversion H; subst.
  unfold stats, select_effectiveness. cbn [rules_effectiveness with_rules_effectiveness].
  assert (Hp : pair_test rule_id' project_type' row = false).
  { apply (pair_test_other (re_rule_id row) rule_id' (re_project_type row)).
    - exact Hd.
    - unfold pair_test. now rewrite !String.eqb_refl. }
  unfold pair_test in Hp. clear H.
  induction (rules_effectiveness d) as [|x l IH]; cbn.
  - now rewrite Hp.
  - destruct (String.eqb (re_rule_id x) rule_id'
              && String.eqb (re_project_type x) project_type'); [reflexivity|exact IH].
Qed.

(** X13.  Recording an effect touches one pair only.  With distinct row
    identifiers (the primary key), a call of [record_rule_effectiveness],
    accumulating or overwriting, for one (rule, context) pair leaves the
    statistics of every other pair as they were, whether it succeeds or
    raises; and the upsert of [update_rule_effectiveness] does so too. *)
Theorem record_touches_one_pair (w : world) (rule_id rule_id' : uuid)
    (project_type project_type' : string) (success : bool) (improvement : Q) :
  NoDup (map re_id (rules_effectiveness (w_db w))) ->
  rule_id' <> rule_id \/ project_type' <> project_type ->
  stats rule_id' project_type'
    (w_db (snd (ImportKb.record_rule_effectiveness rule_id project_type
                  success improvement w)))
  = stats rule_id' project_type' (w_db w)
  /\ stats rule_id' project_type'
       (w_db (snd (ImportExample.record_rule_effectiveness rule_id project_type
                     success improvement w)))
     = stats rule_id' project_type' (w_db w)
  /\ (forall id t p3 p4 d',
         Main.upsert_effectiveness id t rule_id project_type p3 p4 (w_db w) = Ok d' ->
         stats rule_id' project_type' d' = stats rule_id' project_type' (w_db w)).
Proof.
  intros Hn Hd. split; [|split].
  - unfold ImportKb.record_rule_effectiveness, bind, fetch.
    destruct (select_effectiveness rule_id project_type (w_db w)) as [row|] eqn:Hsel.
    + unfold now, execute, ret. cbn.
      now apply (update_other_pair rule_id rule_id' project_type project_type').
    + unfold uuid4, now, execute, ret. cbn.
      match goal with
      | |- context [insert_effectiveness ?r (w_db w)] =>
          destruct (insert_effectiveness r (w_db w)) as [d'|e] eqn:Hins
      end; cbn; [|reflexivity].
      now apply (insert_other_pair rule_id' project_type') in Hins.
  - unfold ImportExample.record_rule_effectiveness, bind, fetch.
    destruct (select_effectiveness rule_id project_type (w_db w)) as [row|] eqn:Hsel.
    + unfold now, execute, ret. cbn.
      now apply (update_other_pair rule_id rule_id' project_type project_type').
    + unfold uuid4, now, execute, ret. cbn.
      match goal with
      | |- context [insert_effectiveness ?r (w_db w)] =>
          destruct (insert_effectiveness r (w_db w)) as [d'|e] eqn:Hins
      end; cbn; [|reflexivity].
      now apply (insert_other_pair rule_id' project_type') in Hins.
  - intros id t p3 p4 d' H. unfold Main.upsert_effectiveness in H.
    destruct (select_effectiveness rule_id project_type (w_db w)) as [row|] eqn:Hsel.
    + inversion H; subst. unfold stats, select_effectiveness.
      cbn [rules_effectiveness with_rules_effectiveness].
      rewrite find_map_stable.
      * destruct (find (fun r => String.eqb (re_rule_id r) rule_id'
                                 && String.eqb (re_project_type r) project_type')
                       (rules_effectiveness (w_db w))) as [x|] eqn:Hx;
          [|reflexivity].
        cbn [option_map]. apply find_some in Hx. destruct Hx as [_ Hxp].
        destruct (String.eqb (re_rule_id x) rule_id
                  && String.eqb (re_project_type x) project_type) eqn:E;
          [|reflexivity].
        pose proof (pair_test_other rule_id rule_id' project_type project_type'
                      x Hd E) as Hf.
        unfold pair_test in Hf. congruence.
      * intros x. now destruct (String.eqb (re_rule_id x) rule_id
                                && String.eqb (re_project_type x) project_type).
    + now apply (insert_other_pair rule_id' project_type') in H.
Qed.

(** Witness for X13: recording for rule R002 leaves the row of P001. *)
Lemma record_touches_one_pair_witness :
  stats "rule-p001" "fir"
    (w_db (snd (ImportKb.record_rule_effectiveness "rule-r002" "fir" true (5 # 1)
                  (Fir128.world_of Fir128.db0 []))))
  = Some (2, 2, Some (68 # 1)).
Proof.
  destruct (record_touches_one_pair (Fir128.world_of Fir128.db0 [])
              "rule-r002" "rule-p001" "fir" "fir" true (5 # 1)) as [H _].
  - repeat constructor. intros [].
  - left. discriminate.
  - rewrite H. reflexivity.
Defined.


(** ** The rule loop of [record_complete_iteration] *)


(** ** The endpoint [update_rule_effectiveness] *)

(** The sum of all improvements reported, successful or not. *)
Definition total_reported (l : list outcome) : Q :=
  fold_right (fun (o : outcome) acc => (snd o + acc)%Q) 0%Q l.


Definition upsert_reported (st : option (Z * Z * option Q)) (o : outcome)
    : option (Z * Z * option Q) :=
  upsert_stats st (if fst o then 1 else 0) (Some (snd o)).



Lemma fold_upsert (l : list outcome) (times count : Z) (avg total : Q) :
  0 <= times ->
  (avg * inject_Z times == total)%Q ->
  exists avg',
    fold_left upsert_reported l (Some (times, count, Some avg))
    = Some (times + Z.of_nat (List.length l), count + successes l, Some avg')
    /\ (avg' * inject_Z (times + Z.of_nat (List.length l))
        == total + total_reported l)%Q.
Proof.
  revert times count avg total.
  induction l as [|[s i] l IH]; intros times count avg total Ht Hsum.
  - exists avg. change (successes []) with 0.
    change (Z.of_nat (List.length (@nil outcome))) with 0.
    cbn [fold_left total_reported fold_right]. rewrite !Z.add_0_r.
    split; [reflexivity|]. rewrite Hsum. ring.
  - cbn [fold_left]. unfold upsert_reported at 2, upsert_stats.
    cbn [fst snd coalesce].
    set (avg1 := ((avg * inject_Z times + i) / inject_Z (times + 1))%Q).
    assert (H1 : (avg1 * inject_Z (times + 1) == total + i)%Q).
    { subst avg1.
      rewrite Qmult_comm, Qmult_div_r by (apply inject_Z_nonzero; lia).
      now rewrite Hsum. }
    destruct (IH (times + 1) (count + (if s then 1 else 0)) avg1 (total + i)%Q
                ltac:(lia) H1) as (avg' & Hf & Hs).
    exists avg'. rewrite successes_cons. cbn [fst].
    replace (count + ((if s then 1 else 0) + successes l))
      with (count + (if s then 1 else 0) + successes l) by lia.
    replace (times + Z.of_nat (List.length ((s, i) :: l)))
      with (times + 1 + Z.of_nat (List.length l))
      by (cbn [List.length]; rewrite Nat2Z.inj_succ; lia).
    split; [exact Hf|]. rewrite Hs.
    change (total_reported ((s, i) :: l)) with (i + total_reported l)%Q. ring.
Qed.




Lemma select_rule_by_text_none (t : string) (d : db) :
  Forall (fun r => r_rule_text r <> t) (hls_rules d) ->
  Main.select_rule_by_text t d = None.
Proof.
  unfold Main.select_rule_by_text. intros H.
  induction H as [|x l Hx Hl IH]; cbn; [reflexivity|].
  destruct (String.eqb (r_rule_text x) t) eqn:Ee; [|exact IH].
  apply String.eqb_eq in Ee. contradiction.
Qed.

(** X16.  An unknown rule is a 404.  When no rule carries the given code
    and no rule's text is exactly the given text, [update_rule_effectiveness]
    raises HTTPException 404 and writes nothing. *)
Theorem update_rule_effectiveness_not_found (w : world)
    (update : Main.RuleEffectivenessUpdate) :
  (forall c, Main.rule_code update = Some c ->
             Forall (fun r => r_rule_code r <> Some c) (hls_rules (w_db w))) ->
  (forall t, Main.rule_text update = Some t ->
             Forall (fun r => r_rule_text r <> t) (hls_rules (w_db w))) ->
  Main.update_rule_effectiveness update w = (Raised (HTTPException 404), w).
Proof.
  intros Hc Ht.
  assert (H1 : forall c, Main.rule_code update = Some c ->
                         RuleMatcher.select_rule_by_code c (w_db w) = None).
  { intros c E. apply MatcherMore.select_rule_by_code_none. now apply Hc. }
  assert (H2 : forall t, Main.rule_text update = Some t ->
                         Main.select_rule_by_text t (w_db w) = None).
  { intros t E. apply select_rule_by_text_none. now apply Ht. }
  unfold Main.update_rule_effectiveness, bind, fetch, ret, raise.
  destruct (Main.rule_code update) as [[|a c]|]; cbn [Text.truthy coalesce];
    try rewrite (H1 _ eq_refl); cbn [option_map];
    destruct (Main.rule_text update) as [[|b t]|]; cbn [Text.truthy coalesce];
    try rewrite (H2 _ eq_refl); reflexivity.
Qed.

(** Witness for X16: a code and a text that no rule has. *)
Lemma update_rule_effectiveness_not_found_witness :
  Main.update_rule_effectiveness
    {| Main.rule_code := Some "P999"; Main.rule_text := Some "use pipeline pragma";
       Main.project_type := "fir"; Main.was_successful := true;
       Main.ii_improvement := Some (1 # 1) |}
    (Fir128.world_of Fir128.db0 [])
  = (Raised (HTTPException 404), Fir128.world_of Fir128.db0 []).
Proof.
  apply update_rule_effectiveness_not_found.
  - intros c H. inversion H; subst. repeat constructor; discriminate.
  - intros t H. inversion H; subst. repeat constructor; discriminate.
Defined.

End AggregatorMore.

(* ================================================================== *)
(** * Properties of the other endpoints of main.py *)

Module MainMore.
Import Db Eff Main MainEndpoints MainProps.
Local Open Scope eff_scope.

(** ** Sorting *)

Lemma insert_by_asc_perm {A : Type} (key : A -> Z) (r : A) (l : list A) :
  Permutation (insert_by_asc key r l) (r :: l).
Proof.
  induction l as [|x t IH]; cbn; [reflexivity|].
  destruct (key r <? key x); [reflexivity|].
  rewrite IH. apply perm_swap.
Qed.

Lemma sort_by_asc_perm {A : Type} (key : A -> Z) (l : list A) :
  Permutation (sort_by_asc key l) l.
Proof.
  induction l as [|x t IH]; cbn; [reflexivity|].
  rewrite insert_by_asc_perm. now apply perm_skip.
Qed.

Lemma insert_by_asc_sorted {A : Type} (key : A -> Z) (r : A) (l : list A) :
  StronglySorted (fun a b => key a <= key b) l ->
  StronglySorted (fun a b => key a <= key b) (insert_by_asc key r l).
Proof.
  induction 1 as [|x t Ht IH Hx]; cbn; [repeat constructor|].
  destruct (key r <? key x) eqn:E.
  - apply Z.ltb_lt in E. constructor; [now constructor|].
    constructor; [lia|]. eapply Forall_impl; [|exact Hx]. cbn. intros y Hy. lia.
  - apply Z.ltb_ge in E. constructor; [exact IH|].
    apply Forall_forall. intros y Hy.
    apply (Permutation_in _ (insert_by_asc_perm key r t)) in Hy.
    destruct Hy as [<-|Hy]; [lia|].
    rewrite Forall_forall in Hx. now apply Hx.
Qed.

Lemma sort_by_asc_sorted {A : Type} (key : A -> Z) (l : list A) :
  StronglySorted (fun a b => key a <= key b) (sort_by_asc key l).
Proof.
  induction l as [|x t IH]; cbn; [constructor|].
  now apply insert_by_asc_sorted.
Qed.

(** ** [get_project_progress] *)

Definition ii_of (r : progress_row) : Z := coalesce (pr_ii_achieved r) 0.

Definition sum_improvements (items : list (progress_row * option Z)) : Z :=
  fold_right (fun it acc => coalesce (snd it) 0 + acc) 0 items.

Lemma annotate_rows (previous : option progress_row) (l : list progress_row) :
  map fst (annotate previous l) = l.
Proof.
  revert previous. induction l as [|x r IH]; intros previous; cbn; [reflexivity|].
  now rewrite IH.
Qed.

Lemma last_default {A : Type} (y : A) (r : list A) (d d' : A) :
  last (y :: r) d = last (y :: r) d'.
Proof.
  revert y. induction r as [|z r IH]; intros y; [reflexivity|].
  change (last (y :: z :: r) d) with (last (z :: r) d).
  change (last (y :: z :: r) d') with (last (z :: r) d'). apply IH.
Qed.

Lemma last_cons {A : Type} (x : A) (r : list A) (d : A) :
  last (x :: r) d = last r x.
Proof.
  destruct r as [|y r]; [reflexivity|].
  change (last (x :: y :: r) d) with (last (y :: r) d). apply last_default.
Qed.

Lemma annotate_telescopes (l : list progress_row) (prev : progress_row) :
  truthy_ii (pr_ii_achieved prev) = true ->
  Forall (fun r => truthy_ii (pr_ii_achieved r) = true) l ->
  sum_improvements (annotate (Some prev) l) = ii_of prev - ii_of (last l prev).
Proof.
  revert prev. induction l as [|x r IH]; intros prev Hp Hl.
  - cbn. lia.
  - inversion Hl as [|a b Hx Hr]; subst.
    cbn [annotate sum_improvements fold_right snd].
    rewrite Hx, Hp. cbn [andb coalesce].
    fold (sum_improvements (annotate (Some x) r)).
    rewrite (IH x Hx Hr). fold (ii_of prev). fold (ii_of x).
    rewrite (last_cons x r prev). lia.
Qed.

Lemma length_map_annotate (previous : option progress_row) (l : list progress_row) :
  List.length (annotate previous l) = List.length l.
Proof.
  revert previous. induction l as [|x r IH]; intros previous; cbn; [reflexivity|].
  now rewrite IH.
Qed.

(** The rows that one iteration contributes to the join. *)
Definition progress_rows_of (d : db) (di : iteration_row) : list progress_row :=
  let row ii :=
    {| pr_iteration_number := di_iteration_number di;
       pr_approach_description := di_approach_description di;
       pr_ii_achieved := ii;
       pr_created_at := di_created_at di |} in
  match filter (fun sr => String.eqb (sr_iteration_id sr) (di_id di))
               (synthesis_results d) with
  | [] => [row None]
  | srs => map (fun sr => row (Some (sr_ii_achieved sr))) srs
  end.

Lemma select_progress_eq (project_id : uuid) (d : db) :
  select_progress project_id d =
    sort_by_asc pr_iteration_number
      (flat_map (progress_rows_of d)
         (filter (fun di => String.eqb (di_project_id di) project_id)
                 (design_iterations d))).
Proof. reflexivity. Qed.

Lemma progress_rows_of_nonempty (d : db) (di : iteration_row) :
  progress_rows_of d di <> [].
Proof.
  unfold progress_rows_of.
  destruct (filter _ (synthesis_results d)); discriminate.
Qed.

Lemma select_progress_empty (project_id : uuid) (d : db) :
  select_progress project_id d = [] <-> iteration_numbers project_id d = [].
Proof.
  rewrite select_progress_eq. unfold iteration_numbers.
  destruct (filter (fun di => String.eqb (di_project_id di) project_id)
                   (design_iterations d)) as [|di rest].
  - split; reflexivity.
  - split; [|discriminate]. intros H. exfalso.
    pose proof (sort_by_asc_perm pr_iteration_number
                  (flat_map (progress_rows_of d) (di :: rest))) as Hperm.
    rewrite H in Hperm. apply Permutation_nil in Hperm.
    cbn [flat_map] in Hperm. apply app_eq_nil in Hperm.
    now apply (progress_rows_of_nonempty d di).
Qed.

(** X17.  The progress report of a project.  [get_project_progress] is a
    404 exactly when the project has no iteration, and never writes.
    Otherwise [total_iterations] is the number of items, the items come in
    ascending iteration number, the first item carries no improvement, and
    when every item has a non-zero II the improvements add up to the first
    II minus the last. *)
Theorem project_progress_report (w : world) (project_id : uuid) :
  (iteration_numbers project_id (w_db w) = [] ->
   get_project_progress project_id w = (Raised (HTTPException 404), w))
  /\ (iteration_numbers project_id (w_db w) <> [] ->
      exists first items,
        get_project_progress project_id w
        = (Ok (project_id, Z.of_nat (List.length (first :: items)), first :: items),
           w)
        /\ snd first = None
        /\ StronglySorted
             (fun a b => pr_iteration_number a <= pr_iteration_number b)
             (map fst (first :: items))
        /\ (Forall (fun r => truthy_ii (pr_ii_achieved r) = true)
                   (map fst (first :: items)) ->
            sum_improvements (first :: items)
            = ii_of (fst first) - ii_of (last (map fst items) (fst first)))).
Proof.
  unfold get_project_progress, bind, fetch, ret, raise.
  pose proof (select_progress_empty project_id (w_db w)) as He.
  pose proof (sort_by_asc_sorted pr_iteration_number
                (flat_map (progress_rows_of (w_db w))
                   (filter (fun di => String.eqb (di_project_id di) project_id)
                           (design_iterations (w_db w))))) as Hs.
  rewrite <- select_progress_eq in Hs.
  destruct (select_progress project_id (w_db w)) as [|x rest] eqn:Hsel.
  - split; [reflexivity|]. intros Hn. exfalso. apply Hn. now apply He.
  - split.
    + intros Hn. apply He in Hn. discriminate.
    + intros _. exists (x, None), (annotate (Some x) rest).
      cbn [annotate]. split.
      * cbn [List.length]. rewrite length_map_annotate. reflexivity.
      * split; [reflexivity|]. cbn [map fst]. rewrite annotate_rows.
        split; [exact Hs|].
        intros Hall. inversion Hall as [|a b Hx Hr]; subst.
        cbn [sum_improvements fold_right snd coalesce fst].
        fold (sum_improvements (annotate (Some x) rest)).
        rewrite (annotate_telescopes rest x Hx Hr). lia.
Qed.

(** ** [find_similar_designs] *)

Lemma sorted_app_inv {A : Type} (R : A -> A -> Prop) (l1 l2 : list A) :
  StronglySorted R (l1 ++ l2) ->
  StronglySorted R l1 /\ (forall a b, In a l1 -> In b l2 -> R a b).
Proof.
  induction l1 as [|x l1 IH]; cbn; intros H.
  - split; [constructor|]. intros a b [].
  - inversion H as [|a l Hs Hx]; subst. destruct (IH Hs) as [H1 H2].
    rewrite Forall_forall in Hx. split.
    + constructor; [exact H1|]. apply Forall_forall. intros y Hy.
      apply Hx. apply in_or_app. now left.
    + intros a b [<-|Ha] Hb.
      * apply Hx. apply in_or_app. now right.
      * now apply H2.
Qed.

(** The rows of the two inner joins: an iteration, its project and one of
    its synthesis results. *)
Lemma join_designs_In (d : db) (x : design) :
  In x (join_designs d) <->
  In (ds_iteration x) (design_iterations d)
  /\ In (ds_project x) (projects d)
  /\ In (ds_synthesis x) (synthesis_results d)
  /\ di_project_id (ds_iteration x) = p_id (ds_project x)
  /\ di_id (ds_iteration x) = sr_iteration_id (ds_synthesis x).
Proof.
  unfold join_designs. rewrite in_flat_map. split.
  - intros (di & Hdi & H). apply in_flat_map in H. destruct H as (p & Hp & H).
    apply in_map_iff in H. destruct H as (sr & <- & Hsr).
    apply filter_In in Hp. destruct Hp as [Hp Ep].
    apply filter_In in Hsr. destruct Hsr as [Hsr Esr].
    apply String.eqb_eq in Ep. apply String.eqb_eq in Esr. cbn.
    now repeat split.
  - intros (Hdi & Hp & Hsr & Ep & Esr). exists (ds_iteration x).
    split; [exact Hdi|]. apply in_flat_map. exists (ds_project x). split.
    + apply filter_In. split; [exact Hp|]. now apply String.eqb_eq.
    + apply in_map_iff. exists (ds_synthesis x). split; [now destruct x|].
      apply filter_In. split; [exact Hsr|]. now apply String.eqb_eq.
Qed.

(** [WHERE p.type = $1 [AND sr.ii_achieved <= $2]] *)
Definition similar (project_type : string) (target_ii : option Z) (x : design)
    : Prop :=
  p_type (ds_project x) = project_type
  /\ match target_ii with
     | Some target => sr_ii_achieved (ds_synthesis x) <= target
     | None => True
     end.

Definition ii (x : design) : Z := sr_ii_achieved (ds_synthesis x).

(** X18.  [find_similar_designs] never writes and answers with the best
    designs first: the answer together with what the limit cut off is
    exactly the joined iteration/project/synthesis triples of the asked
    type (and within the target II, when one is given); the answer is in
    ascending II, nothing cut off has a smaller II than anything returned,
    and something is cut off only when the answer is [limit] long. *)
Theorem find_similar_designs_best_first (w : world) (project_type : string)
    (target_ii : option Z) (limit : Z) :
  exists results rest,
    find_similar_designs project_type target_ii limit w = (Ok results, w)
    /\ (forall x, In x (results ++ rest) <->
                  In x (join_designs (w_db w)) /\ similar project_type target_ii x)
    /\ StronglySorted (fun a b => ii a <= ii b) results
    /\ (forall a b, In a results -> In b rest -> ii a <= ii b)
    /\ (List.length results <= Z.to_nat limit)%nat
    /\ (rest = [] \/ List.length results = Z.to_nat limit).
Proof.
  unfold find_similar_designs, fetch.
  set (matching := filter _ (join_designs (w_db w))).
  set (sorted := sort_by_asc (fun x => sr_ii_achieved (ds_synthesis x)) matching).
  exists (firstn (Z.to_nat limit) sorted), (skipn (Z.to_nat limit) sorted).
  split; [reflexivity|].
  pose proof (sort_by_asc_sorted (fun x => sr_ii_achieved (ds_synthesis x)) matching)
    as Hs.
  fold sorted in Hs. rewrite <- (firstn_skipn (Z.to_nat limit) sorted) in Hs.
  apply sorted_app_inv in Hs. destruct Hs as [Hs Hcut].
  split; [|split; [exact Hs|split; [exact Hcut|split]]].
  - intros x. rewrite firstn_skipn.
    assert (Hin : In x sorted <-> In x matching).
    { split; apply Permutation_in;
        [|symmetry]; apply sort_by_asc_perm. }
    rewrite Hin. unfold matching. rewrite filter_In, andb_true_iff, String.eqb_eq.
    unfold similar. destruct target_ii as [target|].
    + rewrite Z.leb_le. tauto.
    + intuition.
  - rewrite length_firstn. apply Nat.le_min_l.
  - destruct (Nat.le_gt_cases (Z.to_nat limit) (List.length sorted)) as [Hle|Hgt].
    + right. rewrite length_firstn. now apply Nat.min_l.
    + left. apply skipn_all2. apply Nat.lt_le_incl. exact Hgt.
Qed.

(** ** [create_project] and [get_project] *)

Lemma find_app_fresh {A : Type} (p : A -> bool) (l : list A) (x : A) :
  existsb p l = false -> find p (l ++ [x]) = if p x then Some x else None.
Proof.
  induction l as [|y l IH]; cbn; [reflexivity|].
  destruct (p y); cbn; [discriminate|exact IH].
Qed.

Lemma find_app_other {A : Type} (p : A -> bool) (l : list A) (x : A) :
  p x = false -> find p (l ++ [x]) = find p l.
Proof.
  intros Hx. induction l as [|y l IH]; cbn; [now rewrite Hx|].
  now destruct (p y).
Qed.

Lemma find_none_existsb {A : Type} (p : A -> bool) (l : list A) :
  existsb p l = false -> find p l = None.
Proof.
  induction l as [|y l IH]; cbn; [reflexivity|].
  destruct (p y); cbn; [discriminate|exact IH].
Qed.

(** X19.  Creating a project and reading it back.  When no project has the
    identifier that [uuid4()] draws, [get_project] of that identifier is a
    404 before the call; [create_project] answers with the identifier, the
    name and the type; afterwards [get_project] of the identifier gives the
    project with the fields of the request, and every other identifier
    reads as before. *)
Theorem create_then_get_project (w : world) (project : ProjectCreate) :
  existsb (fun p => String.eqb (p_id p) (w_uuid w (w_next w))) (projects (w_db w))
  = false ->
  let new_id := w_uuid w (w_next w) in
  get_project new_id w = (Raised (HTTPException 404), w)
  /\ exists w',
       create_project project w = (Ok (new_id, pc_name project, pc_type project), w')
       /\ get_project new_id w'
          = (Ok {| p_id := new_id; p_name := pc_name project;
                   p_type := pc_type project;
                   p_description := pc_description project;
                   p_target_device := pc_target_device project;
                   p_created_at := w_clock w |}, w')
       /\ (forall other, other <> new_id ->
             fst (get_project other w') = fst (get_project other w))
       /\ design_iterations (w_db w') = design_iterations (w_db w)
       /\ synthesis_results (w_db w') = synthesis_results (w_db w).
Proof.
  intros Hfresh new_id. subst new_id. split.
  - unfold get_project, bind, fetch, raise.
    now rewrite (find_none_existsb _ _ Hfresh).
  - unfold create_project, get_project, bind, uuid4, now, execute, insert_project,
      fetch, ret. cbn.
    eexists. split; [reflexivity|]. cbn. split; [|split; [|split; reflexivity]].
    + rewrite (find_app_fresh _ _ _ Hfresh). cbn.
      now rewrite String.eqb_refl.
    + intros other Hother. rewrite find_app_other.
      * now destruct (find _ (projects (w_db w))).
      * cbn. apply String.eqb_neq. congruence.
Qed.

Lemma create_then_get_project_witness :
  exists w',
    create_project {| pc_name := "MATMUL"; pc_type := "matmul";
                      pc_description := None;
                      pc_target_device := Some "xc7z020clg484-1" |}
                   (Fir128.world_of Fir128.db0 [])
    = (Ok ("uuid-0", "MATMUL", "matmul"), w')
    /\ fst (get_project "uuid-0" w')
       = Ok {| p_id := "uuid-0"; p_name := "MATMUL"; p_type := "matmul";
               p_description := None;
               p_target_device := Some "xc7z020clg484-1";
               p_created_at := 1000 |}.
Proof.
  destruct (create_then_get_project (Fir128.world_of Fir128.db0 [])
              {| pc_name := "MATMUL"; pc_type := "matmul";
                 pc_description := None;
                 pc_target_device := Some "xc7z020clg484-1" |} eq_refl)
    as (_ & w' & Hc & Hg & _).
  exists w'. split; [exact Hc|]. exact (f_equal fst Hg).
Defined.

(** ** [record_complete_iteration]: a request that goes through *)

Lemma record_rules_count (project_type : string) (l : list RuleApplication)
    (k : Z) (w : world) (n : Z) (w' : world) :
  record_rules project_type l k w = (Ok n, w') ->
  k <= n <= k + Z.of_nat (List.length l).
Proof.
  revert k w. induction l as [|ra rest IH]; intros k w H.
  - cbn in H. unfold ret in H. inversion H; subst. cbn. lia.
  - cbn [record_rules] in H. unfold bind in H.
    destruct (record_rule_application project_type ra w) as [[recorded|e] w1];
      [|discriminate].
    apply IH in H. cbn [List.length]. destruct recorded; lia.
Qed.

(** The synthesis row that a request creates. *)
Definition new_synthesis (data : CompleteIterationCreate) (w : world)
    : synthesis_row :=
  {| sr_id := w_uuid w (S (w_next w));
     sr_iteration_id := w_uuid w (w_next w);
     sr_ii_achieved := ii_achieved (c_synthesis_result data);
     sr_created_at := w_clock w |}.

Lemma complete_iteration_ok (w : world) (data : CompleteIterationCreate) :
  Forall has_keywords (c_rules_applied data) ->
  exists n w',
    record_complete_iteration data w
    = (Ok (w_uuid w (w_next w),
           next_iteration_number (c_project_id data) (w_db w),
           c_project_id data, n), w')
    /\ 0 <= n <= Z.of_nat (List.length (c_rules_applied data))
    /\ same_core (w_db w') (w_db (before_rules data w)).
Proof.
  intros Hall. rewrite record_complete_iteration_unfold.
  destruct (record_rules_result (c_project_type data) (c_rules_applied data) 0
              (before_rules data w))
    as (w' & Hcore & [[He _] | [_ (n & Hr)]]).
  - destruct (lacks_not_all_have _ He Hall).
  - rewrite Hr. exists n, w'. split; [reflexivity|].
    split; [|exact Hcore]. apply record_rules_count in Hr. lia.
Qed.

(** X20.  A complete-iteration request whose rule applications all carry a
    keyword list goes through.  It answers with the new iteration's
    identifier, the next free iteration number of the project, the project
    and the number of rule effects recorded, which is at most the number of
    rule applications.  It adds exactly one iteration row and one synthesis
    row that refers to it, creates the project only when it was missing
    (never a second row for an existing project) and leaves the rule
    catalogue as it was. *)
Theorem complete_iteration_postcondition (w : world)
    (data : CompleteIterationCreate) :
  Forall has_keywords (c_rules_applied data) ->
  exists n w',
    record_complete_iteration data w
    = (Ok (w_uuid w (w_next w),
           next_iteration_number (c_project_id data) (w_db w),
           c_project_id data, n), w')
    /\ 0 <= n <= Z.of_nat (List.length (c_rules_applied data))
    /\ design_iterations (w_db w')
       = (design_iterations (w_db w)
          ++ [new_iteration (c_project_id data)
                (approach_description (c_iteration data)) w])%list
    /\ synthesis_results (w_db w')
       = (synthesis_results (w_db w) ++ [new_synthesis data w])%list
    /\ (if project_exists (c_project_id data) (w_db w)
        then projects (w_db w') = projects (w_db w)
        else exists p,
               projects (w_db w') = (projects (w_db w) ++ [p])%list
               /\ p_id p = c_project_id data
               /\ p_type p = c_project_type data)
    /\ hls_rules (w_db w') = hls_rules (w_db w).
Proof.
  intros Hall.
  destruct (complete_iteration_ok w data Hall) as (n & w' & Hr & Hn & Hcore).
  exists n, w'. split; [exact Hr|]. split; [exact Hn|].
  destruct Hcore as (Hp & Hi & Hs & Hh).
  rewrite Hp, Hi, Hs, Hh. unfold before_rules, new_synthesis, ensure_project.
  cbn [w_db]. destruct (project_exists (c_project_id data) (w_db w)); cbn.
  - now repeat split.
  - repeat split. eexists. repeat split.
Qed.

Lemma complete_iteration_postcondition_witness :
  let data :=
    {| c_project_id := "proj-fir128"; c_project_name := Some "FIR128";
       c_project_type := "fir";
       c_iteration := {| project_id := "proj-fir128";
                         approach_description := "pipelined" |};
       c_synthesis_result := {| ii_achieved := 64 |};
       c_rules_applied :=
         [ {| ra_rule_code := None; ra_rule_keywords := Some ["pipeline"];
              ra_rule_description := None; ra_previous_ii := 128;
              ra_current_ii := 64; ra_success := true;
              ra_category := None |} ] |} in
  exists n w',
    record_complete_iteration data (Fir128.world_of Fir128.db0 [])
    = (Ok ("uuid-0", 4, "proj-fir128", n), w')
    /\ 0 <= n <= 1
    /\ List.length (design_iterations (w_db w')) = 4%nat
    /\ projects (w_db w') = [Fir128.project].
Proof.
  intros data.
  destruct (complete_iteration_postcondition (Fir128.world_of Fir128.db0 []) data)
    as (n & w' & Hr & Hn & Hi & _ & Hp & _).
  - repeat constructor. discriminate.
  - exists n, w'. split; [exact Hr|]. split; [exact Hn|].
    rewrite Hi. split; [reflexivity|exact Hp].
Defined.

(** ** The new iteration in the progress report *)

Lemma progress_rows_of_number (d : db) (di : iteration_row) (r : progress_row) :
  In r (progress_rows_of d di) -> pr_iteration_number r = di_iteration_number di.
Proof.
  unfold progress_rows_of.
  destruct (filter _ (synthesis_results d)) as [|s l].
  - intros [<-|[]]. reflexivity.
  - intros H. apply in_map_iff in H. destruct H as (sr & <- & _). reflexivity.
Qed.

Lemma select_progress_In (project_id : uuid) (d : db) (r : progress_row) :
  In r (select_progress project_id d) <->
  exists di, In di (design_iterations d)
             /\ di_project_id di = project_id
             /\ In r (progress_rows_of d di).
Proof.
  rewrite select_progress_eq.
  assert (H : forall l, In r (sort_by_asc pr_iteration_number l) <-> In r l).
  { intros l. split; apply Permutation_in; [|symmetry]; apply sort_by_asc_perm. }
  rewrite H, in_flat_map. split.
  - intros (di & Hdi & Hr). apply filter_In in Hdi. destruct Hdi as [Hdi E].
    apply String.eqb_eq in E. now exists di.
  - intros (di & Hdi & E & Hr). exists di. split; [|exact Hr].
    apply filter_In. split; [exact Hdi|]. now apply String.eqb_eq.
Qed.

Lemma number_below_next (project_id : uuid) (d : db) (di : iteration_row) :
  In di (design_iterations d) -> di_project_id di = project_id ->
  di_iteration_number di < next_iteration_number project_id d.
Proof.
  intros Hdi E. unfold next_iteration_number.
  pose proof (below_next (iteration_numbers project_id d)) as H.
  rewrite Forall_forall in H. apply H. unfold iteration_numbers.
  apply in_map. apply filter_In. split; [exact Hdi|]. now apply String.eqb_eq.
Qed.

(** X21.  After a complete-iteration request that goes through, the
    progress report of its project is not a 404; it lists the new
    iteration under the number the request was answered with and with the
    II of the request, and no item of the report has a higher number. *)
Theorem complete_iteration_then_progress (w : world)
    (data : CompleteIterationCreate) :
  Forall has_keywords (c_rules_applied data) ->
  exists id n k w' total items,
    record_complete_iteration data w = (Ok (id, n, c_project_id data, k), w')
    /\ get_project_progress (c_project_id data) w'
       = (Ok (c_project_id data, total, items), w')
    /\ In {| pr_iteration_number := n;
             pr_approach_description :=
               Some (approach_description (c_iteration data));
             pr_ii_achieved := Some (ii_achieved (c_synthesis_result data));
             pr_created_at := w_clock w |}
          (map fst items)
    /\ Forall (fun r => pr_iteration_number r <= n) (map fst items).
Proof.
  intros Hall.
  destruct (complete_iteration_ok w data Hall) as (k & w' & Hr & _ & Hcore).
  destruct Hcore as (_ & Hi & Hs & _).
  set (it := new_iteration (c_project_id data)
               (approach_description (c_iteration data)) w).
  assert (Hi' : design_iterations (w_db w')
                = (design_iterations (w_db w) ++ [it])%list).
  { rewrite Hi. unfold before_rules. cbn [w_db design_iterations with_synthesis_results
      with_design_iterations]. now rewrite ensure_project_iterations. }
  assert (Hs' : In (new_synthesis data w) (synthesis_results (w_db w'))).
  { rewrite Hs. unfold before_rules. cbn [w_db synthesis_results with_synthesis_results].
    apply in_or_app. right. left. reflexivity. }
  set (row := {| pr_iteration_number :=
                   next_iteration_number (c_project_id data) (w_db w);
                 pr_approach_description :=
                   Some (approach_description (c_iteration data));
                 pr_ii_achieved := Some (ii_achieved (c_synthesis_result data));
                 pr_created_at := w_clock w |}).
  assert (Hrow : In row (select_progress (c_project_id data) (w_db w'))).
  { apply select_progress_In. exists it. split; [|split; [reflexivity|]].
    - rewrite Hi'. apply in_or_app. right. now left.
    - unfold progress_rows_of.
      assert (Hf : In (new_synthesis data w)
                      (filter (fun sr => String.eqb (sr_iteration_id sr) (di_id it))
                              (synthesis_results (w_db w')))).
      { apply filter_In. split; [exact Hs'|]. apply String.eqb_refl. }
      destruct (filter _ (synthesis_results (w_db w'))) as [|s l]; [destruct Hf|].
      apply in_map_iff. exists (new_synthesis data w). split; [reflexivity|exact Hf]. }
  assert (Hle : Forall (fun r => pr_iteration_number r
                                 <= next_iteration_number (c_project_id data) (w_db w))
                       (select_progress (c_project_id data) (w_db w'))).
  { apply Forall_forall. intros r Hin. apply select_progress_In in Hin.
    destruct Hin as (di & Hdi & E & Hin). apply progress_rows_of_number in Hin.
    rewrite Hin. rewrite Hi' in Hdi. apply in_app_or in Hdi.
    destruct Hdi as [Hdi|[<-|[]]].
    - pose proof (number_below_next _ _ _ Hdi E). lia.
    - cbn. lia. }
  exists (w_uuid w (w_next w)),
    (next_iteration_number (c_project_id data) (w_db w)), k, w'.
  unfold get_project_progress, bind, fetch, ret, raise.
  destruct (select_progress (c_project_id data) (w_db w')) as [|x rest] eqn:Hsel;
    [destruct Hrow|].
  do 2 eexists. split; [exact Hr|]. split; [reflexivity|].
  rewrite annotate_rows. split; [exact Hrow|exact Hle].
Qed.

Lemma complete_iteration_then_progress_witness :
  let data :=
    {| c_project_id := "proj-fir128"; c_project_name := Some "FIR128";
       c_project_type := "fir";
       c_iteration := {| project_id := "proj-fir128";
                         approach_description := "unrolled" |};
       c_synthesis_result := {| ii_achieved := 64 |};
       c_rules_applied := [] |} in
  exists id n k w' total items,
    record_complete_iteration data (Fir128.world_of Fir128.db0 [])
    = (Ok (id, n, "proj-fir128", k), w')
    /\ get_project_progress "proj-fir128" w' = (Ok ("proj-fir128", total, items), w')
    /\ In {| pr_iteration_number := n;
             pr_approach_description := Some "unrolled";
             pr_ii_achieved := Some 64;
             pr_created_at := 1000 |}
          (map fst items)
    /\ Forall (fun r => pr_iteration_number r <= n) (map fst items).
Proof.
  intros data.
  apply (complete_iteration_then_progress (Fir128.world_of Fir128.db0 []) data).
  constructor.
Defined.

(** ** One request or two *)



(** ** [get_effective_rules] *)

Lemma insert_by_perm {A : Type} (before : A -> A -> bool) (r : A) (l : list A) :
  Permutation (insert_by before r l) (r :: l).
Proof.
  induction l as [|x t IH]; cbn; [reflexivity|].
  destruct (before r x); [reflexivity|].
  rewrite IH. apply perm_swap.
Qed.

Lemma sort_by_perm {A : Type} (before : A -> A -> bool) (l : list A) :
  Permutation (sort_by before l) l.
Proof.
  induction l as [|x t IH]; cbn; [reflexivity|].
  rewrite insert_by_perm. now apply perm_skip.
Qed.

Section Ranking.

Context {A : Type} (before : A -> A -> bool) (R : A -> A -> Prop).
Hypothesis before_true : forall a b, before a b = true -> R a b.
Hypothesis before_false : forall a b, before a b = false -> R b a.
Hypothesis R_trans : forall a b c, R a b -> R b c -> R a c.

Lemma insert_by_sorted (r : A) (l : list A) :
  StronglySorted R l -> StronglySorted R (insert_by before r l).
Proof.
  induction 1 as [|x t Ht IH Hx]; cbn; [repeat constructor|].
  destruct (before r x) eqn:E.
  - apply before_true in E. constructor; [now constructor|].
    constructor; [exact E|]. eapply Forall_impl; [|exact Hx].
    intros y Hy. now apply R_trans with x.
  - apply before_false in E. constructor; [exact IH|].
    apply Forall_forall. intros y Hy.
    apply (Permutation_in _ (insert_by_perm before r t)) in Hy.
    destruct Hy as [<-|Hy]; [exact E|].
    rewrite Forall_forall in Hx. now apply Hx.
Qed.

Lemma sort_by_sorted (l : list A) : StronglySorted R (sort_by before l).
Proof.
  induction l as [|x t IH]; cbn; [constructor|].
  now apply insert_by_sorted.
Qed.

End Ranking.

(** [a] may stand before [b] under [ORDER BY success_rate DESC, priority
    DESC]. *)
Definition ranked (a b : effective_rule) : Prop :=
  (er_success_rate b < er_success_rate a)%Q
  \/ ((er_success_rate a == er_success_rate b)%Q
      /\ r_priority (er_rule b) <= r_priority (er_rule a)).

Lemma ranks_before_true (a b : effective_rule) :
  ranks_before a b = true -> ranked a b.
Proof.
  unfold ranks_before, ranked. intros H. apply orb_true_iff in H.
  destruct H as [H|H].
  - left. apply Qnot_le_lt. intros Hle. apply Qle_bool_iff in Hle.
    rewrite Hle in H. discriminate.
  - apply andb_true_iff in H. destruct H as [He Hp].
    apply Qeq_bool_iff in He. apply Z.ltb_lt in Hp. right. split; [exact He|lia].
Qed.

Lemma ranks_before_false (a b : effective_rule) :
  ranks_before a b = false -> ranked b a.
Proof.
  unfold ranks_before, ranked. intros H. apply orb_false_iff in H.
  destruct H as [Hle H]. apply negb_false_iff in Hle. apply Qle_bool_iff in Hle.
  apply Qle_lt_or_eq in Hle. destruct Hle as [Hlt|Heq]; [now left|].
  right. split; [now symmetry|].
  apply Qeq_bool_iff in Heq. rewrite Heq in H. cbn in H.
  apply Z.ltb_ge in H. exact H.
Qed.

Lemma ranked_trans (a b c : effective_rule) :
  ranked a b -> ranked b c -> ranked a c.
Proof.
  unfold ranked. intros [Hab|[Hab Pab]] [Hbc|[Hbc Pbc]].
  - left. now apply Qlt_trans with (er_success_rate b).
  - left. now rewrite <- Hbc.
  - left. now rewrite Hab.
  - right. split; [now rewrite Hab|lia].
Qed.

Lemma sql_eq_true (column : option string) (value : string) :
  sql_eq column value = true <-> column = Some value.
Proof.
  unfold sql_eq. destruct column as [c|].
  - rewrite String.eqb_eq. split; congruence.
  - split; discriminate.
Qed.

(** The rows of the left join. *)
Lemma left_join_In (d : db) (r : rule_row) (o : option effectiveness_row) :
  In (r, o) (left_join_effectiveness d) <->
  In r (hls_rules d)
  /\ match o with
     | Some re => In re (rules_effectiveness d) /\ re_rule_id re = r_id r
     | None => forall re, In re (rules_effectiveness d) -> re_rule_id re <> r_id r
     end.
Proof.
  unfold left_join_effectiveness. rewrite in_flat_map. split.
  - intros (r0 & Hr0 & Hin).
    destruct (filter (fun re => String.eqb (r_id r0) (re_rule_id re))
                     (rules_effectiveness d)) as [|e l] eqn:F.
    + destruct Hin as [Hin|[]]. inversion Hin; subst. split; [exact Hr0|].
      intros re Hre Hid.
      assert (Hf : In re (filter (fun re => String.eqb (r_id r) (re_rule_id re))
                                 (rules_effectiveness d))).
      { apply filter_In. split; [exact Hre|]. now apply String.eqb_eq. }
      rewrite F in Hf. destruct Hf.
    + apply in_map_iff in Hin. destruct Hin as (re & Hpair & Hre).
      inversion Hpair; subst. split; [exact Hr0|].
      rewrite <- F in Hre. apply filter_In in Hre. destruct Hre as [Hre E].
      apply String.eqb_eq in E. now split.
  - intros (Hr & Ho). exists r. split; [exact Hr|].
    destruct (filter (fun re => String.eqb (r_id r) (re_rule_id re))
                     (rules_effectiveness d)) as [|e l] eqn:F.
    + destruct o as [re|]; [|now left]. destruct Ho as [Hre Hid].
      assert (Hf : In re (filter (fun re => String.eqb (r_id r) (re_rule_id re))
                                 (rules_effectiveness d))).
      { apply filter_In. split; [exact Hre|]. now apply String.eqb_eq. }
      rewrite F in Hf. destruct Hf.
    + assert (He : In e (filter (fun re => String.eqb (r_id r) (re_rule_id re))
                                (rules_effectiveness d))).
      { rewrite F. now left. }
      destruct o as [re|].
      * destruct Ho as [Hre Hid]. apply in_map_iff. exists re.
        split; [reflexivity|]. rewrite <- F. apply filter_In.
        split; [exact Hre|]. now apply String.eqb_eq.
      * apply filter_In in He. destruct He as [He E].
        apply String.eqb_eq in E. destruct (Ho e He). now symmetry.
Qed.

Section EffectiveRulesProps.

Variable r_rule_type : rule_row -> option string.

(** What the filters ask of a rule, and of the effectiveness row joined to
    it. *)
Definition rule_passes (category rule_type : option string) (r : rule_row)
    : Prop :=
  (Text.truthy category = true ->
   r_category r = Some (coalesce category EmptyString))
  /\ (Text.truthy rule_type = true ->
      r_rule_type r = Some (coalesce rule_type EmptyString)).

Definition type_passes (project_type : option string) (re : effectiveness_row)
    : Prop :=
  Text.truthy project_type = true ->
  re_project_type re = coalesce project_type EmptyString.

Lemma conditions_true (project_type category rule_type : option string)
    (r : rule_row) (o : option effectiveness_row) :
  conditions r_rule_type project_type category rule_type (r, o) = true <->
  match o with Some re => type_passes project_type re | None => True end
  /\ rule_passes category rule_type r.
Proof.
  unfold conditions, rule_passes, type_passes. cbn [fst snd].
  rewrite !andb_true_iff.
  destruct (Text.truthy project_type), (Text.truthy category),
    (Text.truthy rule_type); destruct o as [re|];
    rewrite ?sql_eq_true, ?String.eqb_eq; intuition discriminate.
Qed.

Lemma effective_rules_In (project_type category rule_type : option string)
    (min_success_rate : Q) (d : db) (x : effective_rule) :
  In x (sort_by ranks_before
          (filter (fun x => Qle_bool min_success_rate (er_success_rate x))
             (map (fun row => effective_row (fst row) (snd row))
                (filter (conditions r_rule_type project_type category rule_type)
                   (left_join_effectiveness d))))) <->
  (min_success_rate <= er_success_rate x)%Q
  /\ exists o,
       x = effective_row (er_rule x) o
       /\ In (er_rule x, o) (left_join_effectiveness d)
       /\ match o with Some re => type_passes project_type re | None => True end
       /\ rule_passes category rule_type (er_rule x).
Proof.
  assert (H : forall l, In x (sort_by ranks_before l) <-> In x l).
  { intros l. split; apply Permutation_in; [|symmetry]; apply sort_by_perm. }
  rewrite H, filter_In, in_map_iff, Qle_bool_iff. split.
  - intros [((r, o) & <- & Hin) Hmin]. split; [exact Hmin|].
    apply filter_In in Hin. destruct Hin as [Hin Hc].
    apply conditions_true in Hc. destruct Hc as [Ho Hr]. exists o.
    cbn [fst snd]. split; [reflexivity|]. split; [exact Hin|].
    split; [exact Ho|exact Hr].
  - intros [Hmin (o & Hx & Hin & Ho & Hr)]. split; [|exact Hmin].
    exists (er_rule x, o). split; [now rewrite Hx at 3|].
    apply filter_In. split; [exact Hin|]. apply conditions_true. now split.
Qed.

(** X23.  [get_effective_rules] never writes.  Its answer is ranked by
    success rate, the higher first, and by priority among equal rates.
    Every row of it is a catalogued rule that passes the category and
    rule-type filters, with a success rate of at least [min_success_rate],
    and carries the statistics of one of the rule's own effectiveness rows
    (of the asked project type, when one is asked) or, for a rule that has
    none, zeros and no average. *)
Theorem effective_rules_report (w : world)
    (project_type category rule_type : option string) (min_success_rate : Q) :
  exists rows,
    get_effective_rules r_rule_type project_type category rule_type
      min_success_rate w = (Ok rows, w)
    /\ StronglySorted ranked rows
    /\ Forall
         (fun x =>
            In (er_rule x) (hls_rules (w_db w))
            /\ rule_passes category rule_type (er_rule x)
            /\ (min_success_rate <= er_success_rate x)%Q
            /\ ((exists re,
                   In re (rules_effectiveness (w_db w))
                   /\ re_rule_id re = r_id (er_rule x)
                   /\ type_passes project_type re
                   /\ x = effective_row (er_rule x) (Some re))
                \/ ((forall re, In re (rules_effectiveness (w_db w)) ->
                                re_rule_id re <> r_id (er_rule x))
                    /\ er_times_applied x = 0
                    /\ er_success_count x = 0
                    /\ er_success_rate x = 0%Q
                    /\ er_avg_ii_improvement x = None)))
         rows.
Proof.
  unfold get_effective_rules, fetch. eexists. split; [reflexivity|].
  split.
  - apply sort_by_sorted.
    + exact ranks_before_true.
    + exact ranks_before_false.
    + exact ranked_trans.
  - apply Forall_forall. intros x Hx. apply effective_rules_In in Hx.
    destruct Hx as [Hmin (o & Hx & Hin & Ho & Hr)].
    apply left_join_In in Hin. destruct Hin as [Hrule Hjoin].
    split; [exact Hrule|]. split; [exact Hr|]. split; [exact Hmin|].
    destruct o as [re|].
    + left. exists re. destruct Hjoin as [Hre Hid]. now repeat split.
    + right. split; [exact Hjoin|]. rewrite Hx. now repeat split.
Qed.

(** X24.  A rule that was never applied (no effectiveness row refers to
    it) is listed by [get_effective_rules] exactly when it passes the
    category and rule-type filters and [min_success_rate] is not positive,
    whatever project type is asked; it is listed with zeros.  With the
    default threshold 0.7 it is never listed. *)
Theorem effective_rules_unapplied (w : world)
    (project_type category rule_type : option string) (min_success_rate : Q)
    (r : rule_row) :
  In r (hls_rules (w_db w)) ->
  (forall re, In re (rules_effectiveness (w_db w)) -> re_rule_id re <> r_id r) ->
  exists rows,
    get_effective_rules r_rule_type project_type category rule_type
      min_success_rate w = (Ok rows, w)
    /\ (In r (map er_rule rows) <->
        (min_success_rate <= 0)%Q /\ rule_passes category rule_type r)
    /\ (forall x, In x rows -> er_rule x = r -> x = effective_row r None).
Proof.
  intros Hr Hnone. unfold get_effective_rules, fetch. eexists.
  split; [reflexivity|].
  assert (Hrow : forall x,
             In x (sort_by ranks_before
                     (filter (fun x => Qle_bool min_success_rate (er_success_rate x))
                        (map (fun row => effective_row (fst row) (snd row))
                           (filter (conditions r_rule_type project_type category
                                      rule_type)
                              (left_join_effectiveness (w_db w)))))) ->
             er_rule x = r ->
             x = effective_row r None
             /\ (min_success_rate <= 0)%Q /\ rule_passes category rule_type r).
  { intros x Hx Hxr. apply effective_rules_In in Hx.
    destruct Hx as [Hmin (o & Hx & Hin & Ho & Hp)]. rewrite Hxr in *.
    apply left_join_In in Hin. destruct Hin as [_ Hjoin].
    destruct o as [re|].
    - destruct Hjoin as [Hre Hid]. destruct (Hnone re Hre Hid).
    - split; [exact Hx|]. split; [|exact Hp]. now rewrite Hx in Hmin. }
  split; [split|].
  - intros Hin. apply in_map_iff in Hin. destruct Hin as (x & Hxr & Hx).
    now destruct (Hrow x Hx Hxr) as [_ H].
  - intros [Hmin Hp]. apply in_map_iff. exists (effective_row r None).
    split; [reflexivity|]. apply effective_rules_In. split; [exact Hmin|].
    exists None. cbn [er_rule effective_row]. split; [reflexivity|].
    split; [|now split]. apply left_join_In. now split.
  - intros x Hx Hxr. now destruct (Hrow x Hx Hxr) as [H _].
Qed.

(** X25.  With a project type asked, a rule whose effectiveness rows are
    all of other project types is not listed at all, not even with
    [min_success_rate] 0 under which never-applied rules are listed: the
    filter on [re.project_type] removes its joined rows and the left join
    gives it no row of NULLs. *)
Theorem effective_rules_other_type (w : world)
    (project_type category rule_type : option string) (min_success_rate : Q)
    (r : rule_row) :
  Text.truthy project_type = true ->
  (exists re, In re (rules_effectiveness (w_db w)) /\ re_rule_id re = r_id r) ->
  (forall re, In re (rules_effectiveness (w_db w)) -> re_rule_id re = r_id r ->
              re_project_type re <> coalesce project_type EmptyString) ->
  exists rows,
    get_effective_rules r_rule_type project_type category rule_type
      min_success_rate w = (Ok rows, w)
    /\ ~ In r (map er_rule rows).
Proof.
  intros Hpt (re0 & Hre0 & Hid0) Hother. unfold get_effective_rules, fetch.
  eexists. split; [reflexivity|].
  intros Hin. apply in_map_iff in Hin. destruct Hin as (x & Hxr & Hx).
  apply effective_rules_In in Hx.
  destruct Hx as [_ (o & _ & Hin & Ho & _)]. rewrite Hxr in *.
  apply left_join_In in Hin. destruct Hin as [_ Hjoin].
  destruct o as [re|].
  - destruct Hjoin as [Hre Hid]. exact (Hother re Hre Hid (Ho Hpt)).
  - exact (Hjoin re0 Hre0 Hid0).
Qed.

End EffectiveRulesProps.

(** In the FIR128 catalogue R002 was never applied: it is listed under
    threshold 0 and not under the default 0.7. *)
Lemma effective_rules_unapplied_witness :
  exists rows,
    get_effective_rules (fun _ => Some "official") (Some "fir") None None 0
      (Fir128.world_of Fir128.db0 [])
    = (Ok rows, Fir128.world_of Fir128.db0 [])
    /\ In Fir128.rule_R002 (map er_rule rows).
Proof.
  destruct (effective_rules_unapplied (fun _ => Some "official")
              (Fir128.world_of Fir128.db0 []) (Some "fir") None None 0
              Fir128.rule_R002)
    as (rows & Hr & Hin & _).
  - cbn. auto.
  - cbn. intros re [<-|[]]. discriminate.
  - exists rows. split; [exact Hr|]. apply Hin. split.
    + discriminate.
    + split; discriminate.
Defined.

(** P001 has statistics for "fir" only: asked for "matmul" it is not
    listed. *)
Lemma effective_rules_other_type_witness :
  exists rows,
    get_effective_rules (fun _ => Some "official") (Some "matmul") None None 0
      (Fir128.world_of Fir128.db0 [])
    = (Ok rows, Fir128.world_of Fir128.db0 [])
    /\ ~ In Fir128.rule_P001 (map er_rule rows).
Proof.
  apply (effective_rules_other_type (fun _ => Some "official")
           (Fir128.world_of Fir128.db0 []) (Some "matmul") None None 0
           Fir128.rule_P001).
  - reflexivity.
  - exists Fir128.eff_P001. split; [now left|reflexivity].
  - cbn. intros re [<-|[]] _. discriminate.
Defined.

End MainMore.

(* ================================================================== *)
(** * Properties of the command line of the rollback tool *)

Module CliMore.
Import RollbackCli.

(** A text without its letters h. *)
Fixpoint without_h (s : string) : string :=
  match s with
  | EmptyString => EmptyString
  | String c t => if Ascii.eqb c "h" then without_h t else String c (without_h t)
  end.

Fixpoint occurs (a : ascii) (s : string) : bool :=
  match s with
  | EmptyString => false
  | String c t => Ascii.eqb c a || occurs a t
  end.

Lemma prefix_nil (s : string) : String.prefix EmptyString s = true.
Proof. now destruct s. Qed.

Lemma replace_h (s : string) : replace "h" EmptyString s = without_h s.
Proof.
  unfold replace. induction s as [|c t IH]; [reflexivity|].
  cbn [replace_from String.prefix String.length Nat.sub without_h].
  destruct (ascii_dec "h" c) as [<-|Hne].
  - rewrite prefix_nil. cbn. exact IH.
  - rewrite (proj2 (Ascii.eqb_neq c "h")) by congruence.
    now rewrite IH.
Qed.

Lemma without_h_occurs (s : string) : occurs "h" (without_h s) = false.
Proof.
  induction s as [|c t IH]; [reflexivity|]. cbn [without_h].
  destruct (Ascii.eqb c "h") eqn:E; [exact IH|].
  cbn [occurs]. now rewrite E.
Qed.

(** Replacing a text whose first letter does not occur changes nothing. *)
Lemma replace_absent (a : ascii) (old new s : string) :
  occurs a s = false -> replace (String a old) new s = s.
Proof.
  unfold replace. induction s as [|c t IH]; [reflexivity|].
  cbn [occurs]. intros H. apply orb_false_iff in H. destruct H as [Hc Ht].
  cbn [replace_from String.prefix].
  destruct (ascii_dec a c) as [->|Hne].
  - rewrite Ascii.eqb_refl in Hc. discriminate.
  - now rewrite (IH Ht).
Qed.

Lemma lower_app (a b : string) :
  Text.lower (a ++ b) = Text.lower a ++ Text.lower b.
Proof.
  induction a as [|c t IH]; [reflexivity|]. cbn. now rewrite IH.
Qed.

Lemma without_h_app (a b : string) :
  without_h (a ++ b) = without_h a ++ without_h b.
Proof.
  induction a as [|c t IH]; [reflexivity|]. cbn [append without_h].
  destruct (Ascii.eqb c "h"); [exact IH|]. cbn. now rewrite IH.
Qed.

(** X26.  The text that the command line hands to [float()] for
    [--recent] is the lower-cased argument without its letters h: once the
    first [replace] has taken every h away, the replacements of 'hour' and
    'hours' find nothing.  No h is left, a number that only differs by case
    or by h parses as before, and an argument that spells the unit out
    keeps the rest of the word: [<n>hours] reaches [float()] as
    [<n>ours]. *)
Theorem hours_str_only_drops_h (recent : string) :
  hours_str recent = without_h (Text.lower recent)
  /\ occurs "h" (hours_str recent) = false
  /\ hours_str (recent ++ "h") = hours_str recent
  /\ hours_str (recent ++ "hour") = hours_str recent ++ "our"
  /\ hours_str (recent ++ "hours") = hours_str recent ++ "ours".
Proof.
  assert (H : forall s, hours_str s = without_h (Text.lower s)).
  { intros s. unfold hours_str. rewrite replace_h.
    rewrite (replace_absent "h" "our") by apply without_h_occurs.
    now rewrite (replace_absent "h" "ours") by apply without_h_occurs. }
  split; [apply H|]. split; [rewrite H; apply without_h_occurs|].
  rewrite !H, !lower_app, !without_h_app. cbn.
  split; [|split; reflexivity].
  generalize (without_h (Text.lower recent)). intros s.
  induction s as [|c t IH]; [reflexivity|]. cbn. now rewrite IH.
Qed.

End CliMore.
